(** * Incremental Google-Trends collector: data frames, validation, backoff,
      fetch wrappers, merge-by-date and persistence.

    Shallow embedding of [scripts/Tesis/scraping_outputs/trends.py] (the
    hardened collector) and of the parts of [scripts/scrapping/0_scrap-trends.py]
    (the simple collector) that differ from it. *)

From Stdlib Require Import ZArith List Bool Lia QArith Qminmax Lqa Sorted Permutation.
From stdpp Require Import gmap strings.
Import ListNotations.
Local Open Scope string_scope.
Local Open Scope list_scope.
Local Open Scope Z_scope.

(** ** Data frames *)

(** A cell of a pandas frame.  [NaN] is the float hole left by joins and by
    reading a file, [NA] is [pd.NA]; dates ([Timestamp], [datetime.date]) are
    day ordinals; [Text] is a string that does not read as a date. *)
Inductive cell : Type :=
| NaN
| NA
| Num (v : Z)
| Day (d : Z)
| Text (s : string).

Definition cell_eq_dec (a b : cell) : {a = b} + {a <> b}.
Proof. decide equality; [apply Z.eq_dec | apply Z.eq_dec | apply String.string_dec]. Defined.

Definition cell_eqb (a b : cell) : bool := if cell_eq_dec a b then true else false.

Definition isna (c : cell) : bool :=
  match c with NaN | NA => true | _ => false end.

(** A frame: column labels and rows; a row lists its cells in column order. *)
Record DataFrame : Type := mkDF { columns : list string; rows : list (list cell) }.

Definition empty_frame : DataFrame := mkDF [] [].

(** [df.empty]: some axis has length zero. *)
Definition df_empty (df : DataFrame) : bool :=
  match columns df, rows df with
  | [], _ | _, [] => true
  | _, _ => false
  end.

Definition has_col (c : string) (cols : list string) : bool :=
  if in_dec String.string_dec c cols then true else false.

Fixpoint col_index (c : string) (cols : list string) : option nat :=
  match cols with
  | [] => None
  | x :: cols' => if String.string_dec x c then Some O
                  else option_map S (col_index c cols')
  end.

(** [row[c]] under the labels [cols]; a label the row does not have reads as
    the hole pandas fills in when frames are aligned. *)
Definition get_cell (cols : list string) (r : list cell) (c : string) : cell :=
  match col_index c cols with
  | Some i => nth i r NaN
  | None => NaN
  end.

(** [df[c]] as the list of its cells. *)
Definition column (df : DataFrame) (c : string) : list cell :=
  map (fun r => get_cell (columns df) r c) (rows df).

(** A frame is well formed when every row has one cell per label and no label
    is repeated. *)
Definition wf (df : DataFrame) : Prop :=
  List.NoDup (columns df) /\ Forall (fun r => length r = length (columns df)) (rows df).

(** dtype, read off the cells: a column is numeric when it holds numbers and
    float holes only ([pd.NA], dates and text make it [object]). *)
Definition is_number (c : cell) : bool :=
  match c with Num _ | NaN => true | _ => false end.

Definition numeric_col (df : DataFrame) (c : string) : bool :=
  forallb is_number (column df c).

(** [df.select_dtypes(include=['number']).columns] *)
Definition select_numeric (df : DataFrame) : list string :=
  List.filter (numeric_col df) (columns df).

(** [Series.min()] / [Series.max()] skip holes; [None] stands for the NaN
    they return on a column of holes. *)
Definition numbers_of (l : list cell) : list Z :=
  flat_map (fun c => match c with Num v => [v] | _ => [] end) l.

Definition series_min (l : list cell) : option Z :=
  match numbers_of l with
  | [] => None
  | v :: vs => Some (fold_left Z.min vs v)
  end.

Definition series_max (l : list cell) : option Z :=
  match numbers_of l with
  | [] => None
  | v :: vs => Some (fold_left Z.max vs v)
  end.

(** ** Logging *)

(** One line of the log, by what it reports. *)
Inductive log_line : Type :=
| OutOfRange (col : string) (lo hi : option Z)
| ValidationFailed
| NoDiskSpace
| BackupCreated (p : string)
| BackupError
| CsvSaved (p : string)
| CsvError
| ParquetSaved (p : string)
| ParquetError.

(** ** Validator ([validate_dataframe]) *)

Module Validator.

(** The second component of the result ([mensaje_error]). *)
Inductive message : Type :=
| IsNone                    (* "DataFrame es None" *)
| IsEmpty                   (* "DataFrame esta vacio" *)
| NoDateColumn              (* "Falta columna 'date'" *)
| InvalidDates (n : nat)    (* "Hay n fechas invalidas" *)
| OK.

Definition ns_per_day : Z := 86400000000000.

(** [pd.to_datetime(_, errors='coerce')] on one value: [None] is [NaT]. *)
Definition to_datetime_coerce (c : cell) : option Z :=
  match c with
  | Day d => Some d
  | Num v => Some (v / ns_per_day)
  | NaN | NA | Text _ => None
  end.

Definition count_nat (l : list (option Z)) : nat :=
  length (List.filter (fun o => match o with None => true | Some _ => false end) l).

Definition lt0 (o : option Z) : bool :=
  match o with Some v => v <? 0 | None => false end.

Definition gt1000 (o : option Z) : bool :=
  match o with Some v => 1000 <? v | None => false end.

(** The loop over [numeric_cols]: it only ever writes a warning. *)
Definition range_warnings (df : DataFrame) : list log_line :=
  flat_map (fun col =>
      if String.string_dec col "date" then []
      else let lo := series_min (column df col) in
           let hi := series_max (column df col) in
           if lt0 lo || gt1000 hi then [OutOfRange col lo hi] else [])
    (select_numeric df).

(** [validate_dataframe(df)]: the pair it returns and the warnings it logs.
    ([to_datetime] with [errors='coerce'] turns what it cannot read into
    [NaT] instead of raising, so the [except] around it is not entered.) *)
Definition validate_dataframe (df : option DataFrame) : (bool * message) * list log_line :=
  match df with
  | None => ((false, IsNone), [])
  | Some df =>
    if df_empty df then ((false, IsEmpty), [])
    else if negb (has_col "date" (columns df)) then ((false, NoDateColumn), [])
    else
      let dates := map to_datetime_coerce (column df "date") in
      if (0 <? count_nat dates)%nat then ((false, InvalidDates (count_nat dates)), [])
      else ((true, OK), range_warnings df)
  end.

Definition is_valid (df : DataFrame) : bool := fst (fst (validate_dataframe (Some df))).

End Validator.

(** ** Tunables of the two collectors *)

Record config : Type := mkConfig {
  MAX_RETRIES : nat;
  BASE_SLEEP_SECONDS : Q;
  PAUSE_BETWEEN_CALLS : Q;
  MAX_BACKOFF_CAP : Q;          (* default [cap] of [backoff_sleep] *)
  JITTER : Q;                   (* upper end of [random.uniform(0, _)] *)
}.

(** [trends.py] *)
Definition hardened : config := mkConfig 5 30 20 600 10.
(** [0_scrap-trends.py] *)
Definition simple : config := mkConfig 3 5 8 90 2.

Definition PAUSE_BETWEEN_CANDIDATES : Q := 60.
Definition BLOCKED_WAIT_TIME : Q := 3600.

(** ** Backoff ([backoff_sleep]) *)

Module Backoff.

(** [2 ** attempt] *)
Definition pow2 (attempt : nat) : Q := inject_Z (2 ^ Z.of_nat attempt).

(** The [delay] computed by [backoff_sleep(attempt, cap)]; [jitter] is the
    value drawn by [random.uniform]. *)
Definition delay (cfg : config) (attempt : nat) (cap : option Q) (jitter : Q) : Q :=
  let cap := match cap with None => MAX_BACKOFF_CAP cfg | Some c => c end in
  Qmin (BASE_SLEEP_SECONDS cfg * pow2 attempt + jitter) cap.

(** Failure classes told apart by the [except] clauses of the wrappers. *)
Inductive failure : Type := Throttled | Network | Other.

(** What the hardened wrappers sleep before they retry after a failure at
    [attempt]: connection errors wait [BASE_SLEEP_SECONDS * 2] first. *)
Definition penalty (cfg : config) (f : failure) : Q :=
  match f with
  | Network => BASE_SLEEP_SECONDS cfg * 2
  | Throttled | Other => 0
  end.

Definition retry_wait (cfg : config) (f : failure) (attempt : nat) (jitter : Q) : Q :=
  penalty cfg f + delay cfg attempt None jitter.

End Backoff.

(** ** Frame operations used by the collector *)

Module Frame.

(** [df.reindex(columns=cols)]: cells follow their labels, a label the frame
    lacks becomes a column of holes. *)
Definition reindex (cols : list string) (df : DataFrame) : DataFrame :=
  mkDF cols (map (fun r => map (get_cell (columns df) r) cols) (rows df)).

(** [df.drop(columns=[c for c in df.columns if p c], errors="ignore")] *)
Definition drop_columns (p : string -> bool) (df : DataFrame) : DataFrame :=
  reindex (List.filter (fun c => negb (p c)) (columns df)) df.

(** [l[i] = x]; a position past the end changes nothing. *)
Fixpoint set_nth {A} (i : nat) (x : A) (l : list A) : list A :=
  match l, i with
  | [], _ => []
  | _ :: l', O => x :: l'
  | y :: l', S i' => y :: set_nth i' x l'
  end.

(** [df[c] = v] with a scalar [v]: overwrite the column, or append it. *)
Definition assign_scalar (c : string) (v : cell) (df : DataFrame) : DataFrame :=
  match col_index c (columns df) with
  | Some i => mkDF (columns df) (map (set_nth i v) (rows df))
  | None => mkDF (columns df ++ [c]) (map (fun r => r ++ [v]) (rows df))
  end.

(** [df[c] = f(row)] for a value computed from each row. *)
Definition assign_rowwise (c : string) (f : list cell -> cell) (df : DataFrame) : DataFrame :=
  match col_index c (columns df) with
  | Some i => mkDF (columns df) (map (fun r => set_nth i (f r) r) (rows df))
  | None => mkDF (columns df ++ [c]) (map (fun r => r ++ [f r]) (rows df))
  end.

(** [pd.concat([a, b], ignore_index=True)]: the labels of [a], then the new
    ones of [b]; the rows of [a], then those of [b], aligned on the labels. *)
Definition concat (a b : DataFrame) : DataFrame :=
  let cols := columns a ++ List.filter (fun c => negb (has_col c (columns a))) (columns b) in
  mkDF cols (rows (reindex cols a) ++ rows (reindex cols b)).

(** The date of a row. *)
Definition date_of (cols : list string) (r : list cell) : cell := get_cell cols r "date".

(** Order used by [sort_values("date")]: dates by day, holes last. *)
Definition date_leb (a b : cell) : bool :=
  match a, b with
  | Day x, Day y => x <=? y
  | Day _, _ => true
  | _, Day _ => false
  | _, _ => true
  end.

(** One of the orders [sort_values] may return: the sort that keeps rows of
    equal key in the order they had, the order the comment in [main] counts on
    ("dejando el ultimo = datos nuevos").  pandas sorts one key with
    [kind='quicksort'] by default and leaves the order of ties open, so what
    depends on that order is stated for any sort ([Module Ties]); this one
    serves where the order of ties makes no difference. *)
Fixpoint insert_sorted {A} (key : A -> cell) (x : A) (l : list A) : list A :=
  match l with
  | [] => [x]
  | y :: l' => if date_leb (key x) (key y) then x :: l
               else y :: insert_sorted key x l'
  end.

Fixpoint sort_by {A} (key : A -> cell) (l : list A) : list A :=
  match l with
  | [] => []
  | x :: l' => insert_sorted key x (sort_by key l')
  end.

Definition sort_values_date (df : DataFrame) : DataFrame :=
  mkDF (columns df) (sort_by (date_of (columns df)) (rows df)).

(** [drop_duplicates(subset=[...], keep="last")]: a row stays when no later
    row has its key. *)
Fixpoint drop_dups_last {A} (key : A -> cell) (l : list A) : list A :=
  match l with
  | [] => []
  | x :: l' => if existsb (fun y => cell_eqb (key y) (key x)) l'
               then drop_dups_last key l'
               else x :: drop_dups_last key l'
  end.

Definition drop_duplicates_date_last (df : DataFrame) : DataFrame :=
  mkDF (columns df) (drop_dups_last (date_of (columns df)) (rows df)).

(** Distinct values, first occurrences kept. *)
Fixpoint distinct (l : list cell) : list cell :=
  match l with
  | [] => []
  | x :: l' => x :: List.filter (fun y => negb (cell_eqb y x)) (distinct l')
  end.

(** [pd.merge(a, b, on='date', how='outer', suffixes=('', '_new'))]:
    one block of rows per key, keys in sorted order; inside a block every
    left row meets every right row, and a side that lacks the key gives
    holes.  Right labels already used on the left get the suffix. *)
Definition others (cols : list string) : list string :=
  List.filter (fun c => if String.string_dec c "date" then false else true) cols.

Definition suffixed (left : list string) (c : string) : string :=
  if has_col c (others left) then String.append c "_new" else c.

Definition merge_columns (a b : DataFrame) : list string :=
  columns a ++ map (suffixed (columns a)) (others (columns b)).

Definition rows_with (cols : list string) (k : cell) (l : list (list cell)) : list (list cell) :=
  List.filter (fun r => cell_eqb (date_of cols r) k) l.

Definition right_part (b : DataFrame) (r : list cell) : list cell :=
  map (get_cell (columns b) r) (others (columns b)).

Definition holes (n : nat) : list cell := repeat NaN n.

Definition left_only (a : DataFrame) (k : cell) : list cell :=
  map (fun c => if String.string_dec c "date" then k else NaN) (columns a).

Definition merge_block (a b : DataFrame) (k : cell) : list (list cell) :=
  let ls := rows_with (columns a) k (rows a) in
  let rs := rows_with (columns b) k (rows b) in
  match ls, rs with
  | [], _ => map (fun r => left_only a k ++ right_part b r) rs
  | _, [] => map (fun l => l ++ holes (length (others (columns b)))) ls
  | _, _ => flat_map (fun l => map (fun r => l ++ right_part b r) rs) ls
  end.

Definition merge_outer (a b : DataFrame) : DataFrame :=
  let keys := sort_by (fun k => k)
                (distinct (column a "date" ++ column b "date")) in
  mkDF (merge_columns a b) (flat_map (merge_block a b) keys).

(** [df[cols] = df[cols].fillna(0)] *)
Definition fillna0 (cols : list string) (df : DataFrame) : DataFrame :=
  mkDF (columns df)
       (map (fun r => map (fun cv => if has_col (fst cv) cols && isna (snd cv)
                                     then Num 0 else snd cv)
                          (combine (columns df) r))
            (rows df)).

(** [df[cols].max(axis=1)] on one row: the largest number, holes skipped. *)
Definition row_max (all cols : list string) (r : list cell) : cell :=
  match series_max (map (get_cell all r) cols) with
  | Some v => Num v
  | None => NaN
  end.

(** [pd.to_datetime(_).dt.date] on one value; [None] when it raises. *)
Definition to_date (c : cell) : option cell :=
  match c with
  | Day d => Some (Day d)
  | Num v => Some (Day (v / Validator.ns_per_day))
  | NaN | NA => Some NaN
  | Text _ => None
  end.

(** ASCII [str.lower]. *)
Definition lower_ascii (a : Ascii.ascii) : Ascii.ascii :=
  let n := Ascii.nat_of_ascii a in
  if ((65 <=? n) && (n <=? 90))%nat then Ascii.ascii_of_nat (n + 32) else a.

Fixpoint lower (s : string) : string :=
  match s with
  | EmptyString => EmptyString
  | String a s' => String (lower_ascii a) (lower s')
  end.

Definition is_ispartial (c : string) : bool :=
  if String.string_dec (lower c) "ispartial" then true else false.

End Frame.

(** ** Rate-limited fetch wrappers ([safe_build_payload],
       [safe_interest_over_time]) of [trends.py] *)

Module Client.

(** Exceptions told apart by the [except] clauses: [TooManyRequestsError],
    the [requests] family ([ConnectionError], [Timeout], [RequestException])
    and every other [Exception]. *)
Inductive exn : Type := TooManyRequestsError | RequestException | OtherException.

Inductive outcome (A : Type) : Type :=
| Returns (a : A)
| Raises (e : exn).
Arguments Returns {A} a.
Arguments Raises {A} e.

(** Where a [time.sleep] is issued. *)
Inductive pause : Type :=
| InBackoff        (* backoff_sleep *)
| InBlocked        (* wait_if_blocked *)
| AfterCall        (* PAUSE_BETWEEN_CALLS *)
| AfterRecreate    (* the 10 s after make_pytrends *)
| ConnectionPenalty
| BetweenCandidates.

Definition pause_eqb (a b : pause) : bool :=
  match a, b with
  | InBackoff, InBackoff | InBlocked, InBlocked | AfterCall, AfterCall
  | AfterRecreate, AfterRecreate | ConnectionPenalty, ConnectionPenalty
  | BetweenCandidates, BetweenCandidates => true
  | _, _ => false
  end.

(** The library and the random source: what the k-th call of each returns.
    A reply of [interest_over_time] is the frame with its date index already
    turned into the first column. *)
Record service : Type := mkService {
  make_pytrends_reply : nat -> outcome unit;
  build_payload_reply : nat -> outcome unit;
  interest_over_time_reply : nat -> outcome (option DataFrame);
  uniform : nat -> Q;
}.

(** The process state the wrappers touch: the global counter, how many calls
    of each kind were made, and the sleeps so far (oldest first). *)
Record world : Type := mkWorld {
  consecutive_429_count : nat;
  creates : nat;
  builds : nat;
  fetches : nat;
  draws : nat;
  slept : list (pause * Q);
}.

Definition M (A : Type) : Type := world -> outcome A * world.

Definition ret {A} (a : A) : M A := fun w => (Returns a, w).

Definition bind {A B} (m : M A) (k : A -> M B) : M B :=
  fun w => match m w with
           | (Returns a, w') => k a w'
           | (Raises e, w') => (Raises e, w')
           end.

Definition raise {A} (e : exn) : M A := fun w => (Raises e, w).

(** [try: m  except Exception as e: h e] *)
Definition try_except {A} (m : M A) (h : exn -> M A) : M A :=
  fun w => match m w with
           | (Raises e, w') => h e w'
           | r => r
           end.

Declare Scope client_scope.
Delimit Scope client_scope with client.
Notation "x <- m ;; k" := (bind m (fun x => k))
  (at level 100, m at next level, right associativity) : client_scope.
Notation "m ;; k" := (bind m (fun _ => k))
  (at level 100, right associativity) : client_scope.
Local Open Scope client_scope.

Definition get_count : M nat := fun w => (Returns (consecutive_429_count w), w).

Definition set_count (n : nat) : M unit :=
  fun w => (Returns tt,
            mkWorld n (creates w) (builds w) (fetches w) (draws w) (slept w)).

Definition sleep (why : pause) (secs : Q) : M unit :=
  fun w => (Returns tt,
            mkWorld (consecutive_429_count w) (creates w) (builds w) (fetches w)
                    (draws w) (slept w ++ [(why, secs)])).

Definition random_uniform (sv : service) : M Q :=
  fun w => (Returns (uniform sv (draws w)),
            mkWorld (consecutive_429_count w) (creates w) (builds w) (fetches w)
                    (S (draws w)) (slept w)).

Definition make_pytrends (sv : service) : M unit :=
  fun w => (make_pytrends_reply sv (creates w),
            mkWorld (consecutive_429_count w) (S (creates w)) (builds w) (fetches w)
                    (draws w) (slept w)).

Definition build_payload (sv : service) : M unit :=
  fun w => (build_payload_reply sv (builds w),
            mkWorld (consecutive_429_count w) (creates w) (S (builds w)) (fetches w)
                    (draws w) (slept w)).

Definition interest_over_time (sv : service) : M (option DataFrame) :=
  fun w => (interest_over_time_reply sv (fetches w),
            mkWorld (consecutive_429_count w) (creates w) (builds w) (S (fetches w))
                    (draws w) (slept w)).

Definition cfg : config := hardened.

Definition backoff_sleep (sv : service) (attempt : nat) : M unit :=
  j <- random_uniform sv ;;
  sleep InBackoff (Backoff.delay cfg attempt None j).

Definition wait_if_blocked (consecutive_429s : nat) : M unit :=
  if (3 <=? consecutive_429s)%nat then sleep InBlocked BLOCKED_WAIT_TIME
  else ret tt.

(** How one turn of a retry loop ends: [return a], or on to the next turn. *)
Inductive step (A : Type) : Type :=
| Done (a : A)
| Again.
Arguments Done {A} a.
Arguments Again {A}.

Definition is_last (i : nat) : bool := (i =? MAX_RETRIES cfg - 1)%nat.

(** The first lines of both [except TooManyRequestsError] clauses. *)
Definition count_429 : M unit :=
  c <- get_count ;;
  set_count (S c) ;;
  c <- get_count ;;
  if (3 <=? c)%nat then wait_if_blocked c ;; set_count 0 else ret tt.

(** Turn [i] of the loop of [safe_build_payload]. *)
Definition build_turn (sv : service) (i : nat) : M (step unit) :=
  try_except
    ((if (0 <? i)%nat then make_pytrends sv ;; sleep AfterRecreate 10 else ret tt) ;;
     build_payload sv ;;
     set_count 0 ;;
     sleep AfterCall (PAUSE_BETWEEN_CALLS cfg) ;;
     ret (Done tt))
    (fun e =>
       match e with
       | TooManyRequestsError =>
           count_429 ;;
           if is_last i then
             c <- get_count ;;
             if (c <? 3)%nat then
               wait_if_blocked c ;;
               try_except
                 (make_pytrends sv ;;
                  sleep AfterRecreate 10 ;;
                  build_payload sv ;;
                  set_count 0 ;;
                  sleep AfterCall (PAUSE_BETWEEN_CALLS cfg) ;;
                  ret (Done tt))
                 (fun e' => raise e')
             else raise e
           else backoff_sleep sv i ;; ret Again
       | RequestException =>
           set_count 0 ;;
           if is_last i then raise e
           else sleep ConnectionPenalty (BASE_SLEEP_SECONDS cfg * 2) ;;
                backoff_sleep sv i ;; ret Again
       | OtherException =>
           set_count 0 ;;
           if is_last i then raise e
           else backoff_sleep sv i ;; ret Again
       end).

(** [for i in range(MAX_RETRIES)], from turn [i] with [n] turns left. *)
Fixpoint build_loop (sv : service) (n i : nat) : M unit :=
  match n with
  | O => ret tt
  | S n' => r <- build_turn sv i ;;
            match r with
            | Done a => ret a
            | Again => build_loop sv n' (S i)
            end
  end.

Definition safe_build_payload (sv : service) : M unit :=
  build_loop sv (MAX_RETRIES cfg) 0.

(** Cleaning of a reply: the first column, when it holds dates under another
    name, is renamed to [date]; [isPartial] is dropped. *)
Definition is_day (c : cell) : bool := match c with Day _ => true | _ => false end.

Definition is_datetime (l : list cell) : bool :=
  forallb (fun c => is_day c || isna c) l && existsb is_day l.

Definition rename_first_to_date (df : DataFrame) : DataFrame :=
  match columns df with
  | c :: cs =>
      if String.string_dec c "date" then df
      else if is_datetime (column df c)
           then mkDF (map (fun x => if String.string_dec x c then "date" else x)
                          (columns df)) (rows df)
           else df
  | [] => df
  end.

Definition drop_isPartial (df : DataFrame) : DataFrame :=
  if has_col "isPartial" (columns df)
  then Frame.drop_columns (fun c => if String.string_dec c "isPartial" then true else false) df
  else df.

Definition tidy (df : DataFrame) : DataFrame := drop_isPartial (rename_first_to_date df).

(** Turn [i] of the loop of [safe_interest_over_time]. *)
Definition fetch_turn (sv : service) (i : nat) : M (step DataFrame) :=
  try_except
    (df <- interest_over_time sv ;;
     match df with
     | None => if is_last i then ret (Done empty_frame)
               else backoff_sleep sv i ;; ret Again
     | Some df =>
         set_count 0 ;;
         sleep AfterCall (PAUSE_BETWEEN_CALLS cfg) ;;
         ret (Done (tidy df))
     end)
    (fun e =>
       match e with
       | TooManyRequestsError =>
           count_429 ;;
           if is_last i then
             c <- get_count ;;
             if (c <? 3)%nat then
               wait_if_blocked c ;;
               try_except
                 (make_pytrends sv ;;
                  sleep AfterRecreate 10 ;;
                  df <- interest_over_time sv ;;
                  set_count 0 ;;
                  sleep AfterCall (PAUSE_BETWEEN_CALLS cfg) ;;
                  ret (Done (match df with Some df => tidy df | None => empty_frame end)))
                 (fun _ => ret (Done empty_frame))
             else ret (Done empty_frame)
           else backoff_sleep sv i ;; ret Again
       | RequestException =>
           set_count 0 ;;
           if is_last i then ret (Done empty_frame)
           else sleep ConnectionPenalty (BASE_SLEEP_SECONDS cfg * 2) ;;
                backoff_sleep sv i ;; ret Again
       | OtherException =>
           set_count 0 ;;
           if is_last i then ret (Done empty_frame)
           else backoff_sleep sv i ;; ret Again
       end).

Fixpoint fetch_loop (sv : service) (n i : nat) : M DataFrame :=
  match n with
  | O => ret empty_frame
  | S n' => r <- fetch_turn sv i ;;
            match r with
            | Done a => ret a
            | Again => fetch_loop sv n' (S i)
            end
  end.

Definition safe_interest_over_time (sv : service) : M DataFrame :=
  fetch_loop sv (MAX_RETRIES cfg) 0.

(** Number of [wait_if_blocked] sleeps issued so far. *)
Definition cooldowns (w : world) : nat :=
  length (List.filter (fun s => pause_eqb (fst s) InBlocked) (slept w)).

End Client.

(** ** Files, backups and the guarded save ([backup_existing_file],
       [safe_save_dataframe], step 4 of [main]) *)

Module Store.

(** A [pathlib.Path], by the parts the code reads off it. *)
Record path : Type := mkPath { parent : string; stem : string; suffix : string }.

#[global] Instance path_eq_dec : EqDecision path.
Proof. solve_decision. Defined.

#[global] Instance path_countable : Countable path.
Proof.
  refine (inj_countable' (fun p => (parent p, stem p, suffix p))
                         (fun t => mkPath t.1.1 t.1.2 t.2) _).
  intros []; reflexivity.
Defined.

Definition TRENDS_SERIES_DIR : string := "data/trends/series".
Definition BACKUP_DIR : string := "data/trends/series/backups".
Definition OUT_CSV_DAILY : path := mkPath TRENDS_SERIES_DIR "trends_candidatos_daily" ".csv".
Definition OUT_PARQUET_DAILY : path := mkPath TRENDS_SERIES_DIR "trends_candidatos_daily" ".parquet".
Definition PARTIAL_SAVE_FILE : path := mkPath TRENDS_SERIES_DIR "trends_candidatos_partial" ".csv".

(** What a file holds: a frame in one of the two formats, or whatever an
    interrupted write left behind. *)
Inductive file : Type :=
| Csv (df : DataFrame)
| Parquet (df : DataFrame)
| Torn (n : nat).

(** How a write or a copy ends: it succeeds, or it raises and leaves [residue]
    at its target. *)
Inductive io_result : Type :=
| Succeeds
| Fails (residue : option file).

(** What the operating system answers during one call of
    [safe_save_dataframe]. *)
Record io : Type := mkIO {
  disk_space_ok : bool;        (* result of check_disk_space *)
  now : path -> string;        (* strftime('%Y%m%d_%H%M%S') when the file is backed up *)
  copy2 : path -> io_result;   (* shutil.copy2 of the file *)
  to_csv : io_result;
  to_parquet : io_result;
}.

(** What a run does, in order. *)
Inductive action : Type :=
| Validate
| DiskCheck
| Copy (src dst : path)
| ToCsv (p : path)
| ToParquet (p : path)
| Log (l : log_line).

Definition put (p : path) (o : option file) (fs : gmap path file) : gmap path file :=
  match o with
  | Some f => <[p := f]> fs
  | None => delete p fs
  end.

(** [BACKUP_DIR / f"{file_path.stem}_{timestamp}{file_path.suffix}"] *)
Definition backup_path (file_path : path) (timestamp : string) : path :=
  mkPath BACKUP_DIR (String.append (stem file_path) (String.append "_" timestamp))
         (suffix file_path).

Definition backup_existing_file (o : io) (file_path : path) (fs : gmap path file)
  : bool * gmap path file * list action :=
  match fs !! file_path with
  | Some f =>
      let dst := backup_path file_path (now o file_path) in
      match copy2 o file_path with
      | Succeeds => (true, <[dst := f]> fs, [Copy file_path dst; Log (BackupCreated (stem dst))])
      | Fails residue => (false, put dst residue fs, [Copy file_path dst; Log BackupError])
      end
  | None => (false, fs, [])
  end.

Definition safe_save_dataframe (o : io) (df : DataFrame) (csv_path : path)
           (parquet_path : option path) (fs : gmap path file)
  : bool * gmap path file * list action :=
  let '(verdict, warnings) := Validator.validate_dataframe (Some df) in
  let t0 := Validate :: map Log warnings in
  if negb (fst verdict) then (false, fs, t0 ++ [Log ValidationFailed])
  else if negb (disk_space_ok o) then (false, fs, t0 ++ [DiskCheck; Log NoDiskSpace])
  else
    let '(_, fs1, t1) := backup_existing_file o csv_path fs in
    let '(_, fs2, t2) := match parquet_path with
                         | Some p => backup_existing_file o p fs1
                         | None => (false, fs1, [])
                         end in
    let t := t0 ++ [DiskCheck] ++ t1 ++ t2 in
    match to_csv o with
    | Fails residue => (false, put csv_path residue fs2, t ++ [ToCsv csv_path; Log CsvError])
    | Succeeds =>
        let fs3 := <[csv_path := Csv df]> fs2 in
        let t3 := t ++ [ToCsv csv_path; Log (CsvSaved (stem csv_path))] in
        match parquet_path with
        | None => (true, fs3, t3)
        | Some p =>
            match to_parquet o with
            | Succeeds => (true, <[p := Parquet df]> fs3,
                           t3 ++ [ToParquet p; Log (ParquetSaved (stem p))])
            | Fails residue => (true, put p residue fs3, t3 ++ [ToParquet p; Log ParquetError])
            end
        end
    end.

(** Step 4 of [main] with the handler it falls into: [true] when the run
    completes, [false] when it ends by re-raising.  [o] answers the save of
    the merged frame, [o1] and [o2] the two saves of the window to the
    partial file that follow a failure. *)
Definition save_step (o o1 o2 : io) (combo df90 : DataFrame) (fs : gmap path file)
  : bool * gmap path file * list action :=
  let '(ok, fs1, t1) := safe_save_dataframe o combo OUT_CSV_DAILY (Some OUT_PARQUET_DAILY) fs in
  if ok then (true, fs1, t1)
  else if df_empty df90 then (false, fs1, t1)
  else
    let '(_, fs2, t2) := safe_save_dataframe o1 df90 PARTIAL_SAVE_FILE None fs1 in
    let '(_, fs3, t3) := safe_save_dataframe o2 df90 PARTIAL_SAVE_FILE None fs2 in
    (false, fs3, t1 ++ t2 ++ t3).

Definition touches_disk (a : action) : bool :=
  match a with
  | Copy _ _ | ToCsv _ | ToParquet _ => true
  | _ => false
  end.

End Store.

(** ** Merge of the window into the history (steps 2 and 3 of [main]) *)

Module Merge.

Import Frame.

(** [list(CANDIDATES.keys())] of the two scripts. *)
Definition CANDIDATES_hardened : list (string * list string) :=
  [ ("Evelyn Matthei", ["Evelyn Matthei"; "Matthei"]);
    ("José Antonio Kast", ["José Antonio Kast"; "Kast"; "Jose Antonio Kast"]);
    ("Johannes Kaiser", ["Johannes Kaiser"; "Kaiser"]);
    ("Jeannette Jara", ["Jeannette Jara"; "Janet Jara"; "Ministra Jara"; "Jara"]) ].

Definition CANDIDATES_simple : list (string * list string) :=
  [ ("Evelyn Matthei", ["Evelyn Matthei"; "Matthei"]);
    ("José Antonio Kast", ["José Antonio Kast"; "Kast"; "Jose Antonio Kast"]);
    ("Johannes Kaiser", ["Johannes Kaiser"; "Kaiser"]);
    ("Franco Parisi", ["Franco Parisi"; "Parisi"]);
    ("Jeannette Jara", ["Jeannette Jara"; "Janet Jara"; "Ministra Jara"; "Jara"]);
    ("Harold Mayne-Nicholls", ["Harold Mayne Nicholls"; "Mayne-Nicholls"; "Mayne Nicholls"]);
    ("Marco Enríquez-Ominami", ["Marco Enríquez Ominami"; "MEO"; "Enríquez Ominami";
                                "Enriquez Ominami"]);
    ("Eduardo Artés", ["Eduardo Artés"; "Profe Artés"; "Artés"]) ].

(** [ensure_all_candidate_cols]: a candidate the frame lacks gets a column of
    [pd.NA]. *)
Definition ensure_all_candidate_cols (names : list string) (df : DataFrame) : DataFrame :=
  fold_left (fun df c => if has_col c (columns df) then df else assign_scalar c NA df)
            names df.

(** The date handling applied to the history after it is read:
    [to_datetime(errors='coerce')], [dropna(subset=['date'])], [.dt.date]. *)
Definition clean_history (hist : DataFrame) : DataFrame :=
  match col_index "date" (columns hist) with
  | None => hist
  | Some i =>
      mkDF (columns hist)
           (flat_map (fun r => match Validator.to_datetime_coerce (nth i r NaN) with
                               | Some d => [set_nth i (Day d) r]
                               | None => []
                               end)
                     (rows hist))
  end.

(** Lines 683-688 ([trends.py]), 240-245 ([0_scrap-trends.py]). *)
Definition combine (names : list string) (hist df90 : DataFrame) : DataFrame :=
  let hist := ensure_all_candidate_cols names hist in
  let df90 := ensure_all_candidate_cols names df90 in
  drop_duplicates_date_last (sort_values_date (concat hist df90)).

(** Step 2 of [main] in [trends.py]: [stored] is the history file as read,
    [None] when there is none.  A history that is empty or has no date column
    raises inside the [try], and the run goes on with the window alone. *)
Definition step2 (names : list string) (stored : option DataFrame) (df90 : DataFrame)
  : DataFrame :=
  match stored with
  | None => ensure_all_candidate_cols names df90
  | Some hist =>
      if df_empty hist || negb (has_col "date" (columns hist))
      then ensure_all_candidate_cols names df90
      else combine names (clean_history hist) df90
  end.

(** Step 3: [date], the candidates, then whatever else there is. *)
Definition step3 (names : list string) (combo : DataFrame) : DataFrame :=
  let cols := "date" :: names in
  let extra := List.filter (fun c => negb (has_col c cols)) (columns combo) in
  reindex (cols ++ extra) combo.

(** The frame [main] hands to the save. *)
Definition merge (names : list string) (hist df90 : DataFrame) : DataFrame :=
  step3 names (step2 names (Some hist) df90).

(** Rows of a frame with a given date, and the cell a frame shows for a date
    and a label: that of the last such row. *)
Definition rows_at (df : DataFrame) (d : cell) : list (list cell) :=
  rows_with (columns df) d (rows df).

Definition value_at (df : DataFrame) (d : cell) (c : string) : option cell :=
  match rev (rows_at df d) with
  | r :: _ => Some (get_cell (columns df) r c)
  | [] => None
  end.

Definition dates_ok (df : DataFrame) : Prop :=
  Forall (fun c => exists d, c = Day d) (column df "date").

End Merge.

(** ** Alias aggregation and assembly of the window ([fetch_last_90_days]) *)

Module Aggregator.

Import Frame Client.
Local Open Scope client_scope.

(** [[aliases[i:i + 5] for i in range(0, len(aliases), 5)]] *)
Fixpoint batches_from (fuel : nat) (aliases : list string) : list (list string) :=
  match fuel, aliases with
  | S fuel', _ :: _ => firstn 5 aliases :: batches_from fuel' (skipn 5 aliases)
  | _, _ => []
  end.

Definition alias_batches (aliases : list string) : list (list string) :=
  batches_from (length aliases) aliases.

(** The body of the loop over batches: what the batch adds to
    [alias_series]; any [Exception] is logged and the batch is skipped. *)
Definition fetch_batch (sv : service) : M (option DataFrame) :=
  try_except
    (safe_build_payload sv ;;
     df <- safe_interest_over_time sv ;;
     if df_empty df then ret None
     else if negb (Validator.is_valid df) then ret None
     else ret (Some (drop_columns is_ispartial df)))
    (fun _ => ret None).

Fixpoint fetch_batches (sv : service) (batches : list (list string)) : M (list DataFrame) :=
  match batches with
  | [] => ret []
  | _ :: batches' =>
      o <- fetch_batch sv ;;
      rest <- fetch_batches sv batches' ;;
      ret (match o with Some df => df :: rest | None => rest end)
  end.

Fixpoint all_some {A} (l : list (option A)) : option (list A) :=
  match l with
  | [] => Some []
  | None :: _ => None
  | Some x :: l' => option_map (cons x) (all_some l')
  end.

(** [df['date'] = pd.to_datetime(df['date']).dt.date]; [None] when it raises. *)
Definition dates_to_date (df : DataFrame) : option DataFrame :=
  match col_index "date" (columns df) with
  | None => None
  | Some i =>
      option_map (mkDF (columns df))
        (all_some (map (fun r => option_map (fun c => set_nth i c r) (to_date (nth i r NaN)))
                       (rows df)))
  end.

(** Columns the candidate's maximum runs over. *)
Definition alias_cols (merged : DataFrame) : list string :=
  List.filter (fun c => negb (if String.string_dec c "date" then true else false)
                        && negb (is_ispartial c) && numeric_col merged c)
              (columns merged).

(** Lines 550-590: the series of one candidate from the frames of its
    batches; [None] when the candidate is skipped (nothing fetched, no numeric
    column, or an exception). *)
Definition combine_aliases (cname : string) (alias_series : list DataFrame)
  : option DataFrame :=
  match alias_series with
  | [] => None
  | first :: more =>
      if negb (forallb (fun df => has_col "date" (columns df)) alias_series) then None
      else
        match dates_to_date (fold_left merge_outer more first) with
        | None => None
        | Some merged =>
            match alias_cols merged with
            | [] => None
            | numeric_cols =>
                Some (reindex ["date"; cname]
                        (assign_rowwise cname (row_max (columns merged) numeric_cols) merged))
            end
        end
  end.

(** Lines 599-625: the window from the candidates' series; [None] when the
    date conversion raises. *)
Definition assemble (names : list string) (frames : list DataFrame) : option DataFrame :=
  match frames with
  | [] => Some empty_frame
  | first :: more =>
      if negb (forallb (fun df => has_col "date" (columns df)) frames) then None
      else
        match dates_to_date (fold_left merge_outer more first) with
        | None => None
        | Some out =>
            let out := sort_values_date out in
            let out := fillna0 (select_numeric out) out in
            let cols := "date" :: names in
            let available_cols := List.filter (fun c => has_col c (columns out)) cols in
            let extra_cols := List.filter (fun c => negb (has_col c cols)) (columns out) in
            Some (reindex (available_cols ++ extra_cols) out)
        end
  end.

(** One candidate: its batches, then the combination; exceptions skip it. *)
Definition collect (sv : service) (cname : string) (aliases : list string)
  : M (option DataFrame) :=
  alias_series <- fetch_batches sv (alias_batches aliases) ;;
  ret (combine_aliases cname alias_series).

Fixpoint collect_all (sv : service) (first : bool) (cands : list (string * list string))
  : M (list DataFrame) :=
  match cands with
  | [] => ret []
  | (cname, aliases) :: cands' =>
      (if first then ret tt else sleep BetweenCandidates PAUSE_BETWEEN_CANDIDATES) ;;
      o <- collect sv cname aliases ;;
      rest <- collect_all sv false cands' ;;
      ret (match o with Some df => df :: rest | None => rest end)
  end.

Definition fetch_last_90_days (sv : service) (cands : list (string * list string))
  : M DataFrame :=
  frames <- collect_all sv true cands ;;
  match assemble (map fst cands) frames with
  | Some out => ret out
  | None => raise OtherException
  end.

End Aggregator.

(** ** The stated contracts, as functions to compare the code with *)

Module Contract.

Import Validator.

(** A validator that runs checks in order and stops at the first failure. *)
Definition check : Type := DataFrame -> option message.

Fixpoint first_failure (checks : list check) (df : DataFrame) : option message :=
  match checks with
  | [] => None
  | c :: checks' => match c df with
                    | Some m => Some m
                    | None => first_failure checks' df
                    end
  end.

Definition verdict (o : option message) : bool * message :=
  match o with
  | Some m => (false, m)
  | None => (true, OK)
  end.

Definition non_empty : check := fun df => if df_empty df then Some IsEmpty else None.

Definition date_present : check :=
  fun df => if has_col "date" (columns df) then None else Some NoDateColumn.

Definition dates_parse : check :=
  fun df => let n := count_nat (map to_datetime_coerce (column df "date")) in
            match n with O => None | S _ => Some (InvalidDates n) end.

(** Some numeric column other than [date] holds a negative number. *)
Definition has_negative (df : DataFrame) : bool :=
  existsb (fun c => negb (if String.string_dec c "date" then true else false)
                    && lt0 (series_min (column df c)))
          (select_numeric df).

(** The three checks the code runs. *)
Definition checks_run : list check := [non_empty; date_present; dates_parse].

(** The four checks of the stated contract: the frame is accepted only when
    all four pass. *)
Definition accepts_when_non_negative (df : DataFrame) : bool :=
  match first_failure checks_run df with
  | Some _ => false
  | None => negb (has_negative df)
  end.

(** The consecutive-throttle counter and the number of cooldowns after [k]
    more throttled outcomes, when each of them counts: the counter goes up by
    one, and on reaching three one cooldown is taken and it returns to zero. *)
Fixpoint after_throttles (k : nat) (st : nat * nat) : nat * nat :=
  match k with
  | O => st
  | S k' => let '(count, cooldowns) := st in
            if (3 <=? S count)%nat then after_throttles k' (O, S cooldowns)
            else after_throttles k' (S count, cooldowns)
  end.

End Contract.

(** ** The merge under any order of tied rows *)

Module Ties.

Import Frame Merge.

(** What [sort_values("date")] does to the rows, given how to read a row's
    date: the call leaves [kind] at its default, so which sorted arrangement
    comes back is the library's choice. *)
Definition sort_fn : Type := (list cell -> cell) -> list (list cell) -> list (list cell).


(** An arrangement that reverses them: a row goes behind the rows that sort
    equal to it. *)
Fixpoint insert_after {A} (key : A -> cell) (x : A) (l : list A) : list A :=
  match l with
  | [] => [x]
  | y :: l' => if date_leb (key y) (key x) then y :: insert_after key x l'
               else x :: l
  end.

Fixpoint sort_ties_reversed {A} (key : A -> cell) (l : list A) : list A :=
  match l with
  | [] => []
  | x :: l' => insert_after key x (sort_ties_reversed key l')
  end.

Definition reversing : sort_fn := fun key l => sort_ties_reversed key l.

Definition sort_values_date (srt : sort_fn) (df : DataFrame) : DataFrame :=
  mkDF (columns df) (srt (date_of (columns df)) (rows df)).

(** Lines 683-688 ([trends.py]), 240-245 ([0_scrap-trends.py]). *)
Definition combine (srt : sort_fn) (names : list string) (hist df90 : DataFrame)
  : DataFrame :=
  let hist := ensure_all_candidate_cols names hist in
  let df90 := ensure_all_candidate_cols names df90 in
  drop_duplicates_date_last (sort_values_date srt (concat hist df90)).

Definition step2 (srt : sort_fn) (names : list string) (stored : option DataFrame)
           (df90 : DataFrame) : DataFrame :=
  match stored with
  | None => ensure_all_candidate_cols names df90
  | Some hist =>
      if df_empty hist || negb (has_col "date" (columns hist))
      then ensure_all_candidate_cols names df90
      else combine srt names (clean_history hist) df90
  end.

Definition merge (srt : sort_fn) (names : list string) (hist df90 : DataFrame)
  : DataFrame :=
  step3 names (step2 srt names (Some hist) df90).

End Ties.

(** ** Steps 2 to 4 of [main] as one run *)

Module Run.

Import Frame Store Merge.

(** Lines 656-719 of [trends.py] for a window [df90] that is not empty, with
    the handler a failed save ends in.  [stored] is the history file as read
    ([None] when there is none).  [ensure_all_candidate_cols] adds its
    columns to the frame it is given, so by step 4 the window itself carries
    them: that is the frame written to the partial file. *)
Definition merge_and_save (names : list string) (stored : option DataFrame)
           (o o1 o2 : io) (df90 : DataFrame) (fs : gmap path file)
  : bool * gmap path file * list action :=
  let combo := step3 names (step2 names stored df90) in
  save_step o o1 o2 combo (ensure_all_candidate_cols names df90) fs.

(** Lines 647-719: [main] from the test of the window on.  An empty window
    ends the run at once (the [return] of line 651), before the history is
    looked at and before any save. *)
Definition after_fetch (names : list string) (stored : option DataFrame)
           (o o1 o2 : io) (df90 : DataFrame) (fs : gmap path file)
  : bool * gmap path file * list action :=
  if df_empty df90 then (true, fs, [])
  else merge_and_save names stored o o1 o2 df90 fs.

End Run.

(** ** The wrappers and the merge of [0_scrap-trends.py] *)

Module Simple.

Import Frame Client Store Merge.
Local Open Scope client_scope.

Definition cfg : config := simple.

Definition backoff_sleep (sv : service) (attempt : nat) : M unit :=
  j <- random_uniform sv ;;
  sleep InBackoff (Backoff.delay cfg attempt None j).

Definition is_last (i : nat) : bool := (i =? MAX_RETRIES cfg - 1)%nat.

(** The two [except] clauses of both wrappers: re-raise on the last turn,
    otherwise back off and go on. *)
Definition handler {A} (sv : service) (i : nat) (e : exn) : M (step A) :=
  match e with
  | TooManyRequestsError =>
      if is_last i then raise e else backoff_sleep sv i ;; ret Again
  | RequestException | OtherException =>
      if is_last i then raise e else backoff_sleep sv i ;; ret Again
  end.

Definition build_turn (sv : service) (i : nat) : M (step unit) :=
  try_except
    (build_payload sv ;;
     sleep AfterCall (PAUSE_BETWEEN_CALLS cfg) ;;
     ret (Done tt))
    (handler sv i).

Fixpoint build_loop (sv : service) (n i : nat) : M unit :=
  match n with
  | O => ret tt
  | S n' => r <- build_turn sv i ;;
            match r with
            | Done a => ret a
            | Again => build_loop sv n' (S i)
            end
  end.

Definition safe_build_payload (sv : service) : M unit :=
  build_loop sv (MAX_RETRIES cfg) 0.

Definition fetch_turn (sv : service) (i : nat) : M (step (option DataFrame)) :=
  try_except
    (df <- interest_over_time sv ;;
     sleep AfterCall (PAUSE_BETWEEN_CALLS cfg) ;;
     ret (Done df))
    (handler sv i).

(** Falling out of the loop returns [None]. *)
Fixpoint fetch_loop (sv : service) (n i : nat) : M (option DataFrame) :=
  match n with
  | O => ret None
  | S n' => r <- fetch_turn sv i ;;
            match r with
            | Done a => ret a
            | Again => fetch_loop sv n' (S i)
            end
  end.

Definition safe_interest_over_time (sv : service) : M (option DataFrame) :=
  fetch_loop sv (MAX_RETRIES cfg) 0.

(** [hist["date"] = hist["date"].dt.date]: the accessor raises unless the
    column holds dates; [None] stands for that. *)
Definition dt_date (hist : DataFrame) : option DataFrame :=
  if has_col "date" (columns hist) && is_datetime (column hist "date")
  then Some hist else None.

(** Steps 2 and 3 of [main] (lines 235-253); [stored] is the history file as
    read, [None] when there is none.  Nothing here is caught: [None] as the
    result stands for the exception that ends the run. *)
Definition merge (names : list string) (stored : option DataFrame) (df90 : DataFrame)
  : option DataFrame :=
  match stored with
  | Some hist =>
      match dt_date hist with
      | Some hist => Some (step3 names (combine names hist df90))
      | None => None
      end
  | None => Some (step3 names (ensure_all_candidate_cols names df90))
  end.

(** Step 4 (lines 256-257): the two writes, neither validated nor preceded
    by a backup; a write that raises ends the run. *)
Definition save (o : io) (combo : DataFrame) (fs : gmap path file)
  : bool * gmap path file * list action :=
  match to_csv o with
  | Fails residue => (false, put OUT_CSV_DAILY residue fs, [ToCsv OUT_CSV_DAILY])
  | Succeeds =>
      let fs1 := <[OUT_CSV_DAILY := Csv combo]> fs in
      match to_parquet o with
      | Succeeds => (true, <[OUT_PARQUET_DAILY := Parquet combo]> fs1,
                     [ToCsv OUT_CSV_DAILY; ToParquet OUT_PARQUET_DAILY])
      | Fails residue => (false, put OUT_PARQUET_DAILY residue fs1,
                          [ToCsv OUT_CSV_DAILY; ToParquet OUT_PARQUET_DAILY])
      end
  end.

(** Steps 2 to 4 for a window that is not empty. *)
Definition merge_and_save (names : list string) (stored : option DataFrame) (o : io)
           (df90 : DataFrame) (fs : gmap path file)
  : bool * gmap path file * list action :=
  match merge names stored df90 with
  | Some combo => save o combo fs
  | None => (false, fs, [])
  end.

(** [pd.concat(frames, axis=1)] of frames indexed by date, the index held in
    the column [date]: one row for every date of any frame, dates ascending,
    the columns of the frames side by side, holes where a frame lacks the
    date.  For frames that repeat no date and share no label -- what the
    statements about it assume -- this is what outer merges on the date give;
    [None] when there is no frame. *)
Definition concat_axis1 (frames : list DataFrame) : option DataFrame :=
  match frames with
  | [] => None
  | first :: more => Some (fold_left merge_outer more first)
  end.

(** [df.fillna(0)]: every hole outside the index. *)
Definition fillna0_all (df : DataFrame) : DataFrame :=
  fillna0 (others (columns df)) df.

(** Lines 198-209: the series of one candidate from the frames of its
    batches; [None] when there is none and the candidate is skipped. *)
Definition combine_aliases (cname : string) (alias_series : list DataFrame)
  : option DataFrame :=
  match concat_axis1 alias_series with
  | None => None
  | Some joined =>
      let merged := fillna0_all joined in
      Some (reindex ["date"; cname]
              (assign_rowwise cname
                 (row_max (columns merged) (others (columns merged))) merged))
  end.

(** Lines 211-224: the window from the candidates' series; [None] when the
    date conversion raises. *)
Definition assemble (names : list string) (frames : list DataFrame) : option DataFrame :=
  match concat_axis1 frames with
  | None => Some empty_frame
  | Some joined =>
      match Aggregator.dates_to_date (fillna0_all joined) with
      | None => None
      | Some out => Some (reindex ("date" :: names) out)
      end
  end.

End Simple.

(** ** Notions used in the statements *)

Import Validator Frame Client Store Merge Aggregator Contract.

(** The two writes of a save. *)
Definition is_write (a : action) : bool :=
  match a with ToCsv _ | ToParquet _ => true | _ => false end.

(** The last element of a list, as a list of at most one element. *)
Definition final {A} (l : list A) : list A :=
  match rev l with
  | x :: _ => [x]
  | [] => []
  end.

(** Every row has one cell per label. *)
Definition rows_ok (df : DataFrame) : Prop :=
  Forall (fun r => length r = length (columns df)) (rows df).

(** The frames of a candidate joined on the date, dates converted. *)
Definition joined (series : list DataFrame) : option DataFrame :=
  match series with
  | [] => None
  | first :: more => dates_to_date (fold_left merge_outer more first)
  end.

(** The series of one candidate, as [combine_aliases] shapes it: the date and
    the candidate's column, a day in the first and a number or a hole in the
    second. *)
Definition is_series (c : string) (f : DataFrame) : Prop :=
  columns f = ["date"; c]
  /\ Forall (fun r => exists z v, r = [Day z; v] /\ is_number v = true) (rows f).

(** What the joined frame must show under the labels joined so far. *)
Definition joined_ok (acc : DataFrame) (done : list (string * DataFrame)) : Prop :=
  columns acc = "date" :: map fst done
  /\ rows_ok acc
  /\ forall r, In r (rows acc) ->
       (exists z, date_of (columns acc) r = Day z)
       /\ forall c f, In (c, f) done ->
            is_number (get_cell (columns acc) r c) = true
            /\ (~ In (date_of (columns acc) r) (column f "date") ->
                get_cell (columns acc) r c = NaN).

(** No two frames share a label other than [date], and no frame repeats one. *)
Definition labels_apart (series : list DataFrame) : Prop :=
  List.NoDup (flat_map (fun f => others (columns f)) series).

(** Column [c] of frame [f] reports the number [v] for the date [d]. *)
Definition reports (f : DataFrame) (d : cell) (c : string) (v : Z) : Prop :=
  exists r, In r (rows f) /\ date_of (columns f) r = d
            /\ In c (others (columns f)) /\ get_cell (columns f) r c = Num v.

(** What the join of the frames [done] holds: their labels, a row for every
    row of every frame with that row's cells, and in every row, under the
    labels of a frame, the cells of one of its rows of the same date or holes
    when it has no such row. *)
Definition joined_inv (acc : DataFrame) (done : list DataFrame) : Prop :=
  List.NoDup (columns acc) /\ In "date" (columns acc) /\ rows_ok acc
  /\ (forall c, In c (others (columns acc))
                <-> exists f, In f done /\ In c (others (columns f)))
  /\ (forall f r, In f done -> In r (rows f) ->
        exists r', In r' (rows acc)
                   /\ date_of (columns acc) r' = date_of (columns f) r
                   /\ forall c, In c (others (columns f)) ->
                        get_cell (columns acc) r' c = get_cell (columns f) r c)
  /\ (forall r' f, In r' (rows acc) -> In f done ->
        (exists r, In r (rows f)
                   /\ date_of (columns f) r = date_of (columns acc) r'
                   /\ forall c, In c (others (columns f)) ->
                        get_cell (columns acc) r' c = get_cell (columns f) r c)
        \/ (~ In (date_of (columns acc) r') (column f "date")
            /\ forall c, In c (others (columns f)) -> get_cell (columns acc) r' c = NaN)).

(** The rows of one date. *)
Definition pick {A} (key : A -> cell) (k : cell) (l : list A) : list A :=
  List.filter (fun x => cell_eqb (key x) k) l.

(** The order the sort establishes. *)
Definition le_key {A} (key : A -> cell) (x y : A) : Prop :=
  date_leb (key x) (key y) = true.


(** What every [sort_values] result is: the same rows, in ascending order. *)
Definition legal_sort (srt : Ties.sort_fn) : Prop :=
  forall key l, Permutation l (srt key l) /\ StronglySorted (le_key key) (srt key l).


(** ** Sample frames, services and disks *)

Definition frame_with_negative : DataFrame :=
  mkDF ["date"; "Matthei"] [[Day 20089; Num (-3)]].

Definition io_fine : io :=
  mkIO true (fun _ => "20251104_163000") (fun _ => Succeeds) Succeeds Succeeds.

Definition frame_without_date : DataFrame := mkDF ["Matthei"] [[Num 7]].

Definition window_two_days : DataFrame :=
  mkDF ["date"; "Matthei"] [[Day 20089; Num 40]; [Day 20090; Num 50]].

Definition disk_with_history : gmap path file :=
  {[ OUT_CSV_DAILY := Csv (mkDF ["date"; "Matthei"] [[Day 20088; Num 3]; [Day 20089; Num 4]]) ]}.

Definition io_backup_fails : io :=
  mkIO true (fun _ => "20251104_163000") (fun _ => Fails None) Succeeds Succeeds.

Definition world_at_start : world := mkWorld 0 0 0 0 0 [].

Definition window_reply : DataFrame :=
  mkDF ["date"; "Matthei"; "isPartial"] [[Day 20089; Num 40; Text "False"]].

Definition service_three_throttles : service :=
  mkService (fun _ => Returns tt)
            (fun k => if (k <? 3)%nat then Raises TooManyRequestsError else Returns tt)
            (fun _ => Returns (Some window_reply))
            (fun _ => 5%Q).

Definition service_throttled : service :=
  mkService (fun _ => Returns tt) (fun _ => Raises TooManyRequestsError)
            (fun _ => Raises TooManyRequestsError) (fun _ => 5%Q).

Definition service_down : service :=
  mkService (fun _ => Raises RequestException) (fun _ => Raises RequestException)
            (fun _ => Raises RequestException) (fun _ => 5%Q).

(** The end-to-end scenario: a history of five days for ["A"], a window of
    five days that overlaps its last two. *)
Definition history_A : DataFrame :=
  mkDF ["date"; "A"]
       [[Day 20089; Num 1]; [Day 20090; Num 2]; [Day 20091; Num 3];
        [Day 20092; Num 4]; [Day 20093; Num 5]].

Definition window_A : DataFrame :=
  mkDF ["date"; "A"]
       [[Day 20092; Num 40]; [Day 20093; Num 50]; [Day 20094; Num 60];
        [Day 20095; Num 70]; [Day 20096; Num 80]].

Definition batch_matthei : DataFrame :=
  mkDF ["date"; "Evelyn Matthei"; "Matthei"]
       [[Day 20089; Num 10; Num 30]; [Day 20090; Num 25; Num 5]].

Definition series_A : DataFrame := mkDF ["date"; "A"] [[Day 20089; Num 10]; [Day 20090; Num 25]].
Definition series_B : DataFrame := mkDF ["date"; "B"] [[Day 20090; Num 7]; [Day 20091; Num 9]].

(** A history with a row whose date cannot be read. *)
Definition history_with_bad_date : DataFrame :=
  mkDF ["date"; "A"] [[Day 20089; Num 1]; [Text "n/a"; Num 2]; [Day 20091; Num 3]].

Definition io_disk_full : io :=
  mkIO false (fun _ => "20251104_163000") (fun _ => Succeeds) Succeeds Succeeds.

Definition io_csv_fails : io :=
  mkIO true (fun _ => "20251104_163000") (fun _ => Succeeds) (Fails (Some (Torn 17))) Succeeds.

(** Number of pauses between candidates issued so far. *)
Definition candidate_pauses (w : world) : nat :=
  length (List.filter (fun s => pause_eqb (fst s) BetweenCandidates) (slept w)).

(** Batches of all the candidates. *)
Definition total_batches (cands : list (string * list string)) : nat :=
  list_sum (map (fun c => length (alias_batches (snd c))) cands).

(** A date that [validate_dataframe] accepts. *)
Definition readable (c : cell) : Prop := to_datetime_coerce c <> None.



(** * Properties *)

(** ** Validator *)

Lemma range_warnings_only_warn (df : DataFrame) (line : log_line) :
  In line (range_warnings df) ->
  exists col lo hi, line = OutOfRange col lo hi /\ (lt0 lo || gt1000 hi) = true
                    /\ In col (select_numeric df) /\ col <> "date".
Proof.
  unfold range_warnings. rewrite in_flat_map. intros (col & Hcol & Hin).
  destruct (String.string_dec col "date") as [|Hne]; [contradiction|].
  destruct (lt0 (series_min (column df col)) || gt1000 (series_max (column df col))) eqn:E.
  - destruct Hin as [<-|[]]. eauto 8.
  - contradiction.
Qed.

(** C3 (as amended): [validate_dataframe] turns down [None]; on a frame it
    runs three checks in order -- non-empty, date column present, every date
    parses -- and returns the reason of the first that fails; it accepts every
    frame that passes them, whatever its numbers, and each line it logs is a
    warning about a numeric column below 0 or above 1000. *)
Theorem validate_first_failure (df : DataFrame) :
  fst (validate_dataframe None) = (false, IsNone)
  /\ fst (validate_dataframe (Some df)) = verdict (first_failure checks_run df)
  /\ (forall line, In line (snd (validate_dataframe (Some df))) ->
        exists col lo hi, line = OutOfRange col lo hi /\ (lt0 lo || gt1000 hi) = true).
Proof.
  split; [reflexivity|]. split.
  - unfold validate_dataframe, checks_run, first_failure, non_empty, date_present, dates_parse.
    destruct (df_empty df); [reflexivity|].
    destruct (has_col "date" (columns df)); [|reflexivity]. simpl.
    destruct (count_nat _); reflexivity.
  - intros line. unfold validate_dataframe.
    destruct (df_empty df); [intros []|].
    destruct (negb _); [intros []|]. simpl.
    destruct (0 <? _)%nat; [intros []|]. simpl.
    intros H. apply range_warnings_only_warn in H.
    destruct H as (col & lo & hi & -> & H & _). eauto.
Qed.

(** C3 (as stated) fails: a frame whose numeric column holds -3 passes the
    first three checks and is accepted, where the stated contract rejects it. *)
Lemma validate_accepts_negative :
  has_negative frame_with_negative = true
  /\ accepts_when_non_negative frame_with_negative = false
  /\ validate_dataframe (Some frame_with_negative)
     = ((true, OK), [OutOfRange "Matthei" (Some (-3)) (Some (-3))]).
Proof. repeat split; vm_compute; reflexivity. Qed.

(** ** Backoff *)

Section BackoffPolicy.

Variable cfg : config.
Hypothesis base_pos : (0 < BASE_SLEEP_SECONDS cfg)%Q.
Hypothesis cap_pos : (0 < MAX_BACKOFF_CAP cfg)%Q.

Lemma pow2_pos (n : nat) : (0 < Backoff.pow2 n)%Q.
Proof.
  unfold Backoff.pow2. change 0%Q with (inject_Z 0). rewrite <- Zlt_Qlt.
  apply Z.pow_pos_nonneg; lia.
Qed.

Lemma pow2_mono (n1 n2 : nat) : (n1 <= n2)%nat -> (Backoff.pow2 n1 <= Backoff.pow2 n2)%Q.
Proof.
  intros H. unfold Backoff.pow2. rewrite <- Zle_Qle.
  apply Z.pow_le_mono_r; lia.
Qed.

Lemma delay_mono (n1 n2 : nat) (j : Q) :
  (n1 <= n2)%nat ->
  (Backoff.delay cfg n1 None j <= Backoff.delay cfg n2 None j)%Q.
Proof.
  intros H. unfold Backoff.delay. apply Q.min_le_compat_r.
  apply Qplus_le_l. apply Qmult_le_l; [exact base_pos|]. now apply pow2_mono.
Qed.

Lemma delay_capped (n : nat) (j : Q) :
  (Backoff.delay cfg n None j <= MAX_BACKOFF_CAP cfg)%Q.
Proof. unfold Backoff.delay. apply Q.le_min_r. Qed.

Lemma delay_pos (n : nat) (j : Q) :
  (0 <= j)%Q -> (0 < Backoff.delay cfg n None j)%Q.
Proof.
  intros Hj. unfold Backoff.delay. apply Q.min_glb_lt; [|exact cap_pos].
  apply Qlt_le_trans with (BASE_SLEEP_SECONDS cfg * Backoff.pow2 n)%Q.
  - apply Qmult_lt_0_compat; [exact base_pos | apply pow2_pos].
  - rewrite <- (Qplus_0_r (BASE_SLEEP_SECONDS cfg * Backoff.pow2 n)) at 1.
    now apply Qplus_le_r.
Qed.

Lemma penalty_nonneg (f : Backoff.failure) : (0 <= Backoff.penalty cfg f)%Q.
Proof.
  destruct f; simpl; try apply Qle_refl.
  apply Qmult_le_0_compat; [now apply Qlt_le_weak | discriminate].
Qed.

End BackoffPolicy.

(** C5: with a positive base and ceiling, for attempts [n1 < n2] of one
    failure class the jitter-free wait does not decrease, the delay never
    exceeds the configured ceiling, and the delay and the whole wait are
    positive (so for every attempt from 1 on), whatever jitter in
    [0, JITTER] is drawn. *)
Theorem backoff_policy (cfg : config) (f : Backoff.failure) (n1 n2 : nat) (j : Q) :
  (0 < BASE_SLEEP_SECONDS cfg)%Q -> (0 < MAX_BACKOFF_CAP cfg)%Q ->
  (0 <= j)%Q -> (j <= JITTER cfg)%Q ->
  (n1 < n2)%nat ->
  (Backoff.retry_wait cfg f n1 0 <= Backoff.retry_wait cfg f n2 0)%Q
  /\ (Backoff.delay cfg n1 None 0 <= Backoff.delay cfg n2 None 0)%Q
  /\ (Backoff.delay cfg n2 None j <= MAX_BACKOFF_CAP cfg)%Q
  /\ (0 < Backoff.delay cfg n2 None j)%Q
  /\ (0 < Backoff.retry_wait cfg f n2 j)%Q.
Proof.
  intros Hb Hc Hj _ Hn.
  assert (Hm : (Backoff.delay cfg n1 None 0 <= Backoff.delay cfg n2 None 0)%Q)
    by (apply delay_mono; [assumption | lia]).
  assert (Hp : (0 < Backoff.delay cfg n2 None j)%Q) by now apply delay_pos.
  repeat split.
  - unfold Backoff.retry_wait. now apply Qplus_le_r.
  - exact Hm.
  - apply delay_capped.
  - exact Hp.
  - unfold Backoff.retry_wait.
    apply Qlt_le_trans with (0 + Backoff.delay cfg n2 None j)%Q.
    + now rewrite Qplus_0_l.
    + apply Qplus_le_l. now apply penalty_nonneg.
Qed.

Lemma backoff_policy_witness :
  (Backoff.retry_wait hardened Backoff.Network 1 0 <= Backoff.retry_wait hardened Backoff.Network 2 0)%Q
  /\ (Backoff.delay hardened 1 None 0 <= Backoff.delay hardened 2 None 0)%Q
  /\ (Backoff.delay hardened 2 None 5 <= MAX_BACKOFF_CAP hardened)%Q
  /\ (0 < Backoff.delay hardened 2 None 5)%Q
  /\ (0 < Backoff.retry_wait hardened Backoff.Network 2 5)%Q.
Proof.
  apply (backoff_policy hardened Backoff.Network 1 2 5);
    [reflexivity | reflexivity | unfold Qle; simpl; lia | unfold Qle; simpl; lia | lia].
Defined.

(** The same policy holds for the constants of the simple collector. *)
Lemma backoff_policy_simple (n1 n2 : nat) (j : Q) :
  (0 <= j)%Q -> (j <= JITTER simple)%Q -> (n1 < n2)%nat ->
  (Backoff.delay simple n1 None 0 <= Backoff.delay simple n2 None 0)%Q
  /\ (Backoff.delay simple n2 None j <= 90)%Q
  /\ (0 < Backoff.delay simple n2 None j)%Q.
Proof.
  intros Hj Hj' Hn. repeat split.
  - apply delay_mono; [reflexivity | lia].
  - apply (delay_capped simple).
  - apply delay_pos; [reflexivity | reflexivity | assumption].
Qed.

(** ** Guarded save *)

Lemma lookup_put_ne (p q : path) (o : option file) (fs : gmap path file) :
  q <> p -> put q o fs !! p = fs !! p.
Proof.
  intros H. destruct o; simpl; [apply lookup_insert_ne | apply lookup_delete_ne]; exact H.
Qed.

Lemma backup_path_parent (p : path) (ts : string) : parent (backup_path p ts) = BACKUP_DIR.
Proof. reflexivity. Qed.

Lemma backup_path_suffix (p : path) (ts : string) : suffix (backup_path p ts) = suffix p.
Proof. reflexivity. Qed.

(** A backup touches nothing but its own target. *)
Lemma backup_elsewhere (o : io) (file_path p : path) (fs : gmap path file) :
  p <> backup_path file_path (now o file_path) ->
  (backup_existing_file o file_path fs).1.2 !! p = fs !! p.
Proof.
  intros Hp. unfold backup_existing_file.
  destruct (fs !! file_path); [|reflexivity].
  destruct (copy2 o file_path); simpl.
  - now apply lookup_insert_ne.
  - now apply lookup_put_ne.
Qed.

(** A successful copy leaves the old content at the backup path. *)
Lemma backup_holds (o : io) (file_path : path) (fs : gmap path file) (f : file) :
  fs !! file_path = Some f -> copy2 o file_path = Succeeds ->
  backup_existing_file o file_path fs
  = (true, <[backup_path file_path (now o file_path) := f]> fs,
     [Copy file_path (backup_path file_path (now o file_path));
      Log (BackupCreated (stem (backup_path file_path (now o file_path))))]).
Proof. intros H1 H2. unfold backup_existing_file. now rewrite H1, H2. Qed.

Lemma backup_no_write (o : io) (file_path : path) (fs : gmap path file) :
  forallb (fun a => negb (is_write a)) (backup_existing_file o file_path fs).2 = true.
Proof.
  unfold backup_existing_file. destruct (fs !! file_path); [|reflexivity].
  destruct (copy2 o file_path); reflexivity.
Qed.

Lemma forallb_log (P : action -> bool) (l : list log_line) :
  (forall x, P (Log x) = true) -> forallb P (map Log l) = true.
Proof. intros H. induction l; simpl; [reflexivity|]. now rewrite H, IHl. Qed.

(** A frame that fails validation is not saved: nothing is copied or
    written, and the files are as they were. *)
Lemma invalid_not_saved (o : io) (df : DataFrame) (csv_path : path)
      (parquet_path : option path) (fs : gmap path file) :
  is_valid df = false ->
  exists t, safe_save_dataframe o df csv_path parquet_path fs = (false, fs, t)
            /\ forallb (fun a => negb (touches_disk a)) t = true.
Proof.
  unfold is_valid, safe_save_dataframe. intros H.
  destruct (validate_dataframe (Some df)) as [verdict warnings]. simpl in H.
  rewrite H. simpl. eexists. split; [reflexivity|].
  simpl. rewrite forallb_app. rewrite forallb_log by reflexivity. reflexivity.
Qed.

(** The save starts by validating. *)
Lemma save_validates_first (o : io) (df : DataFrame) (csv_path : path)
      (parquet_path : option path) (fs : gmap path file) :
  exists rest, (safe_save_dataframe o df csv_path parquet_path fs).2 = Validate :: rest.
Proof.
  unfold safe_save_dataframe.
  destruct (validate_dataframe (Some df)) as [verdict warnings].
  destruct (negb (fst verdict)); [eexists; reflexivity|].
  destruct (negb (disk_space_ok o)); [eexists; reflexivity|].
  destruct (backup_existing_file o csv_path fs) as [[b1 fs1] t1].
  destruct (match parquet_path with
            | Some p => backup_existing_file o p fs1
            | None => (false, fs1, [])
            end) as [[b2 fs2] t2].
  destruct (to_csv o); [|eexists; reflexivity].
  destruct parquet_path; [|eexists; reflexivity].
  destruct (to_parquet o); eexists; reflexivity.
Qed.

(** A save changes only its targets and files of the backup directory. *)
Lemma save_elsewhere (o : io) (df : DataFrame) (csv_path : path)
      (parquet_path : option path) (fs : gmap path file) (p : path) :
  p <> csv_path -> parquet_path <> Some p -> parent p <> BACKUP_DIR ->
  (safe_save_dataframe o df csv_path parquet_path fs).1.2 !! p = fs !! p.
Proof.
  intros Hc Hq Hb. unfold safe_save_dataframe.
  destruct (validate_dataframe (Some df)) as [verdict warnings].
  destruct (negb (fst verdict)); [reflexivity|].
  destruct (negb (disk_space_ok o)); [reflexivity|].
  pose proof (backup_elsewhere o csv_path p fs) as H1.
  destruct (backup_existing_file o csv_path fs) as [[b1 fs1] t1]. simpl in H1.
  assert (E2 : (match parquet_path with
                | Some q => backup_existing_file o q fs1
                | None => (false, fs1, [])
                end).1.2 !! p = fs1 !! p).
  { destruct parquet_path as [q|]; [|reflexivity].
    apply backup_elsewhere. intros ->. now apply Hb. }
  destruct (match parquet_path with
            | Some q => backup_existing_file o q fs1
            | None => (false, fs1, [])
            end) as [[b2 fs2] t2]. simpl in E2.
  assert (E : fs2 !! p = fs !! p).
  { rewrite E2. apply H1. intros ->. now apply Hb. }
  destruct (to_csv o); simpl.
  - destruct parquet_path as [q|]; simpl.
    + assert (q <> p) by congruence.
      destruct (to_parquet o); simpl.
      * rewrite lookup_insert_ne by assumption. now rewrite lookup_insert_ne by auto.
      * rewrite lookup_put_ne by assumption. now rewrite lookup_insert_ne by auto.
    + now rewrite lookup_insert_ne by auto.
  - now rewrite lookup_put_ne by auto.
Qed.

(** C8: a merged frame that fails validation is not persisted: the save
    returns [false] without copying or writing anything and leaves every file
    as it was; after step 4 of [main], partial saves included, both history
    files are unchanged; and every save begins with the validation, ahead of
    any backup or write. *)
Theorem validation_atomicity (o o1 o2 : io) (combo df90 : DataFrame)
        (fs : gmap path file) :
  is_valid combo = false ->
  (exists t, safe_save_dataframe o combo OUT_CSV_DAILY (Some OUT_PARQUET_DAILY) fs
             = (false, fs, t)
             /\ forallb (fun a => negb (touches_disk a)) t = true)
  /\ (save_step o o1 o2 combo df90 fs).1.1 = false
  /\ (save_step o o1 o2 combo df90 fs).1.2 !! OUT_CSV_DAILY = fs !! OUT_CSV_DAILY
  /\ (save_step o o1 o2 combo df90 fs).1.2 !! OUT_PARQUET_DAILY = fs !! OUT_PARQUET_DAILY
  /\ (forall df csv_path parquet_path,
        exists rest, (safe_save_dataframe o df csv_path parquet_path fs).2 = Validate :: rest).
Proof.
  intros Hbad.
  destruct (invalid_not_saved o combo OUT_CSV_DAILY (Some OUT_PARQUET_DAILY) fs Hbad)
    as (t & Hsave & Hquiet).
  split; [eauto|].
  assert (Hstep : (save_step o o1 o2 combo df90 fs).1.1 = false
                  /\ forall p, p <> PARTIAL_SAVE_FILE -> parent p <> BACKUP_DIR ->
                               (save_step o o1 o2 combo df90 fs).1.2 !! p = fs !! p).
  { unfold save_step. rewrite Hsave. destruct (df_empty df90); [split; reflexivity|].
    pose proof (fun p => save_elsewhere o1 df90 PARTIAL_SAVE_FILE None fs p) as H1.
    destruct (safe_save_dataframe o1 df90 PARTIAL_SAVE_FILE None fs) as [[b1 fs1] t1].
    pose proof (fun p => save_elsewhere o2 df90 PARTIAL_SAVE_FILE None fs1 p) as H2.
    destruct (safe_save_dataframe o2 df90 PARTIAL_SAVE_FILE None fs1) as [[b2 fs2] t2].
    simpl in *. split; [reflexivity|]. intros p Hp Hb.
    rewrite H2 by (auto; discriminate). apply H1; auto; discriminate. }
  destruct Hstep as [Hfalse Hsame].
  split; [exact Hfalse|].
  split; [apply Hsame; discriminate|].
  split; [apply Hsame; discriminate|].
  intros. apply save_validates_first.
Qed.

Lemma validation_atomicity_witness :
  (save_step io_fine io_fine io_fine frame_without_date window_two_days
             disk_with_history).1.2 !! OUT_CSV_DAILY
  = disk_with_history !! OUT_CSV_DAILY.
Proof.
  apply (validation_atomicity io_fine io_fine io_fine frame_without_date window_two_days
                              disk_with_history).
  reflexivity.
Defined.

(** C9 (as amended): in a save of a valid frame over an existing file, with
    disk space and a backup copy that does not fail, the file's old content
    is at [BACKUP_DIR/<stem>_<timestamp><suffix>] afterwards whether or not
    the later writes succeed, no other backup of that suffix is created or
    changed, and the copy comes before the first write. *)
Theorem backup_before_overwrite (o : io) (df : DataFrame) (csv_path : path)
        (parquet_path : option path) (fs : gmap path file) (f : file) :
  is_valid df = true ->
  disk_space_ok o = true ->
  fs !! csv_path = Some f ->
  copy2 o csv_path = Succeeds ->
  parent csv_path <> BACKUP_DIR ->
  (forall q, parquet_path = Some q -> parent q <> BACKUP_DIR /\ suffix q <> suffix csv_path) ->
  let b := backup_path csv_path (now o csv_path) in
  let r := safe_save_dataframe o df csv_path parquet_path fs in
  r.1.2 !! b = Some f
  /\ (forall p, parent p = BACKUP_DIR -> suffix p = suffix csv_path -> p <> b ->
                r.1.2 !! p = fs !! p)
  /\ (exists t1 t2, r.2 = t1 ++ Copy csv_path b :: t2
                    /\ forallb (fun a => negb (is_write a)) t1 = true
                    /\ In (ToCsv csv_path) t2).
Proof.
  intros Hvalid Hdisk Hfile Hcopy Hdir Hpq b r. subst r.
  unfold safe_save_dataframe. unfold is_valid in Hvalid.
  destruct (validate_dataframe (Some df)) as [verdict warnings]. simpl in Hvalid.
  rewrite Hvalid, Hdisk. simpl negb. cbv iota.
  rewrite (backup_holds o csv_path fs f Hfile Hcopy). fold b.
  assert (Hb_csv : csv_path <> b) by (intros E; apply Hdir; rewrite E; reflexivity).
  set (fs1 := <[b := f]> fs).
  assert (H2 : forall p, (parent p = BACKUP_DIR -> suffix p = suffix csv_path) ->
               (match parquet_path with
                | Some q => backup_existing_file o q fs1
                | None => (false, fs1, [])
                end).1.2 !! p = fs1 !! p).
  { intros p Hp. destruct parquet_path as [q|]; [|reflexivity].
    apply backup_elsewhere. intros ->. destruct (Hpq q eq_refl) as [_ Hs].
    apply Hs. now apply Hp. }
  assert (T2 : forallb (fun a => negb (is_write a))
                 (match parquet_path with
                  | Some q => backup_existing_file o q fs1
                  | None => (false, fs1, [])
                  end).2 = true).
  { destruct parquet_path as [q|]; [apply backup_no_write | reflexivity]. }
  destruct (match parquet_path with
            | Some q => backup_existing_file o q fs1
            | None => (false, fs1, [])
            end) as [[b2 fs2] t2]. simpl in H2, T2.
  assert (Hq_ne : forall q p, parquet_path = Some q -> parent p = BACKUP_DIR -> q <> p).
  { intros q p Hq Hp ->. destruct (Hpq p Hq) as [Hd _]. now apply Hd. }
  assert (Hlook : forall p, parent p = BACKUP_DIR -> suffix p = suffix csv_path ->
            (match to_csv o with
             | Succeeds =>
                 match parquet_path with
                 | Some q =>
                     match to_parquet o with
                     | Succeeds => <[q := Parquet df]> (<[csv_path := Csv df]> fs2)
                     | Fails residue => put q residue (<[csv_path := Csv df]> fs2)
                     end
                 | None => <[csv_path := Csv df]> fs2
                 end
             | Fails residue => put csv_path residue fs2
             end) !! p = fs1 !! p).
  { intros p Hp Hs.
    assert (csv_path <> p) by (intros E; apply Hdir; now rewrite E).
    rewrite <- (H2 p) by auto.
    destruct (to_csv o).
    - destruct parquet_path as [q|].
      + pose proof (Hq_ne q p eq_refl Hp).
        destruct (to_parquet o).
        * rewrite lookup_insert_ne by assumption. now apply lookup_insert_ne.
        * rewrite lookup_put_ne by assumption. now apply lookup_insert_ne.
      + now apply lookup_insert_ne.
    - now apply lookup_put_ne. }
  split; [|split].
  - transitivity (fs1 !! b).
    + destruct (to_csv o); [destruct parquet_path; [destruct (to_parquet o)|]|];
        simpl; apply (Hlook b); reflexivity.
    + unfold fs1. apply lookup_insert_eq.
  - intros p Hp Hs Hne. transitivity (fs1 !! p).
    + destruct (to_csv o); [destruct parquet_path; [destruct (to_parquet o)|]|];
        simpl; now apply (Hlook p).
    + unfold fs1. apply lookup_insert_ne. congruence.
  - exists ((Validate :: map Log warnings) ++ [DiskCheck]).
    destruct (to_csv o); [destruct parquet_path; [destruct (to_parquet o)|]|]; simpl;
      eexists; (split; [rewrite <- !app_assoc; simpl; reflexivity|]);
      (split; [rewrite forallb_app, forallb_log by reflexivity; reflexivity|]);
      simpl; right; apply in_or_app; right; simpl; auto.
Qed.

Lemma backup_before_overwrite_witness :
  (safe_save_dataframe io_fine window_two_days OUT_CSV_DAILY (Some OUT_PARQUET_DAILY)
                       disk_with_history).1.2
    !! backup_path OUT_CSV_DAILY "20251104_163000"
  = Some (Csv (mkDF ["date"; "Matthei"] [[Day 20088; Num 3]; [Day 20089; Num 4]])).
Proof.
  apply (backup_before_overwrite io_fine window_two_days OUT_CSV_DAILY
           (Some OUT_PARQUET_DAILY) disk_with_history);
    [ reflexivity | reflexivity | reflexivity | reflexivity | discriminate
    | intros q [= <-]; split; discriminate ].
Defined.

(** C9 (as stated) fails: when the copy raises, [backup_existing_file] logs
    the error and the save goes on; the run is successful, the history is
    overwritten, and the backup directory holds no file. *)
Lemma save_without_backup :
  let r := safe_save_dataframe io_backup_fails window_two_days OUT_CSV_DAILY
                               (Some OUT_PARQUET_DAILY) disk_with_history in
  is_valid window_two_days = true
  /\ disk_with_history !! OUT_CSV_DAILY
     = Some (Csv (mkDF ["date"; "Matthei"] [[Day 20088; Num 3]; [Day 20089; Num 4]]))
  /\ r.1.1 = true
  /\ r.1.2 !! OUT_CSV_DAILY = Some (Csv window_two_days)
  /\ (forall p, parent p = BACKUP_DIR -> r.1.2 !! p = None).
Proof.
  assert (E : safe_save_dataframe io_backup_fails window_two_days OUT_CSV_DAILY
                (Some OUT_PARQUET_DAILY) disk_with_history
              = (true,
                 <[OUT_PARQUET_DAILY := Parquet window_two_days]>
                   (<[OUT_CSV_DAILY := Csv window_two_days]>
                      (delete (backup_path OUT_CSV_DAILY "20251104_163000") disk_with_history)),
                 [Validate; DiskCheck;
                  Copy OUT_CSV_DAILY (backup_path OUT_CSV_DAILY "20251104_163000");
                  Log BackupError;
                  ToCsv OUT_CSV_DAILY; Log (CsvSaved "trends_candidatos_daily");
                  ToParquet OUT_PARQUET_DAILY; Log (ParquetSaved "trends_candidatos_daily")])).
  { unfold safe_save_dataframe.
    change (validate_dataframe (Some window_two_days)) with ((true, OK), @nil log_line).
    cbv beta iota. simpl negb. cbv iota.
    unfold backup_existing_file at 1.
    replace (disk_with_history !! OUT_CSV_DAILY)
      with (Some (Csv (mkDF ["date"; "Matthei"] [[Day 20088; Num 3]; [Day 20089; Num 4]])))
      by (symmetry; apply lookup_singleton_eq).
    simpl copy2. cbv iota. simpl put.
    unfold backup_existing_file.
    rewrite lookup_delete_ne by discriminate.
    unfold disk_with_history. rewrite lookup_singleton_ne by discriminate.
    reflexivity. }
  cbv zeta. rewrite E. simpl.
  split; [reflexivity|]. split; [apply lookup_singleton_eq|]. split; [reflexivity|].
  split.
  - rewrite lookup_insert_ne by discriminate. apply lookup_insert_eq.
  - intros p Hp.
    rewrite lookup_insert_ne by (intros <-; discriminate).
    rewrite lookup_insert_ne by (intros <-; discriminate).
    destruct (decide (backup_path OUT_CSV_DAILY "20251104_163000" = p)) as [<-|Hne].
    + apply lookup_delete_eq.
    + rewrite lookup_delete_ne by assumption.
      unfold disk_with_history. apply lookup_singleton_ne. intros <-. discriminate.
Qed.

(** ** Fetch wrappers *)

Arguments Backoff.delay : simpl never.

Ltac tally :=
  unfold cooldowns; simpl; rewrite ?List.filter_app, ?List.length_app; simpl; try lia.

Ltac replies :=
  repeat match goal with
  | H : build_payload_reply _ _ = _ |- _ => rewrite H
  | H : make_pytrends_reply _ _ = _ |- _ => rewrite H
  | H : interest_over_time_reply _ _ = _ |- _ => rewrite H
  end.

Ltac run_goal :=
  unfold build_turn, fetch_turn, try_except, bind, count_429, wait_if_blocked,
    backoff_sleep, random_uniform, sleep, set_count, get_count, make_pytrends,
    build_payload, interest_over_time, ret, raise;
  simpl.

Ltac churn := repeat (progress (run_goal; replies)).

Ltac split_replies :=
  repeat match goal with
  | |- context [match ?x with Returns _ => _ | Raises _ => _ end] => destruct x; simpl
  | |- context [match ?x with Some _ => _ | None => _ end] => destruct x; simpl
  end.

Lemma throttled_build_turn sv i w :
  ((0 < i)%nat -> make_pytrends_reply sv (creates w) = Returns tt) ->
  build_payload_reply sv (builds w) = Raises TooManyRequestsError ->
  let c := consecutive_429_count w in
  let r := build_turn sv i w in
  cooldowns r.2 = (cooldowns w + (if (3 <=? S c)%nat then 1 else 0))%nat
  /\ (is_last i = false ->
      r.1 = Returns Again
      /\ consecutive_429_count r.2 = if (3 <=? S c)%nat then O else S c).
Proof.
  intros Hm Hb c r. subst c r. destruct w as [c cr b f d sl]. simpl in *.
  unfold build_turn, try_except, bind.
  destruct (0 <? i)%nat eqn:Ei.
  - unfold make_pytrends at 1. simpl. rewrite Hm by (apply Nat.ltb_lt; exact Ei).
    churn.
    destruct c as [|[|c]]; simpl; destruct (is_last i); simpl; split_replies;
      (split; [tally|]); intros; try discriminate; split; reflexivity.
  - churn.
    destruct c as [|[|c]]; simpl; destruct (is_last i); simpl; split_replies;
      (split; [tally|]); intros; try discriminate; split; reflexivity.
Qed.

Lemma throttled_fetch_turn sv i w :
  interest_over_time_reply sv (fetches w) = Raises TooManyRequestsError ->
  let c := consecutive_429_count w in
  let r := fetch_turn sv i w in
  cooldowns r.2 = (cooldowns w + (if (3 <=? S c)%nat then 1 else 0))%nat
  /\ (is_last i = false ->
      r.1 = Returns Again
      /\ consecutive_429_count r.2 = if (3 <=? S c)%nat then O else S c).
Proof.
  intros Hb c r. subst c r. destruct w as [c cr b f d sl]. simpl in *.
  churn.
  destruct c as [|[|c]]; simpl; destruct (is_last i); simpl; split_replies;
    (split; [tally|]); intros; try discriminate; split; reflexivity.
Qed.

Lemma three_throttles_then_success sv w :
  (forall k, (k < 3)%nat -> build_payload_reply sv (builds w + k) = Raises TooManyRequestsError) ->
  build_payload_reply sv (builds w + 3) = Returns tt ->
  (forall k, (k < 3)%nat -> make_pytrends_reply sv (creates w + k) = Returns tt) ->
  let r := safe_build_payload sv w in
  r.1 = Returns tt
  /\ cooldowns r.2 = S (cooldowns w)
  /\ consecutive_429_count r.2 = O
  /\ fetches r.2 = fetches w.
Proof.
  intros Hb Hok Hm r. subst r. destruct w as [c cr b f d sl]. simpl in *.
  pose proof (Hb 0%nat ltac:(lia)) as B0. pose proof (Hb 1%nat ltac:(lia)) as B1.
  pose proof (Hb 2%nat ltac:(lia)) as B2.
  pose proof (Hm 0%nat ltac:(lia)) as M0. pose proof (Hm 1%nat ltac:(lia)) as M1.
  pose proof (Hm 2%nat ltac:(lia)) as M2.
  clear Hb Hm.
  rewrite ?Nat.add_0_r in *.
  replace (b + 1)%nat with (S b) in * by lia. replace (b + 2)%nat with (S (S b)) in * by lia.
  replace (b + 3)%nat with (S (S (S b))) in * by lia.
  replace (cr + 1)%nat with (S cr) in * by lia. replace (cr + 2)%nat with (S (S cr)) in * by lia.
  unfold safe_build_payload. simpl MAX_RETRIES. unfold build_loop.
  destruct c as [|[|c]]; churn; repeat split; tally.
Qed.

Lemma success_without_cooldown sv w df :
  interest_over_time_reply sv (fetches w) = Returns (Some df) ->
  let r := safe_interest_over_time sv w in
  r.1 = Returns (tidy df) /\ cooldowns r.2 = cooldowns w /\ consecutive_429_count r.2 = O.
Proof.
  intros H r. subst r. destruct w as [c cr b f d sl]. simpl in *.
  unfold safe_interest_over_time. simpl MAX_RETRIES. unfold fetch_loop.
  churn. repeat split; tally.
Qed.

Lemma network_build_turn sv i w :
  ((0 < i)%nat -> make_pytrends_reply sv (creates w) = Returns tt
                  \/ make_pytrends_reply sv (creates w) = Raises RequestException) ->
  build_payload_reply sv (builds w) = Raises RequestException ->
  consecutive_429_count (build_turn sv i w).2 = O
  /\ (build_turn sv i w).1 = if is_last i then Raises RequestException else Returns Again.
Proof.
  intros Hm Hb. destruct w as [c cr b f d sl]. simpl in *.
  destruct (0 <? i)%nat eqn:Ei.
  - destruct (Hm ltac:(apply Nat.ltb_lt; exact Ei)) as [M|M];
      unfold build_turn; rewrite Ei; churn; destruct (is_last i); churn; split; reflexivity.
  - unfold build_turn; rewrite Ei; churn; destruct (is_last i); churn; split; reflexivity.
Qed.

Lemma network_fetch_turn sv i w :
  interest_over_time_reply sv (fetches w) = Raises RequestException ->
  consecutive_429_count (fetch_turn sv i w).2 = O
  /\ (fetch_turn sv i w).1 = if is_last i then Returns (Done empty_frame) else Returns Again.
Proof.
  intros Hb. destruct w as [c cr b f d sl]. simpl in *.
  churn; destruct (is_last i); churn; split; reflexivity.
Qed.

Lemma network_down_build sv w :
  (forall k, build_payload_reply sv k = Raises RequestException) ->
  (forall k, make_pytrends_reply sv k = Returns tt
             \/ make_pytrends_reply sv k = Raises RequestException) ->
  (safe_build_payload sv w).1 = Raises RequestException
  /\ consecutive_429_count (safe_build_payload sv w).2 = O.
Proof.
  intros Hb Hm. destruct w as [c cr b f d sl].
  unfold safe_build_payload. simpl MAX_RETRIES. unfold build_loop.
  pose proof (Hb b) as B0. churn.
  repeat match goal with
  | |- context [make_pytrends_reply sv ?k] =>
      let E := fresh "E" in destruct (Hm k) as [E|E]; rewrite E; churn
  | |- context [build_payload_reply sv ?k] => rewrite (Hb k); churn
  end; split; reflexivity.
Qed.

Lemma network_down_fetch sv w :
  (forall k, interest_over_time_reply sv k = Raises RequestException) ->
  (safe_interest_over_time sv w).1 = Returns empty_frame
  /\ consecutive_429_count (safe_interest_over_time sv w).2 = O.
Proof.
  intros Hb. destruct w as [c cr b f d sl].
  unfold safe_interest_over_time. simpl MAX_RETRIES. unfold fetch_loop.
  repeat match goal with
  | |- context [interest_over_time_reply sv ?k] => rewrite (Hb k); churn
  | _ => progress churn
  end; split; reflexivity.
Qed.

Lemma fetch_batch_never_raises sv w : exists o, (fetch_batch sv w).1 = Returns o.
Proof.
  unfold fetch_batch, try_except, bind.
  destruct (safe_build_payload sv w) as [[a|e] w1]; [|eexists; reflexivity].
  destruct (safe_interest_over_time sv w1) as [[df|e] w2]; [|eexists; reflexivity].
  destruct (df_empty df); [eexists; reflexivity|].
  destruct (negb _); eexists; reflexivity.
Qed.

Lemma network_down_batch sv w :
  (forall k, build_payload_reply sv k = Raises RequestException) ->
  (forall k, make_pytrends_reply sv k = Returns tt
             \/ make_pytrends_reply sv k = Raises RequestException) ->
  (fetch_batch sv w).1 = Returns None
  /\ consecutive_429_count (fetch_batch sv w).2 = O.
Proof.
  intros Hb Hm. destruct (network_down_build sv w Hb Hm) as [H1 H2].
  unfold fetch_batch, try_except, bind.
  destruct (safe_build_payload sv w) as [[a|e] w1]; simpl in *; [discriminate|].
  split; [reflexivity | exact H2].
Qed.

(** C6 (as amended): a throttled call inside the retry loop of either
    wrapper adds one to the counter, and when that makes three, exactly one
    cooldown sleep is taken and the counter returns to zero; three throttled
    calls followed by a successful one take exactly one cooldown and leave
    the counter at zero, and the successful retrieval that follows takes
    none.  (The extra attempt made once the retries are used up is left
    out.) *)
Theorem circuit_open_discipline (sv : service) (w : world) (df : DataFrame) :
  (forall k, (k < 3)%nat ->
             build_payload_reply sv (builds w + k) = Raises TooManyRequestsError) ->
  build_payload_reply sv (builds w + 3) = Returns tt ->
  (forall k, (k < 3)%nat -> make_pytrends_reply sv (creates w + k) = Returns tt) ->
  interest_over_time_reply sv (fetches w) = Returns (Some df) ->
  let w1 := (safe_build_payload sv w).2 in
  let w2 := (safe_interest_over_time sv w1).2 in
  (safe_build_payload sv w).1 = Returns tt
  /\ cooldowns w1 = S (cooldowns w)
  /\ consecutive_429_count w1 = O
  /\ (safe_interest_over_time sv w1).1 = Returns (tidy df)
  /\ cooldowns w2 = cooldowns w1
  /\ consecutive_429_count w2 = O
  /\ (forall i u,
        ((0 < i)%nat -> make_pytrends_reply sv (creates u) = Returns tt) ->
        build_payload_reply sv (builds u) = Raises TooManyRequestsError ->
        cooldowns (build_turn sv i u).2
        = (cooldowns u + (if (3 <=? S (consecutive_429_count u))%nat then 1 else 0))%nat
        /\ (is_last i = false ->
            (build_turn sv i u).1 = Returns Again
            /\ consecutive_429_count (build_turn sv i u).2
               = if (3 <=? S (consecutive_429_count u))%nat then O
                 else S (consecutive_429_count u)))
  /\ (forall i u,
        interest_over_time_reply sv (fetches u) = Raises TooManyRequestsError ->
        cooldowns (fetch_turn sv i u).2
        = (cooldowns u + (if (3 <=? S (consecutive_429_count u))%nat then 1 else 0))%nat
        /\ (is_last i = false ->
            (fetch_turn sv i u).1 = Returns Again
            /\ consecutive_429_count (fetch_turn sv i u).2
               = if (3 <=? S (consecutive_429_count u))%nat then O
                 else S (consecutive_429_count u))).
Proof.
  intros Hb Hok Hm Hf w1 w2.
  destruct (three_throttles_then_success sv w Hb Hok Hm) as (R1 & R2 & R3 & R4).
  assert (Hf1 : interest_over_time_reply sv (fetches w1) = Returns (Some df))
    by (unfold w1; rewrite R4; exact Hf).
  destruct (success_without_cooldown sv w1 df Hf1) as (S1 & S2 & S3).
  repeat (split; [assumption|]).
  split.
  - intros i u Hmu Hbu. apply (throttled_build_turn sv i u Hmu Hbu).
  - intros i u Hfu. apply (throttled_fetch_turn sv i u Hfu).
Qed.

Lemma circuit_open_discipline_witness :
  cooldowns (safe_build_payload service_three_throttles world_at_start).2
  = S (cooldowns world_at_start).
Proof.
  refine (proj1 (proj2 (circuit_open_discipline service_three_throttles world_at_start
                          window_reply _ _ _ _))).
  - intros k Hk. simpl. destruct k as [|[|[|k]]]; [reflexivity | reflexivity | reflexivity | lia].
  - reflexivity.
  - reflexivity.
  - reflexivity.
Defined.

(** C6 (as stated) fails: under a service that throttles every call,
    [safe_build_payload] meets six throttled outcomes; were each of them
    counted, the counter would be back at zero after two cooldowns, but the
    sixth -- the extra attempt after the loop -- is not counted: the counter
    stays at two and one cooldown was taken. *)
Lemma sixth_throttle_not_counted :
  let r := safe_build_payload service_throttled world_at_start in
  r.1 = Raises TooManyRequestsError
  /\ builds r.2 = 6%nat
  /\ (forall k, build_payload_reply service_throttled k = Raises TooManyRequestsError)
  /\ after_throttles 6 (O, O) = (O, 2%nat)
  /\ (consecutive_429_count r.2, cooldowns r.2) = (2%nat, 1%nat)
  /\ (consecutive_429_count r.2, cooldowns r.2) <> after_throttles 6 (O, O).
Proof.
  cbv zeta.
  assert (E : (consecutive_429_count (safe_build_payload service_throttled world_at_start).2,
               cooldowns (safe_build_payload service_throttled world_at_start).2)
              = (2%nat, 1%nat)) by (vm_compute; reflexivity).
  split; [vm_compute; reflexivity|].
  split; [vm_compute; reflexivity|].
  split; [intros k; reflexivity|].
  split; [reflexivity|].
  split; [exact E|].
  rewrite E. discriminate.
Qed.

(** C7 (as amended): a connection error in a turn of either wrapper resets
    the counter; when they persist through all retries,
    [safe_interest_over_time] returns the empty frame,
    [safe_build_payload] re-raises the error, and the loop over batches in
    [fetch_last_90_days] catches it: the batch contributes nothing, nothing
    is raised, and the counter is at zero. *)
Theorem network_error_degradation (sv : service) (w : world) :
  (forall k, build_payload_reply sv k = Raises RequestException) ->
  (forall k, make_pytrends_reply sv k = Returns tt
             \/ make_pytrends_reply sv k = Raises RequestException) ->
  (forall k, interest_over_time_reply sv k = Raises RequestException) ->
  ((safe_interest_over_time sv w).1 = Returns empty_frame
   /\ consecutive_429_count (safe_interest_over_time sv w).2 = O)
  /\ ((safe_build_payload sv w).1 = Raises RequestException
      /\ consecutive_429_count (safe_build_payload sv w).2 = O)
  /\ ((fetch_batch sv w).1 = Returns None
      /\ consecutive_429_count (fetch_batch sv w).2 = O)
  /\ (forall i, consecutive_429_count (build_turn sv i w).2 = O
                /\ consecutive_429_count (fetch_turn sv i w).2 = O).
Proof.
  intros Hb Hm Hf.
  split; [now apply network_down_fetch|].
  split; [now apply network_down_build|].
  split; [now apply network_down_batch|].
  intros i. split.
  - apply network_build_turn; auto.
  - apply network_fetch_turn; auto.
Qed.

Lemma network_error_degradation_witness :
  (safe_interest_over_time service_down (mkWorld 2 0 0 0 0 [])).1 = Returns empty_frame.
Proof.
  refine (proj1 (proj1 (network_error_degradation service_down (mkWorld 2 0 0 0 0 []) _ _ _))).
  - reflexivity.
  - intros k. right. reflexivity.
  - reflexivity.
Defined.

(** C7 (as stated) fails: with the network down, the first half of the
    fetch, [safe_build_payload], uses up its retries and raises instead of
    returning. *)
Lemma build_payload_raises_when_network_down :
  (forall k, build_payload_reply service_down k = Raises RequestException)
  /\ (safe_build_payload service_down world_at_start).1 = Raises RequestException
  /\ (safe_build_payload service_down world_at_start).1 <> Returns tt.
Proof.
  assert (E : (safe_build_payload service_down world_at_start).1 = Raises RequestException)
    by (vm_compute; reflexivity).
  split; [intros k; reflexivity|]. split; [exact E|]. rewrite E. discriminate.
Qed.

(** ** Sorting by date and keeping the last row of each date *)

Lemma cell_eqb_eq (a b : cell) : cell_eqb a b = true <-> a = b.
Proof. unfold cell_eqb. destruct (cell_eq_dec a b); split; intros; congruence. Qed.

Lemma cell_eqb_refl (a : cell) : cell_eqb a a = true.
Proof. now apply cell_eqb_eq. Qed.

Lemma date_leb_refl (a : cell) : date_leb a a = true.
Proof. destruct a; simpl; try reflexivity. apply Z.leb_refl. Qed.

Lemma date_leb_total (a b : cell) : date_leb a b = false -> date_leb b a = true.
Proof. destruct a, b; simpl; intros H; try reflexivity; try discriminate; lia. Qed.

Lemma date_leb_trans (a b c : cell) :
  date_leb a b = true -> date_leb b c = true -> date_leb a c = true.
Proof. destruct a, b, c; simpl; intros; try reflexivity; try discriminate; lia. Qed.


Lemma final_app {A} (l1 l2 : list A) : l2 <> [] -> final (l1 ++ l2) = final l2.
Proof.
  intros H. unfold final. rewrite rev_app_distr.
  destruct (rev l2) eqn:E; [|reflexivity].
  apply (f_equal (@rev A)) in E. rewrite rev_involutive in E. contradiction.
Qed.

Lemma final_cons {A} (x : A) (l : list A) : l <> [] -> final (x :: l) = final l.
Proof. intros H. now apply (final_app [x] l). Qed.



Lemma final_map {A B} (f : A -> B) (l : list A) : final (map f l) = map f (final l).
Proof. unfold final. rewrite <- map_rev. destruct (rev l); reflexivity. Qed.

Lemma final_length {A} (l : list A) : l <> [] -> length (final l) = 1%nat.
Proof.
  intros H. unfold final. destruct (rev l) eqn:E; [|reflexivity].
  apply (f_equal (@rev A)) in E. rewrite rev_involutive in E. contradiction.
Qed.

Section SortDedup.

Context {A : Type} (key : A -> cell).

Local Abbreviation pick := (pick key).
Local Abbreviation le_key := (le_key key).

Lemma pick_app k l1 l2 : pick k (l1 ++ l2) = pick k l1 ++ pick k l2.
Proof. apply List.filter_app. Qed.

Lemma pick_nil_iff k l : pick k l = [] <-> forall x, In x l -> key x <> k.
Proof.
  unfold pick. induction l as [|y l IH]; simpl.
  - split; [intros _ x [] | reflexivity].
  - destruct (cell_eqb (key y) k) eqn:E.
    + split; [discriminate|]. intros H. exfalso. apply (H y); [now left|].
      now apply cell_eqb_eq.
    + rewrite IH. split.
      * intros H x [<-|Hx]; [|now apply H]. intros E'. apply cell_eqb_eq in E'. congruence.
      * intros H x Hx. apply H. now right.
Qed.

Lemma existsb_pick x l :
  existsb (fun y => cell_eqb (key y) (key x)) l = negb (match pick (key x) l with [] => true | _ => false end).
Proof.
  unfold pick. induction l as [|y l IH]; simpl; [reflexivity|].
  destruct (cell_eqb (key y) (key x)); simpl; [reflexivity | exact IH].
Qed.

(** Stability: sorting does not reorder the rows of one date. *)
Lemma pick_insert_sorted k x l : pick k (insert_sorted key x l) = pick k (x :: l).
Proof.
  induction l as [|y l IH]; simpl; [reflexivity|].
  destruct (date_leb (key x) (key y)) eqn:E; [reflexivity|].
  simpl in *. rewrite IH.
  destruct (cell_eqb (key x) k) eqn:Ex; [|reflexivity].
  destruct (cell_eqb (key y) k) eqn:Ey; [|reflexivity].
  apply cell_eqb_eq in Ex, Ey. rewrite Ex, Ey, date_leb_refl in E. discriminate.
Qed.

Lemma pick_sort_by k l : pick k (sort_by key l) = pick k l.
Proof.
  induction l as [|x l IH]; simpl; [reflexivity|].
  rewrite pick_insert_sorted. simpl. now rewrite IH.
Qed.

(** Of the rows of one date, [drop_dups_last] keeps the last. *)
Lemma pick_drop_dups k l : pick k (drop_dups_last key l) = final (pick k l).
Proof.
  induction l as [|x l IH]; simpl; [reflexivity|].
  rewrite existsb_pick.
  destruct (pick (key x) l) as [|z zs] eqn:E; simpl.
  - destruct (cell_eqb (key x) k) eqn:Ex.
    + apply cell_eqb_eq in Ex. subst k. rewrite IH, E. reflexivity.
    + exact IH.
  - rewrite IH. destruct (cell_eqb (key x) k) eqn:Ex; [|reflexivity].
    apply cell_eqb_eq in Ex. subst k. fold (pick (key x) l). rewrite E.
    symmetry. apply final_cons. discriminate.
Qed.

Lemma insert_sorted_perm x l : Permutation (x :: l) (insert_sorted key x l).
Proof.
  induction l as [|y l IH]; simpl; [reflexivity|].
  destruct (date_leb (key x) (key y)); [reflexivity|].
  rewrite perm_swap. now constructor.
Qed.

Lemma sort_by_perm l : Permutation l (sort_by key l).
Proof.
  induction l as [|x l IH]; simpl; [constructor|].
  rewrite <- insert_sorted_perm. now constructor.
Qed.

Lemma insert_sorted_sorted x l :
  StronglySorted le_key l -> StronglySorted le_key (insert_sorted key x l).
Proof.
  induction 1 as [|y l Hs IH Hy]; simpl; [repeat constructor|].
  destruct (date_leb (key x) (key y)) eqn:E.
  - constructor; [now constructor|]. constructor; [exact E|].
    eapply List.Forall_impl; [|exact Hy]. intros z Hz. unfold le_key in *.
    eapply date_leb_trans; eauto.
  - constructor; [exact IH|].
    apply (Permutation_Forall (insert_sorted_perm x l)).
    constructor; [|exact Hy]. now apply date_leb_total.
Qed.

Lemma sort_by_sorted l : StronglySorted le_key (sort_by key l).
Proof. induction l; simpl; [constructor | now apply insert_sorted_sorted]. Qed.

Lemma drop_dups_incl l x : In x (drop_dups_last key l) -> In x l.
Proof.
  induction l as [|y l IH]; simpl; [easy|].
  destruct (existsb _ l); simpl; intuition.
Qed.

Lemma drop_dups_sorted l :
  StronglySorted le_key l -> StronglySorted le_key (drop_dups_last key l).
Proof.
  induction 1 as [|y l Hs IH Hy]; simpl; [constructor|].
  destruct (existsb _ l); [exact IH|].
  constructor; [exact IH|]. rewrite List.Forall_forall in *. intros z Hz.
  apply Hy. now apply drop_dups_incl.
Qed.


End SortDedup.

Section SortDedupFacts.

Context {A : Type} (key : A -> cell).

(** Newest wins: of the rows of a date in [a ++ b], the merge keeps the last. *)
Lemma pick_merged k (a b : list A) :
  pick key k (drop_dups_last key (sort_by key (a ++ b))) = final (pick key k a ++ pick key k b).
Proof. now rewrite pick_drop_dups, pick_sort_by, pick_app. Qed.

Lemma final_length_le {B} (l : list B) : (length (final l) <= 1)%nat.
Proof. unfold final. destruct (rev l); simpl; lia. Qed.



End SortDedupFacts.

Section MapKey.

Context {A B : Type} (ka : A -> cell) (kb : B -> cell) (f : A -> B).
Hypothesis key_f : forall x, kb (f x) = ka x.

Lemma pick_map k l : pick kb k (map f l) = map f (pick ka k l).
Proof.
  unfold pick. induction l as [|x l IH]; simpl; [reflexivity|].
  rewrite key_f. destruct (cell_eqb (ka x) k); simpl; now rewrite IH.
Qed.





End MapKey.

(** ** Labels and cells *)

Lemma has_col_In c cols : has_col c cols = true <-> In c cols.
Proof. unfold has_col. destruct (in_dec String.string_dec c cols); split; intros; congruence. Qed.

Lemma has_col_not_In c cols : has_col c cols = false <-> ~ In c cols.
Proof. unfold has_col. destruct (in_dec String.string_dec c cols); split; intros; congruence. Qed.

Lemma col_index_None c cols : col_index c cols = None <-> ~ In c cols.
Proof.
  induction cols as [|x cols IH]; simpl; [tauto|].
  destruct (String.string_dec x c) as [->|Hne].
  - split; [discriminate | intros H; exfalso; apply H; now left].
  - destruct (col_index c cols); simpl.
    + split; [discriminate|]. intros H.
      assert (Hn : ~ In c cols) by tauto. apply IH in Hn. discriminate.
    + split; [|reflexivity]. intros _ [E|Hin]; [contradiction | now apply IH].
Qed.

Lemma col_index_Some c cols i :
  col_index c cols = Some i -> (i < length cols)%nat /\ nth i cols "" = c.
Proof.
  revert i. induction cols as [|x cols IH]; simpl; intros i; [discriminate|].
  destruct (String.string_dec x c) as [->|Hne].
  - intros [= <-]. split; [lia | reflexivity].
  - destruct (col_index c cols) as [j|]; simpl; [|discriminate].
    intros [= <-]. destruct (IH j eq_refl). split; [lia | assumption].
Qed.

Lemma col_index_In c cols : In c cols -> exists i, col_index c cols = Some i.
Proof.
  intros H. destruct (col_index c cols) as [i|] eqn:E; [eauto|].
  apply col_index_None in E. contradiction.
Qed.

Lemma col_index_app c cols more :
  In c cols -> col_index c (cols ++ more) = col_index c cols.
Proof.
  induction cols as [|x cols IH]; simpl; [easy|].
  destruct (String.string_dec x c); [reflexivity|].
  intros [E|H]; [contradiction|]. now rewrite IH.
Qed.

Lemma get_cell_absent c cols r : ~ In c cols -> get_cell cols r c = NaN.
Proof. intros H. unfold get_cell. apply col_index_None in H. now rewrite H. Qed.

(** Realigned rows show under each new label the cell they had under it. *)
Lemma get_cell_align old r new c :
  In c new -> get_cell new (map (get_cell old r) new) c = get_cell old r c.
Proof.
  intros H. destruct (col_index_In c new H) as [i Hi].
  unfold get_cell at 1. rewrite Hi.
  destruct (col_index_Some c new i Hi) as [Hlt Hnth].
  rewrite (nth_indep _ NaN (get_cell old r "")) by now rewrite length_map.
  rewrite map_nth. now rewrite Hnth.
Qed.

Lemma get_cell_padded cols more r pad c :
  In c cols -> length r = length cols ->
  get_cell (cols ++ more) (r ++ pad) c = get_cell cols r c.
Proof.
  intros H L. unfold get_cell. rewrite col_index_app by assumption.
  destruct (col_index c cols) as [i|] eqn:E; [|reflexivity].
  apply col_index_Some in E. apply app_nth1. lia.
Qed.



(** ** [ensure_all_candidate_cols] *)

Lemma ensure_shape names df :
  exists extra,
    columns (ensure_all_candidate_cols names df) = columns df ++ extra
    /\ rows (ensure_all_candidate_cols names df)
       = map (fun r => r ++ repeat NA (length extra)) (rows df)
    /\ (forall c, In c extra -> ~ In c (columns df))
    /\ List.NoDup extra
    /\ (forall c, In c names -> In c (columns df ++ extra)).
Proof.
  unfold ensure_all_candidate_cols. revert df.
  induction names as [|n names IH]; intros df; simpl.
  - exists []. rewrite app_nil_r. split; [reflexivity|]. split.
    { rewrite <- (map_id (rows df)) at 1. apply map_ext. intros r. simpl.
      now rewrite app_nil_r. }
    split; [intros c []|]. split; [constructor | intros c []].
  - destruct (has_col n (columns df)) eqn:E.
    + destruct (IH df) as (extra & H1 & H2 & H3 & H4 & H5).
      exists extra. repeat split; try assumption.
      intros c [<-|Hc]; [|now apply H5].
      apply in_or_app. left. now apply has_col_In.
    + assert (En : col_index n (columns df) = None)
        by (apply col_index_None; now apply has_col_not_In).
      assert (Ea : assign_scalar n NA df
                   = mkDF (columns df ++ [n]) (map (fun r => r ++ [NA]) (rows df)))
        by (unfold assign_scalar; now rewrite En).
      rewrite Ea.
      destruct (IH (mkDF (columns df ++ [n]) (map (fun r => r ++ [NA]) (rows df))))
        as (extra & H1 & H2 & H3 & H4 & H5). simpl in *.
      exists (n :: extra). rewrite H1, H2, <- app_assoc. simpl.
      split; [reflexivity|]. split.
      { rewrite map_map. apply map_ext. intros r. now rewrite <- app_assoc. }
      split.
      { intros c [<-|Hc]; [now apply has_col_not_In|].
        intros Hin. apply (H3 c Hc). apply in_or_app. now left. }
      split.
      { constructor; [|assumption]. intros Hin. apply (H3 n Hin).
        apply in_or_app. right. now left. }
      intros c [<-|Hc].
      * apply in_or_app. right. now left.
      * specialize (H5 c Hc). rewrite <- app_assoc in H5. exact H5.
Qed.

Lemma ensure_same names df :
  (forall c, In c names -> In c (columns df)) -> ensure_all_candidate_cols names df = df.
Proof.
  unfold ensure_all_candidate_cols. revert df.
  induction names as [|n names IH]; intros df H; simpl; [reflexivity|].
  assert (E : has_col n (columns df) = true) by (apply has_col_In, H; now left).
  rewrite E. apply IH. intros c Hc. apply H. now right.
Qed.

(** ** The merge on frames *)

Lemma pick_map_in {A B} (ka : A -> cell) (kb : B -> cell) (f : A -> B) k l :
  (forall x, In x l -> kb (f x) = ka x) ->
  pick kb k (map f l) = map f (pick ka k l).
Proof.
  unfold pick. induction l as [|x l IH]; simpl; intros H; [reflexivity|].
  rewrite H by now left. rewrite IH by (intros; apply H; now right).
  destruct (cell_eqb (ka x) k); reflexivity.
Qed.

Lemma pick_In {A} (key : A -> cell) k l x : In x (pick key k l) -> In x l /\ key x = k.
Proof.
  unfold pick. rewrite filter_In. intros [H1 H2]. split; [assumption|].
  now apply cell_eqb_eq.
Qed.


Lemma clean_history_columns H : columns (clean_history H) = columns H.
Proof. unfold clean_history. destruct (col_index "date" (columns H)); reflexivity. Qed.

Lemma concat_columns_In a b c :
  In c (columns a) \/ In c (columns b) -> In c (columns (concat a b)).
Proof.
  unfold concat. simpl. intros H. apply in_or_app.
  destruct (in_dec String.string_dec c (columns a)) as [Hin|Hn]; [now left|].
  right. apply filter_In. split; [tauto|].
  apply negb_true_iff. now apply has_col_not_In.
Qed.

Lemma step3_columns_In names df c :
  c = "date" \/ In c names \/ In c (columns df) -> In c (columns (step3 names df)).
Proof.
  unfold step3. simpl. intros H.
  destruct (in_dec String.string_dec c ("date" :: names)) as [Hin|Hn].
  - simpl in Hin. destruct Hin as [<-|Hin]; [now left|]. right. apply in_or_app. now left.
  - right. apply in_or_app. right. apply filter_In. split.
    + simpl in Hn. destruct H as [->|[H|H]]; tauto.
    + apply negb_true_iff. now apply has_col_not_In.
Qed.

Lemma rows_at_present df d : In d (column df "date") -> rows_at df d <> [].
Proof.
  unfold column, rows_at, rows_with. rewrite in_map_iff. intros (r & Hr & Hin) E.
  assert (In r (List.filter (fun r => cell_eqb (date_of (columns df) r) d) (rows df))).
  { apply filter_In. split; [assumption|]. now apply cell_eqb_eq. }
  rewrite E in H. contradiction.
Qed.



(** ** Idempotence of the merge *)

Lemma set_nth_length {A} i (x : A) l : length (set_nth i x l) = length l.
Proof. revert i. induction l as [|y l IH]; intros [|i]; simpl; auto. Qed.

Lemma nth_set_nth {A} i (x d : A) l : (i < length l)%nat -> nth i (set_nth i x l) d = x.
Proof.
  revert i. induction l as [|y l IH]; intros [|i]; simpl; intros Hi; try lia; auto.
  apply IH. lia.
Qed.

Lemma set_nth_same {A} i (d : A) l : set_nth i (nth i l d) l = l.
Proof.
  revert i. induction l as [|y l IH]; intros [|i]; simpl; auto. now rewrite IH.
Qed.

Lemma nodup_app {A} (l1 l2 : list A) :
  List.NoDup l1 -> List.NoDup l2 -> (forall x, In x l1 -> ~ In x l2) -> List.NoDup (l1 ++ l2).
Proof.
  induction l1 as [|x l1 IH]; simpl; intros N1 N2 D; [assumption|].
  inversion N1; subst. constructor.
  - intros Hin. apply in_app_or in Hin. destruct Hin; [contradiction|].
    apply (D x); auto.
  - apply IH; auto.
Qed.

Lemma filter_none {A} (p : A -> bool) l : (forall x, In x l -> p x = false) -> List.filter p l = [].
Proof.
  induction l as [|x l IH]; simpl; intros H; [reflexivity|].
  rewrite H by now left. apply IH. intros; apply H; now right.
Qed.

Lemma filter_all {A} (p : A -> bool) l : (forall x, In x l -> p x = true) -> List.filter p l = l.
Proof.
  induction l as [|x l IH]; simpl; intros H; [reflexivity|].
  rewrite H by now left. f_equal. apply IH. intros; apply H; now right.
Qed.

Lemma clean_history_rows H r :
  rows_ok H -> has_col "date" (columns H) = true ->
  In r (rows (clean_history H)) ->
  (exists z, date_of (columns H) r = Day z) /\ length r = length (columns H).
Proof.
  intros Hok Hd. unfold clean_history.
  apply has_col_In in Hd. destruct (col_index_In _ _ Hd) as [i Hi]. rewrite Hi. simpl.
  rewrite in_flat_map. intros (r0 & Hr0 & Hin).
  unfold rows_ok in Hok. rewrite List.Forall_forall in Hok. specialize (Hok r0 Hr0).
  destruct (to_datetime_coerce (nth i r0 NaN)) as [z|]; [|contradiction].
  destruct Hin as [<-|[]]. split.
  - exists z. unfold date_of, get_cell. rewrite Hi. apply nth_set_nth.
    apply col_index_Some in Hi. lia.
  - now rewrite set_nth_length.
Qed.

(** Cleaning a history whose dates are all days changes nothing. *)
Lemma clean_history_same df :
  has_col "date" (columns df) = true ->
  (forall r, In r (rows df) -> exists z, date_of (columns df) r = Day z) ->
  clean_history df = df.
Proof.
  intros Hd Hdays. unfold clean_history.
  apply has_col_In in Hd. destruct (col_index_In _ _ Hd) as [i Hi]. rewrite Hi.
  destruct df as [cols rs]. simpl in *. f_equal.
  induction rs as [|r rs IH]; simpl; [reflexivity|].
  destruct (Hdays r (or_introl eq_refl)) as [z Hz].
  unfold date_of, get_cell in Hz. rewrite Hi in Hz. rewrite Hz. simpl.
  rewrite <- Hz at 1. rewrite set_nth_same. f_equal. apply IH.
  intros r' Hr'. apply Hdays. now right.
Qed.

Section Idempotence.

Variables (names : list string) (H W : DataFrame).
Hypothesis names_nodup : List.NoDup names.
Hypothesis date_not_name : ~ In "date" names.
Hypothesis wfH : wf H.
Hypothesis wfW : wf W.
Hypothesis H_nonempty : df_empty H = false.
Hypothesis W_nonempty : df_empty W = false.
Hypothesis H_date : has_col "date" (columns H) = true.
Hypothesis W_date : has_col "date" (columns W) = true.
Hypothesis W_days : dates_ok W.

Let H1 := ensure_all_candidate_cols names (clean_history H).
Let W1 := ensure_all_candidate_cols names W.
Let U := columns (concat H1 W1).
Let F := ("date" :: names) ++ List.filter (fun c => negb (has_col c ("date" :: names))) U.
Let RH := map (fun r => map (get_cell (columns H1) r) U) (rows H1).
Let RW := map (fun r => map (get_cell (columns W1) r) U) (rows W1).
Let L := drop_dups_last (date_of U) (sort_by (date_of U) (RH ++ RW)).



























End Idempotence.


Lemma merge_scenario :
  merge ["A"] history_A window_A
  = mkDF ["date"; "A"]
         [[Day 20089; Num 1]; [Day 20090; Num 2]; [Day 20091; Num 3];
          [Day 20092; Num 40]; [Day 20093; Num 50]; [Day 20094; Num 60];
          [Day 20095; Num 70]; [Day 20096; Num 80]].
Proof. vm_compute. reflexivity. Qed.

Lemma window_A_wf : wf window_A.
Proof.
  split.
  - repeat constructor; simpl; intuition discriminate.
  - repeat constructor.
Qed.

Lemma history_A_wf : wf history_A.
Proof.
  split.
  - repeat constructor; simpl; intuition discriminate.
  - repeat constructor.
Qed.

(** ** Joins keep rows as wide as the labels *)

Lemma rows_with_In cols k l r : In r (rows_with cols k l) -> In r l.
Proof. unfold rows_with. rewrite filter_In. tauto. Qed.

Lemma merge_block_ok a b k r :
  rows_ok a -> In r (merge_block a b k) -> length r = length (merge_columns a b).
Proof.
  intros Hok. unfold rows_ok in Hok. rewrite List.Forall_forall in Hok.
  unfold merge_block, merge_columns.
  assert (Hl : forall l, In l (rows_with (columns a) k (rows a)) ->
                         length l = length (columns a))
    by (intros l Hl; apply Hok; now apply rows_with_In in Hl).
  destruct (rows_with (columns a) k (rows a)) as [|l0 ls] eqn:El;
    destruct (rows_with (columns b) k (rows b)) as [|r0 rs] eqn:Er.
  - intros [].
  - rewrite in_map_iff. intros (x & <- & _).
    unfold left_only, right_part. now rewrite !length_app, !length_map.
  - rewrite in_map_iff. intros (x & <- & Hx).
    unfold holes. rewrite !length_app, repeat_length, length_map. now rewrite (Hl x Hx).
  - rewrite in_flat_map. intros (x & Hx & Hin). apply in_map_iff in Hin.
    destruct Hin as (y & <- & _). unfold right_part.
    rewrite !length_app, !length_map. now rewrite (Hl x Hx).
Qed.

Lemma merge_outer_ok a b : rows_ok a -> rows_ok (merge_outer a b).
Proof.
  intros Hok. unfold rows_ok, merge_outer. simpl. apply List.Forall_forall.
  intros r Hr. apply in_flat_map in Hr. destruct Hr as (k & _ & Hr).
  now apply (merge_block_ok a b k).
Qed.

Lemma join_all_ok more first : rows_ok first -> rows_ok (fold_left merge_outer more first).
Proof.
  revert first. induction more as [|b more IH]; simpl; intros first Hok; [assumption|].
  apply IH. now apply merge_outer_ok.
Qed.

Lemma all_some_In {A} (l : list (option A)) (l' : list A) :
  all_some l = Some l' -> l = map Some l'.
Proof.
  revert l'. induction l as [|[x|] l IH]; simpl; intros l' H.
  - now inversion H.
  - destruct (all_some l) as [t|]; simpl in H; [|discriminate].
    inversion H; subst. simpl. now rewrite (IH t eq_refl).
  - discriminate.
Qed.

(** The date conversion keeps the labels and rewrites only the date cell. *)
Lemma dates_to_date_shape df out :
  dates_to_date df = Some out ->
  columns out = columns df
  /\ exists i, col_index "date" (columns df) = Some i
     /\ Forall2 (fun r r' => exists c, to_date (nth i r NaN) = Some c /\ r' = set_nth i c r)
                (rows df) (rows out).
Proof.
  unfold dates_to_date. destruct (col_index "date" (columns df)) as [i|]; [|discriminate].
  destruct (all_some _) as [rs|] eqn:E; simpl; [|discriminate].
  intros [= <-]. simpl. split; [reflexivity|]. exists i. split; [reflexivity|].
  apply all_some_In in E. revert rs E.
  induction (rows df) as [|r l IH]; simpl; intros rs E.
  - destruct rs; [constructor | discriminate].
  - destruct rs as [|r' rs]; [discriminate|]. simpl in E. inversion E as [[E1 E2]].
    constructor; [|now apply IH].
    destruct (to_date (nth i r NaN)) as [c|]; simpl in E1; [|discriminate].
    inversion E1. eauto.
Qed.

Lemma dates_to_date_ok df out : dates_to_date df = Some out -> rows_ok df -> rows_ok out.
Proof.
  intros H Hok. destruct (dates_to_date_shape df out H) as (Hc & i & _ & HF).
  unfold rows_ok in *. rewrite Hc. clear H Hc.
  induction HF as [|r r' l l' (c & _ & ->) _ IH]; [constructor|].
  inversion Hok; subst. constructor; [|now apply IH].
  now rewrite set_nth_length.
Qed.

(** On a date the right frame lacks, the join leaves holes under its labels. *)
Lemma join_leaves_holes a b k :
  rows_with (columns b) k (rows b) = [] ->
  merge_block a b k
  = map (fun l => l ++ holes (length (others (columns b))))
        (rows_with (columns a) k (rows a)).
Proof.
  unfold merge_block. intros ->.
  destruct (rows_with (columns a) k (rows a)); reflexivity.
Qed.

(** ** Row maximum *)

Lemma fold_max_ge (l : list Z) (v : Z) : v <= fold_left Z.max l v.
Proof.
  revert v. induction l as [|x l IH]; simpl; intros v; [lia|].
  specialize (IH (Z.max v x)). lia.
Qed.

Lemma fold_max_bound (l : list Z) (v x : Z) : In x l -> x <= fold_left Z.max l v.
Proof.
  revert v. induction l as [|y l IH]; simpl; intros v; [easy|].
  intros [->|H]; [|now apply IH].
  pose proof (fold_max_ge l (Z.max v x)). lia.
Qed.

Lemma fold_max_In (l : list Z) (v : Z) : In (fold_left Z.max l v) (v :: l).
Proof.
  revert v. induction l as [|y l IH]; simpl; intros v; [now left|].
  destruct (IH (Z.max v y)) as [E|H]; [|now right; right].
  rewrite <- E. destruct (Z.max_spec v y) as [[_ ->]|[_ ->]]; [right; now left | now left].
Qed.

Lemma numbers_of_In (l : list cell) (v : Z) : In v (numbers_of l) <-> In (Num v) l.
Proof.
  unfold numbers_of. rewrite in_flat_map. split.
  - intros (c & Hc & Hv). destruct c; simpl in Hv; try contradiction.
    destruct Hv as [<-|[]]. assumption.
  - intros H. exists (Num v). split; [assumption | now left].
Qed.

(** [series_max] is the largest number of the series. *)
Lemma series_max_spec (l : list cell) (v : Z) :
  series_max l = Some v -> In (Num v) l /\ forall w, In (Num w) l -> w <= v.
Proof.
  unfold series_max. destruct (numbers_of l) as [|x xs] eqn:E; [discriminate|].
  intros [= <-]. split.
  - apply numbers_of_In. rewrite E. apply fold_max_In.
  - intros w Hw. apply numbers_of_In in Hw. rewrite E in Hw.
    destruct Hw as [<-|Hw]; [apply fold_max_ge | now apply fold_max_bound].
Qed.

Lemma row_max_spec all cols r v :
  row_max all cols r = Num v ->
  (exists c, In c cols /\ get_cell all r c = Num v)
  /\ forall c w, In c cols -> get_cell all r c = Num w -> w <= v.
Proof.
  unfold row_max. destruct (series_max _) as [m|] eqn:E; [|discriminate].
  intros [= <-]. apply series_max_spec in E. destruct E as [Hin Hmax]. split.
  - apply in_map_iff in Hin. destruct Hin as (c & Hc & Hin). eauto.
  - intros c w Hc Hw. apply Hmax. rewrite <- Hw. now apply in_map.
Qed.

Lemma row_max_pair all A B r a b :
  get_cell all r A = Num a -> get_cell all r B = Num b ->
  row_max all [A; B] r = Num (Z.max a b).
Proof. intros HA HB. unfold row_max, series_max. simpl. now rewrite HA, HB. Qed.

(** ** The candidate's series *)

Lemma nth_set_nth_ne {A} i j (x d : A) l : i <> j -> nth j (set_nth i x l) d = nth j l d.
Proof.
  revert i j. induction l as [|y l IH]; intros [|i] [|j] H; simpl; auto; try lia.
Qed.

Lemma col_index_snoc c cols : ~ In c cols -> col_index c (cols ++ [c]) = Some (length cols).
Proof.
  induction cols as [|x cols IH]; simpl; intros H.
  - destruct (String.string_dec c c); [reflexivity | contradiction].
  - destruct (String.string_dec x c) as [->|_]; [exfalso; apply H; now left|].
    rewrite IH by tauto. reflexivity.
Qed.

(** After [df[cname] = f(row)] and the selection of [date] and [cname], each
    row is its date and the computed value. *)
Lemma assign_then_select cname f df :
  cname <> "date" -> rows_ok df -> In "date" (columns df) ->
  rows (reindex ["date"; cname] (assign_rowwise cname f df))
  = map (fun r => [date_of (columns df) r; f r]) (rows df).
Proof.
  intros Hne Hok Hd. unfold rows_ok in Hok. rewrite List.Forall_forall in Hok.
  destruct (col_index_In _ _ Hd) as [j Hj].
  unfold assign_rowwise. destruct (col_index cname (columns df)) as [i|] eqn:Hi.
  - unfold reindex. simpl. rewrite map_map. apply map_ext_in. intros r Hr.
    unfold date_of, get_cell. rewrite Hj, Hi.
    destruct (col_index_Some _ _ _ Hi) as [Hlt Hn]. destruct (col_index_Some _ _ _ Hj) as [_ Hm].
    rewrite nth_set_nth by (rewrite (Hok r Hr); exact Hlt).
    rewrite nth_set_nth_ne; [reflexivity|]. intros ->. congruence.
  - unfold reindex. simpl. rewrite map_map. apply map_ext_in. intros r Hr.
    apply col_index_None in Hi.
    f_equal; [|f_equal].
    + unfold date_of. now apply get_cell_padded; [|apply Hok].
    + unfold get_cell. rewrite col_index_snoc by assumption.
      rewrite app_nth2 by (rewrite (Hok r Hr); lia).
      now rewrite (Hok r Hr), Nat.sub_diag.
Qed.

(** The series of a candidate holds, for each row of the date-joined frames
    of its aliases, the date and the row maximum over the alias columns. *)
Lemma alias_maximum_rows (cname : string) (series : list DataFrame) (res : DataFrame) :
  cname <> "date" ->
  Forall rows_ok series ->
  combine_aliases cname series = Some res ->
  exists merged,
    joined series = Some merged
    /\ columns res = ["date"; cname]
    /\ rows res = map (fun r => [date_of (columns merged) r;
                                 row_max (columns merged) (alias_cols merged) r])
                      (rows merged)
    /\ (forall r A B a b,
          alias_cols merged = [A; B] ->
          get_cell (columns merged) r A = Num a ->
          get_cell (columns merged) r B = Num b ->
          row_max (columns merged) (alias_cols merged) r = Num (Z.max a b))
    /\ (forall r v,
          row_max (columns merged) (alias_cols merged) r = Num v ->
          (exists c, In c (alias_cols merged) /\ get_cell (columns merged) r c = Num v)
          /\ forall c w, In c (alias_cols merged) ->
                         get_cell (columns merged) r c = Num w -> w <= v).
Proof.
  intros Hne Hok. unfold combine_aliases, joined.
  destruct series as [|first more]; [discriminate|].
  destruct (negb _); [discriminate|].
  destruct (dates_to_date (fold_left merge_outer more first)) as [merged|] eqn:Ed; [|discriminate].
  destruct (alias_cols merged) as [|c0 cs] eqn:Ea; [discriminate|].
  intros [= <-]. exists merged. split; [reflexivity|]. split; [reflexivity|].
  assert (Mok : rows_ok merged).
  { apply (dates_to_date_ok _ _ Ed), join_all_ok. now inversion Hok. }
  assert (Md : In "date" (columns merged)).
  { destruct (dates_to_date_shape _ _ Ed) as (Hc & i & Hi & _). rewrite Hc.
    destruct (col_index_Some _ _ _ Hi) as [Hlt <-]. now apply nth_In. }
  rewrite Ea.
  split; [now apply assign_then_select|]. split.
  - intros r A B a b [= -> ->] HA HB. now apply row_max_pair.
  - intros r v Hv. now apply row_max_spec.
Qed.

(** ** Assembly of the window *)

Lemma fillna0_cell cols numeric r c :
  In c cols -> length r = length cols ->
  get_cell cols
    (map (fun cv : string * cell =>
            if has_col (fst cv) numeric && isna (snd cv) then Num 0 else snd cv)
         (List.combine cols r)) c
  = if has_col c numeric && isna (get_cell cols r c) then Num 0 else get_cell cols r c.
Proof.
  intros Hc Hlen. destruct (col_index_In _ _ Hc) as [i Hi].
  unfold get_cell. rewrite Hi. destruct (col_index_Some _ _ _ Hi) as [Hlt Hn].
  set (g := fun cv : string * cell =>
              if has_col (fst cv) numeric && isna (snd cv) then Num 0 else snd cv).
  rewrite (nth_indep _ NaN (g ("", NaN))).
  2:{ rewrite length_map, length_combine. lia. }
  rewrite map_nth, combine_nth by (symmetry; exact Hlen).
  unfold g. simpl. now rewrite Hn.
Qed.

Lemma select_numeric_has df c :
  In c (columns df) -> has_col c (select_numeric df) = numeric_col df c.
Proof.
  intros Hc. unfold select_numeric.
  destruct (numeric_col df c) eqn:E.
  - apply has_col_In. apply filter_In. now split.
  - apply has_col_not_In. intros Hin. apply filter_In in Hin. destruct Hin. congruence.
Qed.

Lemma sort_values_ok df : rows_ok df -> rows_ok (sort_values_date df).
Proof.
  unfold rows_ok, sort_values_date. simpl. intros H.
  eapply Permutation_Forall; [apply sort_by_perm | exact H].
Qed.

(** In the assembled window each row comes from a row of the date-joined,
    date-sorted series, every label is kept, and under every numeric label a
    hole left by the join shows as the number 0 while other cells are
    unchanged; so no cell of a numeric column is a hole. *)
Lemma fillna_zero_cells (names : list string) (frames : list DataFrame)
        (out : DataFrame) :
  Forall rows_ok frames ->
  frames <> [] ->
  assemble names frames = Some out ->
  exists merged g,
    joined frames = Some merged
    /\ rows out = map g (rows (sort_values_date merged))
    /\ forall r c,
         In r (rows (sort_values_date merged)) -> In c (columns merged) ->
         In c (columns out)
         /\ get_cell (columns out) (g r) c
            = (if numeric_col (sort_values_date merged) c
                  && isna (get_cell (columns merged) r c)
               then Num 0 else get_cell (columns merged) r c)
         /\ (numeric_col (sort_values_date merged) c = true ->
             exists v, get_cell (columns out) (g r) c = Num v).
Proof.
  intros Hok Hne. unfold assemble, joined.
  destruct frames as [|first more]; [contradiction|].
  destruct (negb _); [discriminate|].
  destruct (dates_to_date (fold_left merge_outer more first)) as [merged|] eqn:Ed; [|discriminate].
  intros [= <-].
  set (sorted := sort_values_date merged).
  set (filled := fillna0 (select_numeric sorted) sorted).
  set (cols := "date" :: names).
  set (new := List.filter (fun c => has_col c (columns filled)) cols
              ++ List.filter (fun c => negb (has_col c cols)) (columns filled)).
  assert (Sok : rows_ok sorted).
  { apply sort_values_ok, (dates_to_date_ok _ _ Ed), join_all_ok. now inversion Hok. }
  exists merged.
  exists (fun r => map (get_cell (columns filled)
                         (map (fun cv : string * cell =>
                                 if has_col (fst cv) (select_numeric sorted) && isna (snd cv)
                                 then Num 0 else snd cv)
                              (List.combine (columns sorted) r))) new).
  split; [reflexivity|]. split.
  { unfold filled, fillna0, reindex. cbn [rows columns]. rewrite map_map. reflexivity. }
  intros r c Hr Hc.
  assert (Hnew : In c new).
  { unfold new. apply in_or_app.
    destruct (in_dec String.string_dec c cols) as [Hin|Hn].
    - left. apply filter_In. split; [assumption|]. now apply has_col_In.
    - right. apply filter_In. split; [assumption|].
      apply negb_true_iff. now apply has_col_not_In. }
  assert (Hlen : length r = length (columns merged)).
  { unfold rows_ok in Sok. rewrite List.Forall_forall in Sok. now apply (Sok r). }
  assert (Hcell : get_cell new
                    (map (get_cell (columns filled)
                            (map (fun cv : string * cell =>
                                    if has_col (fst cv) (select_numeric sorted) && isna (snd cv)
                                    then Num 0 else snd cv)
                                 (List.combine (columns sorted) r))) new) c
                  = if numeric_col sorted c && isna (get_cell (columns merged) r c)
                    then Num 0 else get_cell (columns merged) r c).
  { rewrite get_cell_align by assumption.
    change (columns filled) with (columns merged). change (columns sorted) with (columns merged).
    rewrite fillna0_cell by assumption.
    now rewrite (select_numeric_has sorted c Hc). }
  split; [exact Hnew|]. split; [exact Hcell|].
  intros Hnum. fold sorted in Hnum.
  assert (Hv : exists v, (if numeric_col sorted c && isna (get_cell (columns merged) r c)
                          then Num 0 else get_cell (columns merged) r c) = Num v).
  { rewrite Hnum. simpl.
    destruct (isna (get_cell (columns merged) r c)) eqn:Ena; [eauto|].
    unfold numeric_col in Hnum. rewrite forallb_forall in Hnum.
    assert (Hin : In (get_cell (columns merged) r c) (column sorted c)).
    { unfold column. apply in_map_iff. exists r. split; [reflexivity | exact Hr]. }
    specialize (Hnum _ Hin).
    destruct (get_cell (columns merged) r c); simpl in *; try discriminate. eauto. }
  destruct Hv as [v Hv]. exists v. etransitivity; [exact Hcell | exact Hv].
Qed.

Lemma batch_matthei_ok : Forall rows_ok [batch_matthei].
Proof. repeat constructor. Qed.

(** A day on which a candidate has no data reads 0 in the window. *)
Lemma window_zero_for_missing :
  assemble ["A"; "B"] [series_A; series_B]
  = Some (mkDF ["date"; "A"; "B"]
               [[Day 20089; Num 10; Num 0]; [Day 20090; Num 25; Num 7];
                [Day 20091; Num 0; Num 9]]).
Proof. vm_compute. reflexivity. Qed.



(** ** Days without data *)

Lemma get_cell_map cols (g : string -> cell) c :
  In c cols -> get_cell cols (map g cols) c = g c.
Proof.
  intros H. destruct (col_index_In c cols H) as [i Hi].
  unfold get_cell. rewrite Hi. destruct (col_index_Some c cols i Hi) as [Hlt Hnth].
  rewrite (nth_indep _ NaN (g "")) by now rewrite length_map.
  rewrite map_nth. now rewrite Hnth.
Qed.

Lemma get_cell_last cols r c v :
  ~ In c cols -> length r = length cols -> get_cell (cols ++ [c]) (r ++ [v]) c = v.
Proof.
  intros Hc Hlen. unfold get_cell. rewrite col_index_snoc by assumption.
  rewrite app_nth2 by lia. now rewrite Hlen, Nat.sub_diag.
Qed.

Lemma others_date_cons cs : ~ In "date" cs -> others ("date" :: cs) = cs.
Proof.
  intros H. unfold others. simpl. apply filter_all. intros c Hc.
  destruct (String.string_dec c "date") as [->|]; [contradiction | reflexivity].
Qed.

Lemma others_series c : c <> "date" -> others ["date"; c] = [c].
Proof.
  intros H. unfold others. simpl. destruct (String.string_dec c "date"); [contradiction|reflexivity].
Qed.

Lemma get_cell_series_date c d v : get_cell ["date"; c] [d; v] "date" = d.
Proof.
  unfold get_cell. cbn [col_index].
  destruct (String.string_dec "date" "date"); [reflexivity | contradiction].
Qed.

Lemma get_cell_series_value c d v : c <> "date" -> get_cell ["date"; c] [d; v] c = v.
Proof.
  intros H. unfold get_cell. cbn [col_index].
  destruct (String.string_dec "date" c) as [E|_]; [symmetry in E; contradiction|].
  destruct (String.string_dec c c); [reflexivity | contradiction].
Qed.

Lemma series_row c f r :
  is_series c f -> In r (rows f) ->
  exists z v, r = [Day z; v] /\ is_number v = true /\ In (Day z) (column f "date").
Proof.
  intros [Hc Hr] Hin. rewrite List.Forall_forall in Hr.
  destruct (Hr r Hin) as (z & v & -> & Hv). exists z, v. repeat split; auto.
  unfold column. apply in_map_iff. exists [Day z; v]. split; [|assumption].
  rewrite Hc. apply get_cell_series_date.
Qed.

(** The rows of one block of the join of [acc] with a series. *)
Lemma merge_block_series acc f c k r' :
  is_series c f -> c <> "date" ->
  In r' (merge_block acc f k) ->
  (exists l v, r' = l ++ [v] /\ In l (rows acc) /\ date_of (columns acc) l = k
               /\ is_number v = true
               /\ (In k (column f "date") \/ v = NaN))
  \/ (exists v, r' = left_only acc k ++ [v] /\ is_number v = true
                /\ In k (column f "date")).
Proof.
  intros Hs Hne. pose proof Hs as [Hc _]. unfold merge_block.
  assert (Hright : forall r, In r (rows_with (columns f) k (rows f)) ->
            exists v, right_part f r = [v] /\ is_number v = true /\ In k (column f "date")).
  { intros r Hr. unfold rows_with in Hr. apply filter_In in Hr. destruct Hr as [Hr Hk].
    apply cell_eqb_eq in Hk.
    destruct (series_row c f r Hs Hr) as (z & v & -> & Hv & Hin).
    exists v. unfold right_part. rewrite Hc, others_series by assumption.
    rewrite Hc in Hk. unfold date_of in Hk. rewrite get_cell_series_date in Hk. subst k.
    split; [|split; assumption].
    cbn [map]. now rewrite get_cell_series_value. }
  assert (Hleft : forall l, In l (rows_with (columns acc) k (rows acc)) ->
            In l (rows acc) /\ date_of (columns acc) l = k).
  { intros l Hl. unfold rows_with in Hl. apply filter_In in Hl. destruct Hl as [Hl Hk].
    apply cell_eqb_eq in Hk. now split. }
  destruct (rows_with (columns acc) k (rows acc)) as [|l0 ls] eqn:El;
    destruct (rows_with (columns f) k (rows f)) as [|r0 rs] eqn:Er.
  - intros [].
  - rewrite in_map_iff. intros (r & <- & Hr). right.
    destruct (Hright r Hr) as (v & -> & Hv & Hin). eauto.
  - rewrite in_map_iff. intros (l & <- & Hl). left.
    destruct (Hleft l Hl) as [Hl1 Hl2].
    exists l, NaN. rewrite Hc, others_series by assumption.
    split; [reflexivity|]. repeat split; auto.
  - rewrite in_flat_map. intros (l & Hl & Hin). apply in_map_iff in Hin.
    destruct Hin as (r & <- & Hr). left.
    destruct (Hleft l Hl) as [Hl1 Hl2]. destruct (Hright r Hr) as (v & -> & Hv & Hin).
    exists l, v. repeat split; auto.
Qed.

Lemma joined_ok_step acc done c f :
  joined_ok acc done ->
  is_series c f -> c <> "date" ->
  ~ In "date" (map fst done) -> ~ In c (map fst done) ->
  joined_ok (merge_outer acc f) (done ++ [(c, f)]).
Proof.
  intros (Hcols & Hok & Hrows) Hs Hne Hd Hc.
  pose proof Hs as [Hfc _].
  assert (Hnew : columns (merge_outer acc f) = columns acc ++ [c]).
  { unfold merge_outer, merge_columns. simpl. rewrite Hfc, others_series by assumption.
    simpl. unfold suffixed. rewrite Hcols, others_date_cons by assumption.
    assert (E : has_col c (map fst done) = false) by now apply has_col_not_In.
    now rewrite E. }
  assert (Hc' : ~ In c (columns acc)).
  { rewrite Hcols. intros [E|Hin]; [symmetry in E|]; contradiction. }
  assert (Hdate : In "date" (columns acc)) by (rewrite Hcols; now left).
  split; [|split].
  - rewrite Hnew, Hcols, map_app. reflexivity.
  - now apply merge_outer_ok.
  - intros r' Hr'. rewrite Hnew.
    unfold merge_outer in Hr'. simpl in Hr'. apply in_flat_map in Hr'.
    destruct Hr' as (k & _ & Hr').
    unfold rows_ok in Hok. rewrite List.Forall_forall in Hok.
    destruct (merge_block_series acc f c k r' Hs Hne Hr')
      as [(l & v & -> & Hl & Hk & Hv & Hcase) | (v & -> & Hv & Hin)].
    + specialize (Hok l Hl). destruct (Hrows l Hl) as [[z Hz] Hold].
      assert (Hdl : date_of (columns acc ++ [c]) (l ++ [v]) = date_of (columns acc) l)
        by (unfold date_of; now apply get_cell_padded).
      split; [exists z; now rewrite Hdl|].
      intros c0 f0 Hin0. apply in_app_or in Hin0. destruct Hin0 as [Hin0|[[= <- <-]|[]]].
      * assert (In c0 (columns acc)).
        { rewrite Hcols. right. apply in_map_iff. exists (c0, f0). now split. }
        rewrite get_cell_padded, Hdl by assumption. now apply Hold.
      * rewrite get_cell_last, Hdl by assumption. split; [assumption|].
        intros Hnot. destruct Hcase as [Hin | ->]; [|reflexivity].
        rewrite Hk in Hnot. contradiction.
    + assert (Hlen : length (left_only acc k) = length (columns acc))
        by (unfold left_only; apply length_map).
      assert (Hdl : date_of (columns acc ++ [c]) (left_only acc k ++ [v]) = k).
      { unfold date_of. rewrite get_cell_padded by assumption.
        unfold left_only. rewrite get_cell_map by assumption.
        destruct (String.string_dec "date" "date"); [reflexivity | contradiction]. }
      split.
      { rewrite Hdl. unfold column in Hin. apply in_map_iff in Hin.
        destruct Hin as (r & <- & Hr).
        destruct (series_row c f r Hs Hr) as (z & v' & -> & _ & _).
        exists z. rewrite Hfc. apply get_cell_series_date. }
      intros c0 f0 Hin0. apply in_app_or in Hin0. destruct Hin0 as [Hin0|[[= <- <-]|[]]].
      * assert (Hc0 : In c0 (columns acc)).
        { rewrite Hcols. right. apply in_map_iff. exists (c0, f0). now split. }
        rewrite get_cell_padded by assumption.
        unfold left_only. rewrite get_cell_map by assumption.
        destruct (String.string_dec c0 "date") as [->|_].
        -- exfalso. apply Hd. apply in_map_iff. exists ("date", f0). now split.
        -- split; reflexivity.
      * rewrite get_cell_last, Hdl by assumption. split; [assumption|].
        intros Hnot. contradiction.
Qed.

Lemma joined_ok_first c f : is_series c f -> c <> "date" -> joined_ok f [(c, f)].
Proof.
  intros Hs Hne. pose proof Hs as [Hc Hr]. rewrite List.Forall_forall in Hr.
  split; [exact Hc|]. split.
  - unfold rows_ok. apply List.Forall_forall. intros r Hin.
    destruct (Hr r Hin) as (z & v & -> & _). now rewrite Hc.
  - intros r Hin. destruct (series_row c f r Hs Hin) as (z & v & -> & Hv & Hd).
    rewrite Hc. unfold date_of. rewrite get_cell_series_date.
    split; [eauto|]. intros c0 f0 [[= <- <-]|[]].
    rewrite get_cell_series_value by assumption. split; [assumption|].
    intros Hnot. contradiction.
Qed.

Lemma joined_ok_fold more acc done :
  joined_ok acc done ->
  Forall (fun cf : string * DataFrame => is_series (fst cf) (snd cf)) more ->
  List.NoDup (map fst (done ++ more)) ->
  ~ In "date" (map fst (done ++ more)) ->
  joined_ok (fold_left merge_outer (map snd more) acc) (done ++ more).
Proof.
  revert acc done. induction more as [|[c f] more IH]; intros acc done Hok Hs Hnd Hd.
  - simpl. now rewrite app_nil_r.
  - simpl. inversion Hs as [|? ? Hcf Hs']; subst. simpl in Hcf.
    replace (done ++ (c, f) :: more) with ((done ++ [(c, f)]) ++ more) in *
      by now rewrite <- app_assoc.
    apply IH; try assumption.
    rewrite !map_app in Hnd, Hd. simpl in Hnd, Hd.
    apply joined_ok_step; try assumption.
    + intros ->. apply Hd. apply in_or_app. left. apply in_or_app. right. now left.
    + intros Hin. apply Hd. apply in_or_app. left. apply in_or_app. now left.
    + intros Hin. apply NoDup_app_remove_r in Hnd.
      apply NoDup_remove_2 in Hnd. apply Hnd. rewrite app_nil_r. exact Hin.
Qed.

Lemma all_some_map_Some {A} (l : list A) : all_some (map Some l) = Some l.
Proof. induction l as [|x l IH]; simpl; [reflexivity|]. now rewrite IH. Qed.

(** On a frame whose dates are days the date conversion changes nothing. *)
Lemma dates_to_date_days df :
  In "date" (columns df) ->
  (forall r, In r (rows df) -> exists z, date_of (columns df) r = Day z) ->
  dates_to_date df = Some df.
Proof.
  intros Hd Hdays. unfold dates_to_date.
  destruct (col_index_In _ _ Hd) as [i Hi]. rewrite Hi.
  replace (map (fun r => option_map (fun c => set_nth i c r) (to_date (nth i r NaN))) (rows df))
    with (map Some (rows df)).
  - rewrite all_some_map_Some. destruct df; reflexivity.
  - apply map_ext_in. intros r Hr. destruct (Hdays r Hr) as [z Hz].
    unfold date_of, get_cell in Hz. rewrite Hi in Hz. rewrite Hz. simpl.
    rewrite <- Hz. now rewrite set_nth_same.
Qed.

(** Every candidate cell of the assembled window is a number, and it is 0 on
    a date the candidate's series lacks. *)
Lemma zero_cells (names : list string) (srcs : list (string * DataFrame)) :
  srcs <> [] ->
  Forall (fun cf : string * DataFrame => is_series (fst cf) (snd cf)) srcs ->
  List.NoDup (map fst srcs) ->
  ~ In "date" (map fst srcs) ->
  exists out,
    assemble names (map snd srcs) = Some out
    /\ forall r c f, In r (rows out) -> In (c, f) srcs ->
         exists v, get_cell (columns out) r c = Num v
                   /\ (~ In (date_of (columns out) r) (column f "date") -> v = 0).
Proof.
  intros Hne Hs Hnd Hd.
  destruct srcs as [|[c1 f1] more]; [contradiction|].
  inversion Hs as [|? ? Hs1 Hs']; subst. simpl in Hs1.
  assert (Hc1 : c1 <> "date") by (intros ->; apply Hd; now left).
  pose proof (joined_ok_fold more f1 [(c1, f1)] (joined_ok_first c1 f1 Hs1 Hc1) Hs' Hnd Hd)
    as HJ.
  simpl app in HJ.
  set (J := fold_left merge_outer (map snd more) f1) in *.
  destruct HJ as (Jcols & Jok & Jrows).
  assert (Jdate : In "date" (columns J)) by (rewrite Jcols; now left).
  assert (Jconv : dates_to_date J = Some J).
  { apply dates_to_date_days; [assumption|]. intros r Hr. now destruct (Jrows r Hr). }
  assert (Hguard : forallb (fun df => has_col "date" (columns df))
                           (map snd ((c1, f1) :: more)) = true).
  { apply forallb_forall. intros df Hdf. apply in_map_iff in Hdf.
    destruct Hdf as ([c f] & <- & Hin). rewrite List.Forall_forall in Hs.
    destruct (Hs (c, f) Hin) as [Hc _]. cbn [fst snd] in *. rewrite Hc. reflexivity. }
  assert (Hout : exists out, assemble names (map snd ((c1, f1) :: more)) = Some out).
  { unfold assemble. cbn [map snd]. cbn [map snd] in Hguard. rewrite Hguard.
    cbn [negb]. fold J. rewrite Jconv. eexists. reflexivity. }
  destruct Hout as [out Hout]. exists out. split; [exact Hout|].
  assert (Hoks : Forall rows_ok (map snd ((c1, f1) :: more))).
  { apply List.Forall_forall. intros df Hdf. apply in_map_iff in Hdf.
    destruct Hdf as ([c f] & <- & Hin). rewrite List.Forall_forall in Hs.
    pose proof (Hs (c, f) Hin) as Hcf. cbn [fst snd] in Hcf |- *.
    assert (Hcd : c <> "date").
    { intros ->. apply Hd. apply in_map_iff. exists ("date", f). now split. }
    now destruct (joined_ok_first c f Hcf Hcd) as (_ & Hfok & _). }
  destruct (fillna_zero_cells names (map snd ((c1, f1) :: more)) out Hoks
              ltac:(discriminate) Hout) as (merged & g & Hj & Hrows & Hcells).
  assert (merged = J).
  { unfold joined in Hj. cbn [map snd] in Hj. fold J in Hj. rewrite Jconv in Hj. congruence. }
  subst merged.
  intros r' c f Hr' Hcf. rewrite Hrows in Hr'. apply in_map_iff in Hr'.
  destruct Hr' as (r & <- & Hr).
  assert (HrJ : In r (rows J)).
  { unfold sort_values_date in Hr. simpl in Hr.
    eapply Permutation_in; [symmetry; apply sort_by_perm | exact Hr]. }
  assert (Hc : In c (columns J)).
  { rewrite Jcols. right. apply in_map_iff. exists (c, f). now split. }
  destruct (Jrows r HrJ) as [[z Hz] Hsrc]. destruct (Hsrc c f Hcf) as [Hnum Hmiss].
  destruct (Hcells r c Hr Hc) as (_ & Hcell & _).
  destruct (Hcells r "date" Hr Jdate) as (_ & Hdcell & _).
  assert (Hdate_out : date_of (columns out) (g r) = Day z).
  { unfold date_of in *. rewrite Hdcell, Hz. simpl. now rewrite andb_false_r. }
  assert (Hcol : numeric_col (sort_values_date J) c = true).
  { unfold numeric_col, column. apply forallb_forall. intros x Hx.
    apply in_map_iff in Hx. destruct Hx as (r0 & <- & Hr0).
    assert (In r0 (rows J)).
    { unfold sort_values_date in Hr0. simpl in Hr0.
      eapply Permutation_in; [symmetry; apply sort_by_perm | exact Hr0]. }
    destruct (Jrows r0 H) as [_ H0]. now destruct (H0 c f Hcf). }
  rewrite Hcell, Hcol, Hdate_out. simpl.
  destruct (get_cell (columns J) r c) eqn:Eg; simpl in *; try discriminate.
  - exists 0. split; reflexivity.
  - exists v. split; [reflexivity|]. intros Hnot. rewrite <- Hz in Hnot.
    specialize (Hmiss Hnot). discriminate.
Qed.

Lemma series_AB_are_series :
  Forall (fun cf : string * DataFrame => is_series (fst cf) (snd cf))
         [("A", series_A); ("B", series_B)].
Proof.
  repeat constructor; simpl; eauto.
Qed.

(** ** The configured candidates *)

(** The candidate names are distinct, none of them is [date], and every
    candidate has at most five aliases, hence a single batch. *)
Lemma candidates_hardened_ok :
  List.NoDup (map fst CANDIDATES_hardened)
  /\ ~ In "date" (map fst CANDIDATES_hardened)
  /\ Forall (fun c => alias_batches (snd c) = [snd c]) CANDIDATES_hardened.
Proof.
  split; [|split].
  - repeat constructor; simpl; intuition discriminate.
  - simpl. intuition discriminate.
  - repeat constructor.
Qed.

Lemma candidates_simple_ok :
  List.NoDup (map fst CANDIDATES_simple)
  /\ ~ In "date" (map fst CANDIDATES_simple)
  /\ Forall (fun c => alias_batches (snd c) = [snd c]) CANDIDATES_simple.
Proof.
  split; [|split].
  - repeat constructor; simpl; intuition discriminate.
  - simpl. intuition discriminate.
  - repeat constructor.
Qed.

(** With the network down for the whole run, every batch of every candidate
    is dropped and [fetch_last_90_days] returns the empty frame. *)
Lemma outage_gives_empty_window :
  (fetch_last_90_days service_down CANDIDATES_hardened world_at_start).1
  = Returns empty_frame.
Proof. vm_compute. reflexivity. Qed.

(** * Further properties *)

(** ** The merge: dates, rows and labels *)

Lemma rows_at_absent df d : ~ In d (column df "date") -> rows_at df d = [].
Proof.
  intros H. unfold rows_at, rows_with. apply filter_none. intros r Hr.
  destruct (cell_eqb (date_of (columns df) r) d) eqn:E; [|reflexivity].
  apply cell_eqb_eq in E. exfalso. apply H. unfold column. apply in_map_iff.
  exists r. split; assumption.
Qed.

Lemma rows_at_In df d r : In r (rows_at df d) -> In r (rows df) /\ date_of (columns df) r = d.
Proof.
  unfold rows_at, rows_with. rewrite filter_In. intros [H1 H2]. split; [assumption|].
  now apply cell_eqb_eq.
Qed.

Lemma in_dates_iff df d : In d (column df "date") <-> rows_at df d <> [].
Proof.
  split; [apply rows_at_present|].
  intros H. destruct (rows_at df d) as [|r l] eqn:E; [contradiction|].
  assert (Hr : In r (rows_at df d)) by (rewrite E; now left).
  apply rows_at_In in Hr. destruct Hr as [Hr <-].
  unfold column. apply in_map_iff. exists r. split; [reflexivity | assumption].
Qed.

Lemma final_nil_iff {A} (l : list A) : final l = [] <-> l = [].
Proof.
  unfold final. split.
  - destruct (rev l) eqn:E; [|discriminate]. intros _.
    apply (f_equal (@rev A)) in E. now rewrite rev_involutive in E.
  - intros ->. reflexivity.
Qed.

Section MergeFacts.

Variables (names : list string) (H W : DataFrame).
Hypothesis H_nonempty : df_empty H = false.
Hypothesis H_date : has_col "date" (columns H) = true.
Hypothesis W_date : has_col "date" (columns W) = true.
Hypothesis H_ok : rows_ok H.
Hypothesis W_ok : rows_ok W.

Let H0 := clean_history H.
Let M := merge names H W.

Lemma clean_ok : rows_ok H0.
Proof.
  unfold rows_ok, H0. rewrite clean_history_columns. apply List.Forall_forall.
  intros r Hr. now apply (clean_history_rows H r H_ok H_date).
Qed.

(** The rows the merged frame has for a date: the last of the history's rows
    of that date followed by the window's, widened to the merged labels. *)
Lemma rows_at_merged (d : cell) :
  exists hH hW,
    rows_at M d = final (map hH (rows_at H0 d) ++ map hW (rows_at W d))
    /\ (forall r c, In r (rows H0) -> In c (columns H) ->
          get_cell (columns M) (hH r) c = get_cell (columns H) r c)
    /\ (forall r c, In r (rows W) -> In c (columns W) ->
          get_cell (columns M) (hW r) c = get_cell (columns W) r c).
Proof.
  unfold M, merge, step2. rewrite H_nonempty, H_date. simpl orb. cbv iota.
  fold H0.
  destruct (ensure_shape names W) as (ew & Wc & Wr & _).
  destruct (ensure_shape names H0) as (eh & Hc & Hr & _).
  unfold combine.
  set (H1 := ensure_all_candidate_cols names H0) in *.
  set (W1 := ensure_all_candidate_cols names W) in *.
  set (U := columns (concat H1 W1)).
  set (combo := drop_duplicates_date_last (sort_values_date (concat H1 W1))).
  set (F := columns (step3 names combo)).
  assert (H0cols : columns H0 = columns H) by apply clean_history_columns.
  assert (HdH1 : In "date" (columns H1)).
  { rewrite Hc, H0cols. apply in_or_app. left. now apply has_col_In. }
  assert (HdU : In "date" U) by (apply concat_columns_In; now left).
  assert (HdF : In "date" F) by (apply step3_columns_In; now left).
  assert (HlenW : forall r, In r (rows W) -> length r = length (columns W)).
  { pose proof W_ok as Hk. unfold rows_ok in Hk. rewrite List.Forall_forall in Hk. exact Hk. }
  assert (HlenH : forall r, In r (rows H0) -> length r = length (columns H0)).
  { pose proof clean_ok as Hk. unfold rows_ok in Hk. rewrite List.Forall_forall in Hk. exact Hk. }
  assert (HpadW : pick (date_of (columns W1)) d (rows W1)
                  = map (fun r => r ++ repeat NA (length ew)) (rows_at W d)).
  { rewrite Wr. rewrite (pick_map_in (date_of (columns W)) (date_of (columns W1))).
    - reflexivity.
    - intros x Hx. unfold date_of. rewrite Wc. apply get_cell_padded.
      + now apply has_col_In.
      + now apply HlenW. }
  assert (HpadH : pick (date_of (columns H1)) d (rows H1)
                  = map (fun r => r ++ repeat NA (length eh)) (rows_at H0 d)).
  { rewrite Hr. rewrite (pick_map_in (date_of (columns H0)) (date_of (columns H1))).
    - reflexivity.
    - intros x Hx. unfold date_of. rewrite Hc. apply get_cell_padded.
      + rewrite H0cols. now apply has_col_In.
      + now apply HlenH. }
  exists (fun r => map (get_cell U (map (get_cell (columns H1) (r ++ repeat NA (length eh))) U)) F).
  exists (fun r => map (get_cell U (map (get_cell (columns W1) (r ++ repeat NA (length ew))) U)) F).
  split; [|split].
  - change (rows_at (step3 names combo) d)
      with (pick (date_of F) d (map (fun r => map (get_cell U r) F) (rows combo))).
    rewrite (pick_map (date_of U) (date_of F))
      by (intros x; unfold date_of; now apply get_cell_align).
    change (rows combo)
      with (drop_dups_last (date_of U)
              (sort_by (date_of U)
                 (map (fun r => map (get_cell (columns H1) r) U) (rows H1)
                  ++ map (fun r => map (get_cell (columns W1) r) U) (rows W1)))).
    rewrite pick_merged.
    rewrite (pick_map (date_of (columns W1)) (date_of U)
               (fun r => map (get_cell (columns W1) r) U))
      by (intros x; unfold date_of; now apply get_cell_align).
    rewrite (pick_map (date_of (columns H1)) (date_of U)
               (fun r => map (get_cell (columns H1) r) U))
      by (intros x; unfold date_of; now apply get_cell_align).
    rewrite HpadW, HpadH.
    rewrite <- final_map, map_app, !map_map. reflexivity.
  - intros r c Hin Hcol. fold F.
    assert (Hc1 : In c (columns H1)).
    { rewrite Hc, H0cols. apply in_or_app. now left. }
    assert (HcU : In c U) by (apply concat_columns_In; now left).
    assert (HcF : In c F) by (apply step3_columns_In; right; right; exact HcU).
    rewrite !get_cell_align by assumption.
    rewrite Hc, H0cols. apply get_cell_padded; [assumption|].
    rewrite <- H0cols. now apply HlenH.
  - intros r c Hin Hcol. fold F.
    assert (Hc1 : In c (columns W1)) by (rewrite Wc; apply in_or_app; now left).
    assert (HcU : In c U) by (apply concat_columns_In; now right).
    assert (HcF : In c F) by (apply step3_columns_In; right; right; exact HcU).
    rewrite !get_cell_align by assumption.
    rewrite Wc. apply get_cell_padded; [assumption | now apply HlenW].
Qed.

(** No date is lost and none is invented. *)
Lemma merged_dates_core (d : cell) :
  In d (column M "date") <-> In d (column H0 "date") \/ In d (column W "date").
Proof.
  destruct (rows_at_merged d) as (hH & hW & Hrows & _).
  rewrite !in_dates_iff, Hrows. rewrite final_nil_iff.
  split.
  - intros Hne. destruct (rows_at H0 d); [|left; discriminate].
    destruct (rows_at W d); [|right; discriminate]. now contradiction Hne.
  - intros [Hn|Hn] E; apply app_eq_nil in E; destruct E as [E1 E2].
    + apply map_eq_nil in E1. contradiction.
    + apply map_eq_nil in E2. contradiction.
Qed.

(** At most one row per date. *)
Lemma merged_unique_core (d : cell) : (length (rows_at M d) <= 1)%nat.
Proof.
  destruct (rows_at_merged d) as (hH & hW & Hrows & _). rewrite Hrows.
  apply final_length_le.
Qed.

(** A date the window does not have keeps the history's cells. *)
Lemma disjoint_core (d : cell) :
  ~ In d (column W "date") -> In d (column H0 "date") ->
  length (rows_at M d) = 1%nat
  /\ forall c, In c (columns H) -> value_at M d c = value_at H0 d c.
Proof.
  intros HnW HinH. destruct (rows_at_merged d) as (hH & hW & Hrows & HcH & _).
  rewrite (rows_at_absent W d HnW) in Hrows. simpl map in Hrows. rewrite app_nil_r in Hrows.
  rewrite final_map in Hrows.
  apply in_dates_iff in HinH.
  assert (Hlast : exists r rest, rev (rows_at H0 d) = r :: rest).
  { destruct (rev (rows_at H0 d)) as [|r rest] eqn:E; [|eauto].
    exfalso. apply HinH. apply (f_equal (@rev _)) in E. now rewrite rev_involutive in E. }
  destruct Hlast as (r & rest & E).
  assert (Hr : In r (rows H0)).
  { assert (In r (rows_at H0 d)) by (apply in_rev; rewrite E; now left).
    now apply rows_at_In in H1. }
  split.
  - rewrite Hrows, length_map. now apply final_length.
  - intros c Hc. unfold value_at. rewrite Hrows. unfold final. rewrite E.
    change (rev (map hH [r])) with [hH r]. cbv iota. f_equal.
    change (columns H0) with (columns (clean_history H)).
    rewrite clean_history_columns. now apply HcH.
Qed.

End MergeFacts.

Lemma sorted_map_key {A B} (ka : A -> cell) (kb : B -> cell) (f : A -> B) (l : list A) :
  (forall x, kb (f x) = ka x) ->
  StronglySorted (le_key ka) l -> StronglySorted (le_key kb) (map f l).
Proof.
  intros Hk. induction 1 as [|x l Hs IH Hx]; simpl; constructor; [assumption|].
  rewrite List.Forall_forall in *. intros y Hy. apply in_map_iff in Hy.
  destruct Hy as (y0 & <- & Hy0). unfold le_key in *. rewrite !Hk. now apply Hx.
Qed.

(** The merged rows are in ascending order of date. *)
Lemma merged_sorted_core names H W :
  df_empty H = false -> has_col "date" (columns H) = true ->
  StronglySorted (le_key (date_of (columns (merge names H W)))) (rows (merge names H W)).
Proof.
  intros Hne Hd. unfold merge, step2. rewrite Hne, Hd. simpl orb. cbv iota.
  unfold combine.
  set (H1 := ensure_all_candidate_cols names (clean_history H)).
  set (W1 := ensure_all_candidate_cols names W).
  set (U := columns (concat H1 W1)).
  set (combo := drop_duplicates_date_last (sort_values_date (concat H1 W1))).
  set (F := columns (step3 names combo)).
  assert (HdF : In "date" F) by (apply step3_columns_In; now left).
  change (rows (step3 names combo)) with (map (fun r => map (get_cell U r) F) (rows combo)).
  apply (sorted_map_key (date_of U)).
  - intros x. unfold date_of. now apply get_cell_align.
  - change (rows combo)
      with (drop_dups_last (date_of U) (sort_by (date_of U) (rows (concat H1 W1)))).
    apply drop_dups_sorted, sort_by_sorted.
Qed.

(** ** Labels of the merged frame *)

Lemma step2_columns names stored W c :
  In c (columns W) -> In c (columns (step2 names stored W)).
Proof.
  intros Hc.
  assert (He : In c (columns (ensure_all_candidate_cols names W))).
  { destruct (ensure_shape names W) as (e & -> & _). apply in_or_app. now left. }
  unfold step2. destruct stored as [hist|]; [|exact He].
  destruct (df_empty hist || negb (has_col "date" (columns hist))); [exact He|].
  unfold combine. apply concat_columns_In. now right.
Qed.

Lemma ensure_nodup names df :
  List.NoDup (columns df) -> List.NoDup (columns (ensure_all_candidate_cols names df)).
Proof.
  intros ND. destruct (ensure_shape names df) as (extra & Hc & _ & Hn & He & _).
  rewrite Hc. apply nodup_app; auto. intros x Hx Hin. now apply (Hn x Hin).
Qed.

Lemma concat_nodup a b :
  List.NoDup (columns a) -> List.NoDup (columns b) -> List.NoDup (columns (concat a b)).
Proof.
  intros Na Nb. unfold concat. simpl. apply nodup_app; [assumption | now apply List.NoDup_filter |].
  intros x Hx Hin. apply filter_In in Hin. destruct Hin as [_ Hin].
  apply negb_true_iff, has_col_not_In in Hin. contradiction.
Qed.

Lemma step2_nodup names stored W :
  (forall hist, stored = Some hist -> List.NoDup (columns hist)) ->
  List.NoDup (columns W) -> List.NoDup (columns (step2 names stored W)).
Proof.
  intros Hh Hw. unfold step2. destruct stored as [hist|]; [|now apply ensure_nodup].
  destruct (df_empty hist || negb (has_col "date" (columns hist))); [now apply ensure_nodup|].
  unfold combine. simpl. apply concat_nodup; apply ensure_nodup; [|assumption].
  rewrite clean_history_columns. now apply Hh.
Qed.

Lemma step3_nodup names combo :
  List.NoDup names -> ~ In "date" names -> List.NoDup (columns combo) ->
  List.NoDup (columns (step3 names combo)).
Proof.
  intros Nn Hd Nc. unfold step3. cbn [columns reindex].
  apply (nodup_app ("date" :: names)).
  - now constructor.
  - now apply List.NoDup_filter.
  - intros x Hx Hin. apply filter_In in Hin. destruct Hin as [_ Hin].
    apply negb_true_iff, has_col_not_In in Hin. contradiction.
Qed.

(** Step 3 only reorders: under every label each row shows the cell it had. *)
Lemma step3_column names df c : column (step3 names df) c = column df c.
Proof.
  unfold column, step3, reindex. cbn [columns rows]. rewrite map_map. apply map_ext.
  intros r.
  set (F := ("date" :: names)
            ++ List.filter (fun c0 => negb (has_col c0 ("date" :: names))) (columns df)).
  destruct (in_dec String.string_dec c F) as [Hin|Hn].
  - now apply get_cell_align.
  - rewrite get_cell_absent by assumption. symmetry. apply get_cell_absent.
    intros Hc. apply Hn. unfold F.
    destruct (in_dec String.string_dec c ("date" :: names)) as [H1|H1].
    + apply in_or_app. now left.
    + apply in_or_app. right. apply filter_In. split; [assumption|].
      apply negb_true_iff. now apply has_col_not_In.
Qed.

Lemma ensure_column names df c :
  rows_ok df -> In c (columns df) ->
  column (ensure_all_candidate_cols names df) c = column df c.
Proof.
  intros Hok Hc. destruct (ensure_shape names df) as (extra & Hcols & Hrows & _).
  unfold column. rewrite Hcols, Hrows, map_map. apply map_ext_in. intros r Hr.
  apply get_cell_padded; [assumption|].
  unfold rows_ok in Hok. rewrite List.Forall_forall in Hok. now apply Hok.
Qed.

Lemma is_valid_iff df :
  is_valid df = true
  <-> df_empty df = false /\ has_col "date" (columns df) = true
      /\ Forall (fun c => to_datetime_coerce c <> None) (column df "date").
Proof.
  unfold is_valid, validate_dataframe.
  destruct (df_empty df); [simpl; split; [discriminate | intros [? _]; discriminate]|].
  destruct (has_col "date" (columns df)); simpl;
    [|split; [discriminate | intros (_ & ? & _); discriminate]].
  assert (Hcount : forall l : list cell,
            count_nat (map to_datetime_coerce l) = O
            <-> Forall (fun c => to_datetime_coerce c <> None) l).
  { induction l as [|x l IH]; simpl; [split; [constructor | reflexivity]|].
    unfold count_nat in *. simpl. destruct (to_datetime_coerce x) eqn:E; simpl.
    - split.
      + intros Hc. constructor; [rewrite E; discriminate | now apply IH].
      + intros Hf. apply IH. now inversion Hf.
    - split; [discriminate|]. intros Hf. inversion Hf. contradiction. }
  destruct (count_nat (map to_datetime_coerce (column df "date"))) eqn:E; simpl.
  - split; [|reflexivity]. intros _. repeat split. now apply Hcount.
  - split; [discriminate|]. intros (_ & _ & Hf). apply Hcount in Hf. congruence.
Qed.

Lemma rows_nonempty_of_dates df : column df "date" <> [] -> rows df <> [].
Proof. unfold column. intros H E. rewrite E in H. now apply H. Qed.

Lemma merged_valid_core (names : list string) (H W : DataFrame) :
  rows_ok H -> rows_ok W ->
  is_valid W = true ->
  is_valid (merge names H W) = true.
Proof.
  intros Hok Wok HW. apply is_valid_iff in HW. destruct HW as (Wne & Wd & Wdates).
  assert (Wrows : exists d, In d (column W "date")).
  { unfold df_empty in Wne. destruct (columns W); [discriminate|].
    unfold column. destruct (rows W) as [|r rs]; [discriminate|]. eexists. now left. }
  destruct Wrows as [d0 Hd0].
  apply is_valid_iff.
  assert (Hcols : columns (merge names H W)
                  = "date" :: names ++ List.filter (fun c => negb (has_col c ("date" :: names)))
                                         (columns (step2 names (Some H) W)))
    by reflexivity.
  assert (Hdates : forall d, In d (column (merge names H W) "date") ->
                             to_datetime_coerce d <> None).
  { intros d Hd. unfold merge in Hd. rewrite step3_column in Hd. unfold step2 in Hd.
    destruct (df_empty H || negb (has_col "date" (columns H))) eqn:E.
    - rewrite ensure_column in Hd by (auto; now apply has_col_In).
      rewrite List.Forall_forall in Wdates. now apply Wdates.
    - apply orb_false_elim in E. destruct E as [E1 E2]. apply negb_false_iff in E2.
      rewrite <- (step3_column names) in Hd.
      assert (Hm : step3 names (combine names (clean_history H) W) = merge names H W).
      { unfold merge, step2. now rewrite E1, E2. }
      rewrite Hm in Hd.
      apply (merged_dates_core names H W E1 E2 Wd Hok Wok) in Hd.
      destruct Hd as [Hd|Hd].
      + unfold column in Hd. apply in_map_iff in Hd. destruct Hd as (r & <- & Hr).
        destruct (clean_history_rows H r Hok E2 Hr) as [[z Hz] _].
        rewrite clean_history_columns. unfold date_of in Hz. rewrite Hz. discriminate.
      + rewrite List.Forall_forall in Wdates. now apply Wdates. }
  assert (Hsome : In d0 (column (merge names H W) "date")).
  { unfold merge. rewrite step3_column. unfold step2.
    destruct (df_empty H || negb (has_col "date" (columns H))) eqn:E.
    - rewrite ensure_column by (auto; now apply has_col_In). exact Hd0.
    - apply orb_false_elim in E. destruct E as [E1 E2]. apply negb_false_iff in E2.
      rewrite <- (step3_column names).
      assert (Hm : step3 names (combine names (clean_history H) W) = merge names H W).
      { unfold merge, step2. now rewrite E1, E2. }
      rewrite Hm. apply (merged_dates_core names H W E1 E2 Wd Hok Wok). now right. }
  split; [|split].
  - unfold df_empty. rewrite Hcols.
    destruct (rows (merge names H W)) eqn:E; [|reflexivity].
    exfalso. unfold column in Hsome. rewrite E in Hsome. contradiction.
  - rewrite Hcols. apply has_col_In. now left.
  - apply List.Forall_forall. exact Hdates.
Qed.

Lemma history_A_ok : rows_ok history_A.
Proof. repeat constructor. Qed.

Lemma window_A_ok : rows_ok window_A.
Proof. repeat constructor. Qed.

(** X5: a window that passes [validate_dataframe] gives a merged frame that
    passes it too, whatever the history holds: rows of the history whose date
    cannot be read are dropped before the merge, and a history that is empty
    or has no date column is left out. *)
Theorem merged_is_valid (names : list string) (H W : DataFrame) :
  rows_ok H -> rows_ok W ->
  is_valid W = true ->
  is_valid (merge names H W) = true.
Proof. exact (merged_valid_core names H W). Qed.

Lemma merged_is_valid_witness : is_valid (merge ["A"] history_A window_A) = true.
Proof.
  apply (merged_is_valid ["A"] history_A window_A).
  - exact history_A_ok.
  - exact window_A_ok.
  - reflexivity.
Defined.

(** X2: the dates of the merged frame are those of the cleaned history
    together with those of the window: the merge neither loses a date nor
    makes one up. *)
Theorem merged_dates (names : list string) (H W : DataFrame) (d : cell) :
  df_empty H = false ->
  has_col "date" (columns H) = true ->
  has_col "date" (columns W) = true ->
  rows_ok H -> rows_ok W ->
  In d (column (merge names H W) "date")
  <-> In d (column (clean_history H) "date") \/ In d (column W "date").
Proof.
  intros Hne Hd Wd Hok Wok.
  exact (merged_dates_core names H W Hne Hd Wd Hok Wok d).
Qed.

Lemma merged_dates_witness :
  In (Day 20096) (column (merge ["A"] history_A window_A) "date").
Proof.
  refine (proj2 (merged_dates ["A"] history_A window_A (Day 20096) _ _ _ _ _) _).
  - reflexivity.
  - reflexivity.
  - reflexivity.
  - exact history_A_ok.
  - exact window_A_ok.
  - right. simpl. tauto.
Defined.

(** X3: the merged frame is in ascending order of date and has at most one row
    for any date. *)
Theorem merged_sorted_unique (names : list string) (H W : DataFrame) :
  df_empty H = false ->
  has_col "date" (columns H) = true ->
  has_col "date" (columns W) = true ->
  rows_ok H -> rows_ok W ->
  StronglySorted (le_key (date_of (columns (merge names H W)))) (rows (merge names H W))
  /\ forall d, (length (rows_at (merge names H W) d) <= 1)%nat.
Proof.
  intros Hne Hd Wd Hok Wok. split.
  - now apply merged_sorted_core.
  - intros d. exact (merged_unique_core names H W Hne Hd Wd Hok Wok d).
Qed.

Lemma merged_sorted_unique_witness :
  (length (rows_at (merge ["A"] history_A window_A) (Day 20093)) <= 1)%nat.
Proof.
  refine (proj2 (merged_sorted_unique ["A"] history_A window_A _ _ _ _ _) (Day 20093)).
  - reflexivity.
  - reflexivity.
  - reflexivity.
  - exact history_A_ok.
  - exact window_A_ok.
Defined.

(** X4: the frame handed to the save starts with [date] and the candidates
    in their fixed order; every label of the window, and of a history that is
    used, is among its labels; and it repeats no label when its inputs repeat
    none. *)
Theorem merged_labels (names : list string) (stored : option DataFrame) (W : DataFrame) :
  let out := step3 names (step2 names stored W) in
  firstn (S (length names)) (columns out) = "date" :: names
  /\ (forall c, In c (columns W) -> In c (columns out))
  /\ (forall hist c, stored = Some hist -> df_empty hist = false ->
        has_col "date" (columns hist) = true ->
        In c (columns hist) -> In c (columns out))
  /\ (List.NoDup names -> ~ In "date" names -> List.NoDup (columns W) ->
      (forall hist, stored = Some hist -> List.NoDup (columns hist)) ->
      List.NoDup (columns out)).
Proof.
  cbv zeta. repeat split.
  - unfold step3, reindex. cbn [columns].
    change (S (length names)) with (length ("date" :: names)).
    rewrite <- (Nat.add_0_r (length ("date" :: names))).
    rewrite firstn_app_2. cbn [firstn]. now rewrite app_nil_r.
  - intros c Hc. apply step3_columns_In. right. right. now apply step2_columns.
  - intros hist c -> Hne Hd Hc. apply step3_columns_In. right. right.
    unfold step2. rewrite Hne, Hd. cbn [negb orb]. unfold combine.
    unfold drop_duplicates_date_last, sort_values_date. cbn [columns].
    apply concat_columns_In. left.
    destruct (ensure_shape names (clean_history hist)) as (extra & -> & _).
    apply in_or_app. left. now rewrite clean_history_columns.
  - intros Hn Hdn HW Hh. apply step3_nodup; [assumption | assumption |].
    now apply step2_nodup.
Qed.

(** X6: [ensure_all_candidate_cols] gives the frame every candidate's label,
    keeps the cells under the labels it had, fills each label it adds with
    [pd.NA] in every row, keeps the number of rows, and changes nothing when
    applied again. *)
Theorem ensure_all_candidate_cols_spec (names : list string) (df : DataFrame) :
  rows_ok df ->
  let out := ensure_all_candidate_cols names df in
  (forall c, In c names -> In c (columns out))
  /\ (forall c, In c (columns df) -> column out c = column df c)
  /\ (forall c, In c names -> ~ In c (columns df) ->
        column out c = repeat NA (length (rows df)))
  /\ length (rows out) = length (rows df)
  /\ ensure_all_candidate_cols names out = out.
Proof.
  intros Hok. cbv zeta.
  destruct (ensure_shape names df) as (extra & Hcols & Hrows & Hnew & Hnd & Hall).
  split; [|split; [|split; [|split]]].
  - intros c Hc. rewrite Hcols. now apply Hall.
  - intros c Hc. now apply ensure_column.
  - intros c Hc Hn.
    assert (Hin : In c extra).
    { specialize (Hall c Hc). apply in_app_or in Hall. tauto. }
    unfold column. rewrite Hcols, Hrows, map_map.
    unfold rows_ok in Hok. rewrite List.Forall_forall in Hok.
    assert (Hcell : forall r, In r (rows df) ->
              get_cell (columns df ++ extra) (r ++ repeat NA (length extra)) c = NA).
    { intros r Hr. unfold get_cell.
      destruct (col_index c (columns df ++ extra)) as [i|] eqn:Ei.
      - destruct (col_index_Some _ _ _ Ei) as [Hlt Hnth].
        rewrite length_app in Hlt.
        destruct (Nat.lt_ge_cases i (length (columns df))) as [Hi|Hi].
        + exfalso. apply Hn. rewrite app_nth1 in Hnth by assumption.
          rewrite <- Hnth. now apply nth_In.
        + rewrite app_nth2 by (rewrite (Hok r Hr); lia).
          rewrite (Hok r Hr).
          apply nth_repeat_lt. lia.
      - apply col_index_None in Ei. exfalso. apply Ei. apply in_or_app. now right. }
    clear - Hcell. induction (rows df) as [|r l IH]; [reflexivity|].
    cbn [map length repeat]. rewrite Hcell by now left.
    f_equal. apply IH. intros r0 Hr0. apply Hcell. now right.
  - rewrite Hrows. apply length_map.
  - apply ensure_same. intros c Hc. rewrite Hcols. now apply Hall.
Qed.

Lemma ensure_all_candidate_cols_spec_witness :
  column (ensure_all_candidate_cols ["A"; "B"] window_A) "B" = repeat NA 5.
Proof.
  refine (proj1 (proj2 (proj2 (ensure_all_candidate_cols_spec ["A"; "B"] window_A _)))
            "B" _ _).
  - exact window_A_ok.
  - simpl. tauto.
  - simpl. intuition discriminate.
Defined.

Lemma merged_labels_witness :
  List.NoDup (columns (step3 ["A"] (step2 ["A"] (Some history_A) window_A))).
Proof.
  refine (proj2 (proj2 (proj2 (merged_labels ["A"] (Some history_A) window_A))) _ _ _ _).
  - repeat constructor. simpl. tauto.
  - simpl. intuition discriminate.
  - exact (proj1 window_A_wf).
  - intros hist E. injection E as <-. exact (proj1 history_A_wf).
Defined.

(** X7: the date handling of the history leaves only rows whose date is a
    day, drops exactly the rows [validate_dataframe] would count as invalid
    dates, keeps the rows as wide as the labels, does nothing more when
    repeated, and leaves a history whose dates are all days as it is. *)
Theorem clean_history_spec (H : DataFrame) :
  rows_ok H -> has_col "date" (columns H) = true ->
  dates_ok (clean_history H)
  /\ rows_ok (clean_history H)
  /\ (length (rows (clean_history H))
      + count_nat (map to_datetime_coerce (column H "date")) = length (rows H))%nat
  /\ clean_history (clean_history H) = clean_history H
  /\ (dates_ok H -> clean_history H = H).
Proof.
  intros Hok Hd.
  assert (Hdays : forall r, In r (rows (clean_history H)) ->
                            exists z, date_of (columns (clean_history H)) r = Day z).
  { intros r Hr. rewrite clean_history_columns.
    exact (proj1 (clean_history_rows H r Hok Hd Hr)). }
  split; [|split; [|split; [|split]]].
  - unfold dates_ok, column. apply List.Forall_forall. intros c Hc.
    apply in_map_iff in Hc. destruct Hc as (r & <- & Hr).
    destruct (Hdays r Hr) as [z Hz]. exists z. exact Hz.
  - unfold rows_ok. apply List.Forall_forall. intros r Hr.
    rewrite clean_history_columns.
    exact (proj2 (clean_history_rows H r Hok Hd Hr)).
  - unfold clean_history, column, get_cell, count_nat.
    pose proof Hd as Hd'. apply has_col_In in Hd'.
    destruct (col_index_In _ _ Hd') as [i Hi]. rewrite Hi. cbn [rows].
    induction (rows H) as [|r l IH]; [reflexivity|].
    cbn [flat_map map List.filter].
    rewrite List.length_app.
    destruct (to_datetime_coerce (nth i r NaN)); cbn [length]; lia.
  - apply clean_history_same; [now rewrite clean_history_columns | exact Hdays].
  - intros Hall. apply clean_history_same; [assumption|].
    intros r Hr. unfold dates_ok, column in Hall. rewrite List.Forall_forall in Hall.
    apply Hall. apply in_map_iff. exists r. split; [reflexivity | assumption].
Qed.

Lemma clean_history_spec_witness :
  (length (rows (clean_history history_with_bad_date))
   + count_nat (map to_datetime_coerce (column history_with_bad_date "date"))
   = length (rows history_with_bad_date))%nat.
Proof.
  refine (proj1 (proj2 (proj2 (clean_history_spec history_with_bad_date _ _)))).
  - repeat constructor.
  - reflexivity.
Defined.

(** X8: with no history file, or one that is empty or has no date column, the
    frame handed to the save is the window with the candidates' labels added:
    as many rows, and under every label the same cells. *)
Theorem unusable_history_ignored (names : list string) (stored : option DataFrame)
        (W : DataFrame) :
  rows_ok W ->
  (forall hist, stored = Some hist ->
                df_empty hist = true \/ has_col "date" (columns hist) = false) ->
  let out := step3 names (step2 names stored W) in
  length (rows out) = length (rows W)
  /\ (forall c, column out c = column (ensure_all_candidate_cols names W) c)
  /\ (forall c, In c (columns W) -> column out c = column W c).
Proof.
  intros Wok Hst. cbv zeta.
  assert (E : step2 names stored W = ensure_all_candidate_cols names W).
  { unfold step2. destruct stored as [hist|]; [|reflexivity].
    destruct (Hst hist eq_refl) as [-> | ->]; [reflexivity|].
    now rewrite orb_true_r. }
  rewrite E. split; [|split].
  - unfold step3, reindex. cbn [rows]. rewrite length_map.
    destruct (ensure_shape names W) as (extra & _ & -> & _). apply length_map.
  - intros c. apply step3_column.
  - intros c Hc. rewrite step3_column. now apply ensure_column.
Qed.

Lemma unusable_history_ignored_witness :
  column (step3 ["A"] (step2 ["A"] (Some frame_without_date) window_A)) "A"
  = column window_A "A".
Proof.
  refine (proj2 (proj2 (unusable_history_ignored ["A"] (Some frame_without_date) window_A
                          _ _)) "A" _).
  - exact window_A_ok.
  - intros hist E. injection E as <-. right. reflexivity.
  - simpl. tauto.
Defined.

(** ** Saving *)

Lemma is_valid_verdict df :
  fst (fst (validate_dataframe (Some df))) = is_valid df.
Proof. reflexivity. Qed.

Lemma save_outcome_core (o : io) (df : DataFrame) (csv_path : path)
        (parquet_path : option path) (fs : gmap path file) :
  parquet_path <> Some csv_path ->
  let r := safe_save_dataframe o df csv_path parquet_path fs in
  (r.1.1 = true
   <-> is_valid df = true /\ disk_space_ok o = true /\ to_csv o = Succeeds)
  /\ (r.1.1 = true -> r.1.2 !! csv_path = Some (Csv df))
  /\ (forall q, parquet_path = Some q -> r.1.1 = true ->
        match to_parquet o with
        | Succeeds => r.1.2 !! q = Some (Parquet df)
        | Fails residue => r.1.2 !! q = residue
        end).
Proof.
  intros Hq. cbv zeta. unfold safe_save_dataframe.
  rewrite <- (is_valid_verdict df).
  destruct (validate_dataframe (Some df)) as [verdict warnings]. cbn [fst].
  destruct (fst verdict); cbn [negb];
    [|cbn [fst snd]; repeat split; try discriminate; intros; intuition discriminate].
  destruct (disk_space_ok o); cbn [negb];
    [|cbn [fst snd]; repeat split; try discriminate; intros; intuition discriminate].
  destruct (backup_existing_file o csv_path fs) as [[b1 fs1] t1].
  destruct (match parquet_path with
            | Some p => backup_existing_file o p fs1
            | None => (false, fs1, [])
            end) as [[b2 fs2] t2].
  destruct (to_csv o) as [|res];
    [|cbn [fst snd]; repeat split; try discriminate; intros; intuition discriminate].
  destruct parquet_path as [p|].
  - assert (Hp : p <> csv_path) by congruence.
    destruct (to_parquet o) as [|res]; cbn [fst snd].
    + repeat split; trivial.
      * intros _. rewrite lookup_insert_ne by assumption. apply lookup_insert_eq.
      * intros q E _. injection E as <-. apply lookup_insert_eq.
    + repeat split; trivial.
      * intros _. rewrite lookup_put_ne by assumption. apply lookup_insert_eq.
      * intros q E _. injection E as <-. unfold put. destruct res.
        -- apply lookup_insert_eq.
        -- apply lookup_delete_eq.
  - cbn [fst snd]. repeat split; trivial.
    + intros _. apply lookup_insert_eq.
    + intros q E. discriminate.
Qed.

(** X9: a save returns [True] exactly when the frame is valid, there is disk
    space and the CSV write succeeds; the CSV file then holds the frame.  A
    failing Parquet write does not make the save fail: the Parquet file holds
    the frame when that write succeeds and what the failed write left behind
    otherwise. *)
Theorem save_outcome (o : io) (df : DataFrame) (csv_path : path)
        (parquet_path : option path) (fs : gmap path file) :
  parquet_path <> Some csv_path ->
  let r := safe_save_dataframe o df csv_path parquet_path fs in
  (r.1.1 = true
   <-> is_valid df = true /\ disk_space_ok o = true /\ to_csv o = Succeeds)
  /\ (r.1.1 = true -> r.1.2 !! csv_path = Some (Csv df))
  /\ (forall q, parquet_path = Some q -> r.1.1 = true ->
        match to_parquet o with
        | Succeeds => r.1.2 !! q = Some (Parquet df)
        | Fails residue => r.1.2 !! q = residue
        end).
Proof. exact (save_outcome_core o df csv_path parquet_path fs). Qed.

Lemma save_outcome_witness :
  (safe_save_dataframe io_fine window_two_days OUT_CSV_DAILY (Some OUT_PARQUET_DAILY)
                       disk_with_history).1.2 !! OUT_CSV_DAILY
  = Some (Csv window_two_days).
Proof.
  refine (proj1 (proj2 (save_outcome io_fine window_two_days OUT_CSV_DAILY
                          (Some OUT_PARQUET_DAILY) disk_with_history _)) _).
  - discriminate.
  - vm_compute. reflexivity.
Defined.

(** X10: without disk space the save returns [False] before any backup or
    write: the files are as they were. *)
Theorem no_disk_space_no_write (o : io) (df : DataFrame) (csv_path : path)
        (parquet_path : option path) (fs : gmap path file) :
  disk_space_ok o = false ->
  exists t, safe_save_dataframe o df csv_path parquet_path fs = (false, fs, t)
            /\ forallb (fun a => negb (touches_disk a)) t = true.
Proof.
  intros Hd. unfold safe_save_dataframe.
  destruct (validate_dataframe (Some df)) as [verdict warnings].
  destruct (negb (fst verdict)).
  - eexists. split; [reflexivity|].
    rewrite forallb_app. cbn [forallb touches_disk negb].
    rewrite forallb_log by reflexivity. reflexivity.
  - rewrite Hd. cbn [negb]. eexists. split; [reflexivity|].
    rewrite forallb_app. cbn [forallb touches_disk negb].
    rewrite forallb_log by reflexivity. reflexivity.
Qed.

Lemma no_disk_space_no_write_witness :
  exists t, safe_save_dataframe io_disk_full window_two_days OUT_CSV_DAILY
                                (Some OUT_PARQUET_DAILY) disk_with_history
            = (false, disk_with_history, t)
            /\ forallb (fun a => negb (touches_disk a)) t = true.
Proof.
  apply (no_disk_space_no_write io_disk_full window_two_days OUT_CSV_DAILY
                                (Some OUT_PARQUET_DAILY) disk_with_history).
  reflexivity.
Defined.

Lemma append_longer (a b : string) :
  String.length (String.append a b) = (String.length a + String.length b)%nat.
Proof. induction a as [|c a IH]; simpl; [reflexivity | now rewrite IH]. Qed.

Lemma backup_path_fresh (p : path) (ts : string) : backup_path p ts <> p.
Proof.
  intros E. apply (f_equal stem) in E. apply (f_equal String.length) in E.
  unfold backup_path in E. cbn [stem] in E.
  rewrite !append_longer in E. simpl in E. lia.
Qed.

(** X11: [backup_existing_file] returns [True] exactly when the file exists
    and the copy succeeds, and the backup then holds what the file holds.
    Without the file it does nothing.  Whatever happens, the file being
    backed up is as it was, and so is every file but the backup. *)
Theorem backup_existing_file_spec (o : io) (file_path : path) (fs : gmap path file) :
  let r := backup_existing_file o file_path fs in
  let b := backup_path file_path (now o file_path) in
  (r.1.1 = true <-> (exists f, fs !! file_path = Some f) /\ copy2 o file_path = Succeeds)
  /\ (r.1.1 = true -> r.1.2 !! b = fs !! file_path)
  /\ (fs !! file_path = None -> r = (false, fs, []))
  /\ r.1.2 !! file_path = fs !! file_path
  /\ (forall p, p <> b -> r.1.2 !! p = fs !! p).
Proof.
  cbv zeta.
  assert (Hfresh : file_path <> backup_path file_path (now o file_path)).
  { intros E. symmetry in E. revert E. apply backup_path_fresh. }
  unfold backup_existing_file.
  destruct (fs !! file_path) as [f|] eqn:E.
  - destruct (copy2 o file_path) as [|res]; cbn [fst snd].
    + repeat split; trivial.
      * now exists f.
      * intros _. apply lookup_insert_eq.
      * discriminate.
      * rewrite lookup_insert_ne by congruence. exact E.
      * intros p Hp. apply lookup_insert_ne. congruence.
    + repeat split; try discriminate.
      * intros [_ H]. discriminate.
      * rewrite lookup_put_ne by congruence. exact E.
      * intros p Hp. apply lookup_put_ne. congruence.
  - cbn [fst snd]. repeat split; trivial; try discriminate.
    intros [[f Hf] _]. discriminate.
Qed.

Section RunFacts.

Variables (names : list string) (stored : option DataFrame) (W : DataFrame).
Hypothesis W_valid : is_valid W = true.
Hypothesis W_ok : rows_ok W.
Hypothesis stored_ok : forall hist, stored = Some hist -> rows_ok hist.

Lemma combo_valid : is_valid (step3 names (step2 names stored W)) = true.
Proof.
  destruct stored as [hist|] eqn:E.
  - apply (merged_valid_core names hist W); auto.
  - pose proof W_valid as V. apply is_valid_iff in V. destruct V as (Wne & Wd & Wdates).
    apply is_valid_iff. split; [|split].
    + unfold df_empty in *. cbn [step3 step2 reindex columns rows app].
      destruct (ensure_shape names W) as (extra & _ & -> & _).
      destruct (columns W); [discriminate|].
      destruct (rows W); [discriminate|]. reflexivity.
    + apply has_col_In. cbn [step3 reindex columns]. now left.
    + rewrite step3_column. cbn [step2].
      rewrite ensure_column by (auto; now apply has_col_In). exact Wdates.
Qed.

Lemma ensured_valid : is_valid (ensure_all_candidate_cols names W) = true.
Proof.
  apply is_valid_iff in W_valid. destruct W_valid as (Wne & Wd & Wdates).
  apply is_valid_iff.
  destruct (ensure_shape names W) as (extra & Hcols & Hrows & _).
  split; [|split].
  - unfold df_empty in *. rewrite Hcols, Hrows.
    destruct (columns W); [discriminate|].
    destruct (rows W); [discriminate|]. reflexivity.
  - apply has_col_In. rewrite Hcols. apply in_or_app. left. now apply has_col_In.
  - rewrite ensure_column by (auto; now apply has_col_In). exact Wdates.
Qed.

End RunFacts.

Lemma partial_elsewhere :
  PARTIAL_SAVE_FILE <> OUT_CSV_DAILY
  /\ Some OUT_PARQUET_DAILY <> Some PARTIAL_SAVE_FILE
  /\ parent PARTIAL_SAVE_FILE <> BACKUP_DIR.
Proof. repeat split; discriminate. Qed.

(** X12: a valid window is always saved when there is disk space and the CSV
    write succeeds, whatever the history holds: the run completes, the daily
    CSV holds the merged frame, and the partial file is not touched. *)
Theorem valid_window_is_saved (names : list string) (stored : option DataFrame)
        (o o1 o2 : io) (W : DataFrame) (fs : gmap path file) :
  is_valid W = true -> rows_ok W ->
  (forall hist, stored = Some hist -> rows_ok hist) ->
  disk_space_ok o = true -> to_csv o = Succeeds ->
  let r := Run.merge_and_save names stored o o1 o2 W fs in
  r.1.1 = true
  /\ r.1.2 !! OUT_CSV_DAILY = Some (Csv (step3 names (step2 names stored W)))
  /\ r.1.2 !! PARTIAL_SAVE_FILE = fs !! PARTIAL_SAVE_FILE.
Proof.
  intros WV Wok Sok Hd Hc. cbv zeta. unfold Run.merge_and_save, save_step.
  set (combo := step3 names (step2 names stored W)).
  assert (Hq : Some OUT_PARQUET_DAILY <> Some OUT_CSV_DAILY) by discriminate.
  destruct (save_outcome_core o combo OUT_CSV_DAILY (Some OUT_PARQUET_DAILY) fs Hq)
    as (Hiff & Hcsv & _).
  destruct partial_elsewhere as (P1 & P2 & P3).
  pose proof (save_elsewhere o combo OUT_CSV_DAILY (Some OUT_PARQUET_DAILY) fs
                PARTIAL_SAVE_FILE P1 P2 P3) as Hp.
  assert (Hok : (safe_save_dataframe o combo OUT_CSV_DAILY (Some OUT_PARQUET_DAILY) fs).1.1
                = true).
  { apply Hiff. repeat split; [|assumption|assumption].
    now apply combo_valid. }
  specialize (Hcsv Hok).
  destruct (safe_save_dataframe o combo OUT_CSV_DAILY (Some OUT_PARQUET_DAILY) fs)
    as [[ok fs1] t1].
  cbn [fst snd] in Hok, Hcsv, Hp. subst ok. cbn [fst snd]. auto.
Qed.

Lemma valid_window_is_saved_witness :
  (Run.merge_and_save ["A"] (Some history_A) io_fine io_fine io_fine window_A
                      disk_with_history).1.2 !! OUT_CSV_DAILY
  = Some (Csv (merge ["A"] history_A window_A)).
Proof.
  refine (proj1 (proj2 (valid_window_is_saved ["A"] (Some history_A) io_fine io_fine
                          io_fine window_A disk_with_history _ _ _ _ _))).
  - reflexivity.
  - exact window_A_ok.
  - intros hist E. injection E as <-. exact history_A_ok.
  - reflexivity.
  - reflexivity.
Defined.

(** X13: when the save of the merged frame fails -- no disk space, or a CSV
    write that raises -- the run ends with an error, and if the last save of
    the window goes through, the partial file holds the valid window, with
    the candidate columns [main] has added to it by then. *)
Theorem failed_save_keeps_window (names : list string) (stored : option DataFrame)
        (o o1 o2 : io) (W : DataFrame) (fs : gmap path file) :
  is_valid W = true -> rows_ok W ->
  disk_space_ok o = false \/ (exists residue, to_csv o = Fails residue) ->
  disk_space_ok o2 = true -> to_csv o2 = Succeeds ->
  let r := Run.merge_and_save names stored o o1 o2 W fs in
  r.1.1 = false
  /\ r.1.2 !! PARTIAL_SAVE_FILE = Some (Csv (ensure_all_candidate_cols names W)).
Proof.
  intros WV Wok Hfail Hd2 Hc2. cbv zeta. unfold Run.merge_and_save, save_step.
  set (combo := step3 names (step2 names stored W)).
  set (E := ensure_all_candidate_cols names W).
  assert (Hq : Some OUT_PARQUET_DAILY <> Some OUT_CSV_DAILY) by discriminate.
  destruct (save_outcome_core o combo OUT_CSV_DAILY (Some OUT_PARQUET_DAILY) fs Hq)
    as (Hiff & _ & _).
  assert (Hno : (safe_save_dataframe o combo OUT_CSV_DAILY (Some OUT_PARQUET_DAILY) fs).1.1
                = false).
  { destruct ((safe_save_dataframe o combo OUT_CSV_DAILY (Some OUT_PARQUET_DAILY) fs).1.1);
      [|reflexivity].
    destruct (proj1 Hiff eq_refl) as (_ & Hd & Hc).
    destruct Hfail as [Hf | [res Hf]]; congruence. }
  destruct (safe_save_dataframe o combo OUT_CSV_DAILY (Some OUT_PARQUET_DAILY) fs)
    as [[ok fs1] t1].
  cbn [fst] in Hno. subst ok.
  pose proof (ensured_valid names W WV Wok) as EV. fold E in EV.
  assert (Ene : df_empty E = false) by (apply is_valid_iff in EV; tauto).
  rewrite Ene.
  destruct (safe_save_dataframe o1 E PARTIAL_SAVE_FILE None fs1) as [[ok2 fs2] t2].
  assert (Hn : None <> Some PARTIAL_SAVE_FILE) by discriminate.
  destruct (save_outcome_core o2 E PARTIAL_SAVE_FILE None fs2 Hn) as (Hiff3 & Hcsv3 & _).
  assert (Hok3 : (safe_save_dataframe o2 E PARTIAL_SAVE_FILE None fs2).1.1 = true).
  { apply Hiff3. auto. }
  specialize (Hcsv3 Hok3).
  destruct (safe_save_dataframe o2 E PARTIAL_SAVE_FILE None fs2) as [[ok3 fs3] t3].
  cbn [fst snd] in Hcsv3 |- *. auto.
Qed.

Lemma failed_save_keeps_window_witness :
  (Run.merge_and_save ["A"; "B"] (Some history_A) io_disk_full io_fine io_fine window_A
                      disk_with_history).1.2 !! PARTIAL_SAVE_FILE
  = Some (Csv (ensure_all_candidate_cols ["A"; "B"] window_A)).
Proof.
  refine (proj2 (failed_save_keeps_window ["A"; "B"] (Some history_A) io_disk_full io_fine
                   io_fine window_A disk_with_history _ _ _ _ _)).
  - reflexivity.
  - exact window_A_ok.
  - left. reflexivity.
  - reflexivity.
  - reflexivity.
Defined.

(** ** The wrappers: what a call can cost and what it leaves behind *)

Ltac pauses :=
  unfold candidate_pauses; simpl; rewrite ?List.filter_app, ?List.length_app; simpl; try lia.

Ltac turn_done :=
  split;
  [ eexists; split; [reflexivity | first [discriminate | reflexivity]]
  | repeat split; first [lia | pauses; fail | idtac] ].

(** One turn of [safe_interest_over_time]. *)
Lemma fetch_turn_post sv i w :
  let r := fetch_turn sv i w in
  (exists s, r.1 = Returns s /\ (s = Again -> is_last i = false))
  /\ builds r.2 = builds w
  /\ (fetches w < fetches r.2 <= fetches w + (if is_last i then 2 else 1))%nat
  /\ (creates w <= creates r.2 <= creates w + (if is_last i then 1 else 0))%nat
  /\ ((consecutive_429_count w < 3)%nat -> (consecutive_429_count r.2 < 3)%nat)
  /\ candidate_pauses r.2 = candidate_pauses w.
Proof.
  cbv zeta. destruct w as [c cr b f d sl].
  run_goal.
  destruct (interest_over_time_reply sv f) as [[df|]|[| |]]; simpl.
  - destruct (is_last i); turn_done.
  - destruct (is_last i); simpl; turn_done.
  - destruct c as [|[|c]]; simpl; destruct (is_last i); simpl; run_goal;
      try (destruct (make_pytrends_reply sv cr) as [[]|e1]; simpl);
      try (destruct (interest_over_time_reply sv (S f)) as [[df|]|e2]; simpl);
      turn_done.
  - destruct (is_last i); simpl; turn_done.
  - destruct (is_last i); simpl; turn_done.
Qed.

(** One turn of [safe_build_payload]. *)
Lemma build_turn_post sv i w :
  let r := build_turn sv i w in
  (r.1 = Returns Again -> is_last i = false)
  /\ (forall a, r.1 = Returns (Done a) -> consecutive_429_count r.2 = O)
  /\ fetches r.2 = fetches w
  /\ (builds w <= builds r.2 <= builds w + (if is_last i then 2 else 1))%nat
  /\ ((0 <? i)%nat = false -> (builds w < builds r.2)%nat)
  /\ (creates w <= creates r.2
      <= creates w + (if (0 <? i)%nat then 1 else 0) + (if is_last i then 1 else 0))%nat
  /\ (consecutive_429_count r.2 < 3)%nat
  /\ candidate_pauses r.2 = candidate_pauses w.
Proof.
  cbv zeta. destruct w as [c cr b f d sl].
  run_goal.
  destruct (0 <? i)%nat; simpl.
  - destruct (make_pytrends_reply sv cr) as [[]|[| |]]; simpl;
      [destruct (build_payload_reply sv b) as [[]|[| |]]; simpl | | | ];
      try (destruct c as [|[|c]]; simpl); destruct (is_last i); simpl; run_goal;
      try (destruct (make_pytrends_reply sv (S cr)) as [[]|e1]; simpl);
      try (destruct (make_pytrends_reply sv cr) as [[]|e1']; simpl);
      try (destruct (build_payload_reply sv (S b)) as [[]|e2]; simpl);
      try (destruct (build_payload_reply sv b) as [[]|e2']; simpl);
      repeat split; first [lia | pauses; fail | discriminate | reflexivity | idtac].
  - destruct (build_payload_reply sv b) as [[]|[| |]]; simpl;
      try (destruct c as [|[|c]]; simpl); destruct (is_last i); simpl; run_goal;
      try (destruct (make_pytrends_reply sv cr) as [[]|e1]; simpl);
      try (destruct (build_payload_reply sv (S b)) as [[]|e2]; simpl);
      repeat split; first [lia | pauses; fail | discriminate | reflexivity | idtac].
Qed.


Lemma is_last_spec i : is_last i = (i =? 4)%nat.
Proof. reflexivity. Qed.

Lemma fetch_loop_post sv n i w :
  (i + n = 5)%nat ->
  let r := fetch_loop sv n i w in
  (exists df, r.1 = Returns df)
  /\ builds r.2 = builds w
  /\ (fetches w + (if (0 <? n)%nat then 1 else 0) <= fetches r.2 <= fetches w + n + 1)%nat
  /\ (creates w <= creates r.2 <= creates w + 1)%nat
  /\ ((consecutive_429_count w < 3)%nat -> (consecutive_429_count r.2 < 3)%nat)
  /\ candidate_pauses r.2 = candidate_pauses w.
Proof.
  revert i w. induction n as [|n IH]; intros i w Hin; cbv zeta.
  - cbn [fetch_loop]. unfold ret. cbn [fst snd Nat.ltb Nat.leb].
    split; [now eexists|]. repeat split; try lia.
  - cbn [fetch_loop]. unfold bind. change (0 <? S n)%nat with true. cbv iota.
    destruct (fetch_turn_post sv i w) as ((s & Hs & Hlast) & Hb & Hf & Hc & Hk & Hp).
    rewrite is_last_spec in Hlast, Hf, Hc.
    destruct (fetch_turn sv i w) as [o w1]. cbn [fst snd] in *. subst o.
    destruct s as [a|].
    + unfold ret. cbn [fst snd]. split; [now eexists|].
      destruct (i =? 4)%nat; repeat split; try lia; auto.
    + specialize (Hlast eq_refl). rewrite Hlast in Hf, Hc.
      apply Nat.eqb_neq in Hlast.
      destruct (IH (S i) w1 ltac:(lia)) as (Hd & Hb' & Hf' & Hc' & Hk' & Hp').
      destruct n as [|n']; [lia|]. cbn [Nat.ltb Nat.leb] in Hf'.
      split; [exact Hd|]. repeat split; try lia; auto.
Qed.

Lemma build_loop_post sv n i w :
  (i + n = 5)%nat -> (0 < n)%nat ->
  let r := build_loop sv n i w in
  ((exists e, r.1 = Raises e) \/ (r.1 = Returns tt /\ consecutive_429_count r.2 = O))
  /\ fetches r.2 = fetches w
  /\ (builds w + (if (0 <? i)%nat then 0 else 1) <= builds r.2 <= builds w + n + 1)%nat
  /\ (creates w <= creates r.2 <= creates w + n + (if (0 <? i)%nat then 1 else 0))%nat
  /\ (consecutive_429_count r.2 < 3)%nat
  /\ candidate_pauses r.2 = candidate_pauses w.
Proof.
  revert i w. induction n as [|n IH]; intros i w Hin Hn; cbv zeta; [lia|].
  cbn [build_loop]. unfold bind.
  destruct (build_turn_post sv i w) as (Hlast & Hdone & Hf & Hb & Hb1 & Hc & Hk & Hp).
  rewrite is_last_spec in Hlast, Hb, Hc.
  destruct (build_turn sv i w) as [o w1]. cbn [fst snd] in *.
  destruct o as [[[]|]|e].
  - unfold ret. cbn [fst snd]. split; [right; split; [reflexivity | now apply (Hdone tt)]|].
    destruct (i =? 4)%nat, (0 <? i)%nat; try specialize (Hb1 eq_refl);
      repeat split; try lia.
  - specialize (Hlast eq_refl). rewrite Hlast in Hb, Hc.
    apply Nat.eqb_neq in Hlast.
    destruct n as [|n']; [lia|].
    destruct (IH (S i) w1 ltac:(lia) ltac:(lia)) as (Hd & Hf' & Hb' & Hc' & Hk' & Hp').
    cbn [Nat.ltb Nat.leb] in Hc', Hb'.
    split; [exact Hd|].
    destruct (0 <? i)%nat; try specialize (Hb1 eq_refl); repeat split; try lia.
  - cbn [fst snd]. split; [left; now eexists|].
    destruct (Nat.eqb_spec i 4) as [->|Hi].
    + assert (n = 0)%nat by lia. subst n. cbn [Nat.ltb Nat.leb] in *.
      repeat split; try lia.
    + destruct (0 <? i)%nat; try specialize (Hb1 eq_refl); repeat split; try lia.
Qed.

(** X14: [safe_interest_over_time] never raises, whatever the library does:
    it returns a frame after at least one and at most six requests
    ([MAX_RETRIES] turns and one last attempt), creating at most one new
    client; it makes no [build_payload] call, and a throttle counter below
    three stays below three. *)
Theorem interest_over_time_never_raises (sv : service) (w : world) :
  let r := safe_interest_over_time sv w in
  (exists df, r.1 = Returns df)
  /\ (fetches w < fetches r.2 <= fetches w + 6)%nat
  /\ (creates w <= creates r.2 <= creates w + 1)%nat
  /\ builds r.2 = builds w
  /\ ((consecutive_429_count w < 3)%nat -> (consecutive_429_count r.2 < 3)%nat).
Proof.
  cbv zeta. unfold safe_interest_over_time.
  destruct (fetch_loop_post sv (MAX_RETRIES cfg) 0 w eq_refl) as (Hd & Hb & Hf & Hc & Hk & _).
  cbn [MAX_RETRIES cfg hardened Nat.ltb Nat.leb] in *.
  repeat split; try lia; auto.
Qed.

(** X15: [safe_build_payload] makes at least one and at most six
    [build_payload] calls ([MAX_RETRIES] turns and one last attempt) and
    creates at most five new clients; it fetches nothing; whether it returns
    or raises, the throttle counter is below three afterwards, and zero when
    it returns. *)
Theorem build_payload_budget (sv : service) (w : world) :
  let r := safe_build_payload sv w in
  (builds w < builds r.2 <= builds w + 6)%nat
  /\ (creates w <= creates r.2 <= creates w + 5)%nat
  /\ fetches r.2 = fetches w
  /\ (consecutive_429_count r.2 < 3)%nat
  /\ ((exists e, r.1 = Raises e) \/ (r.1 = Returns tt /\ consecutive_429_count r.2 = O)).
Proof.
  cbv zeta. unfold safe_build_payload.
  destruct (build_loop_post sv (MAX_RETRIES cfg) 0 w eq_refl ltac:(cbn; lia))
    as (Hd & Hf & Hb & Hc & Hk & _).
  cbn [MAX_RETRIES cfg hardened Nat.ltb Nat.leb] in *.
  repeat split; try lia; auto.
Qed.

(** ** Batches and candidates *)

Lemma date_not_ispartial : is_ispartial "date" = false.
Proof. reflexivity. Qed.

Lemma drop_ispartial_valid raw :
  is_valid raw = true ->
  is_valid (drop_columns is_ispartial raw) = true
  /\ Forall (fun c => is_ispartial c = false) (columns (drop_columns is_ispartial raw))
  /\ length (rows (drop_columns is_ispartial raw)) = length (rows raw).
Proof.
  intros V. apply is_valid_iff in V. destruct V as (Hne & Hd & Hdates).
  assert (Hin : In "date" (List.filter (fun c => negb (is_ispartial c)) (columns raw))).
  { apply filter_In. split; [now apply has_col_In | reflexivity]. }
  split; [|split].
  - apply is_valid_iff. split; [|split].
    + unfold df_empty, drop_columns, reindex in *. cbn [columns rows].
      destruct (List.filter (fun c => negb (is_ispartial c)) (columns raw)); [contradiction|].
      destruct (columns raw); [discriminate|].
      destruct (rows raw); [discriminate|]. reflexivity.
    + apply has_col_In. exact Hin.
    + unfold column, drop_columns, reindex. cbn [columns rows]. rewrite map_map.
      unfold column in Hdates.
      erewrite map_ext; [exact Hdates|].
      intros r. cbn beta. now apply get_cell_align.
  - apply List.Forall_forall. intros c Hc. unfold drop_columns, reindex in Hc.
    cbn [columns] in Hc. apply filter_In in Hc. destruct Hc as [_ Hc].
    now apply negb_true_iff in Hc.
  - unfold drop_columns, reindex. cbn [rows]. apply length_map.
Qed.

Lemma fetch_batch_post sv w :
  let r := fetch_batch sv w in
  (exists o, r.1 = Returns o
             /\ forall df, o = Some df ->
                  exists raw, df = drop_columns is_ispartial raw /\ is_valid raw = true)
  /\ (builds w < builds r.2 <= builds w + 6)%nat
  /\ (fetches w <= fetches r.2 <= fetches w + 6)%nat
  /\ (creates w <= creates r.2 <= creates w + 6)%nat
  /\ (consecutive_429_count r.2 < 3)%nat
  /\ candidate_pauses r.2 = candidate_pauses w.
Proof.
  cbv zeta. unfold fetch_batch, try_except, bind, safe_build_payload,
    safe_interest_over_time.
  destruct (build_loop_post sv (MAX_RETRIES cfg) 0 w eq_refl ltac:(cbn; lia))
    as (_ & Hf & Hb & Hc & Hk & Hp).
  cbn [MAX_RETRIES cfg hardened Nat.ltb Nat.leb] in *.
  destruct (build_loop sv 5 0 w) as [[[]|e] w1]; cbn [fst snd] in *.
  - destruct (fetch_loop_post sv 5 0 w1 eq_refl) as ((df & Hd) & Hb' & Hf' & Hc' & Hk' & Hp').
    cbn [Nat.ltb Nat.leb] in *.
    destruct (fetch_loop sv 5 0 w1) as [o w2]. cbn [fst snd] in *. subst o.
    destruct (df_empty df) eqn:Ee; [|destruct (is_valid df) eqn:Ev]; unfold ret;
      cbn [negb fst snd].
    + split; [exists None; split; [reflexivity | discriminate]|]. repeat split; lia.
    + split; [|repeat split; lia].
      eexists. split; [reflexivity|]. intros df' E. injection E as <-.
      exists df. split; [reflexivity | assumption].
    + split; [exists None; split; [reflexivity | discriminate]|]. repeat split; lia.
  - unfold ret. cbn [fst snd].
    split; [exists None; split; [reflexivity | discriminate]|]. repeat split; lia.
Qed.

(** X16: the body of the loop over batches never raises; a frame it adds to
    the candidate's series has passed [validate_dataframe], is still valid
    after the [isPartial] columns are dropped, and has no such column left.
    One batch costs at most six [build_payload] calls, six requests and six
    new clients, and leaves the throttle counter below three. *)
Theorem fetch_batch_output (sv : service) (w : world) :
  let r := fetch_batch sv w in
  (exists o, r.1 = Returns o
             /\ forall df, o = Some df ->
                  is_valid df = true
                  /\ Forall (fun c => is_ispartial c = false) (columns df))
  /\ (builds w < builds r.2 <= builds w + 6)%nat
  /\ (fetches w <= fetches r.2 <= fetches w + 6)%nat
  /\ (creates w <= creates r.2 <= creates w + 6)%nat
  /\ (consecutive_429_count r.2 < 3)%nat.
Proof.
  cbv zeta.
  destruct (fetch_batch_post sv w) as ((o & Ho & Hdf) & Hb & Hf & Hc & Hk & _).
  split; [|tauto].
  exists o. split; [assumption|]. intros df E.
  destruct (Hdf df E) as (raw & -> & V).
  destruct (drop_ispartial_valid raw V) as (V' & Hcols & _). now split.
Qed.

Lemma fetch_batches_post sv batches w :
  let r := fetch_batches sv batches w in
  (exists frames, r.1 = Returns frames
                  /\ (length frames <= length batches)%nat
                  /\ Forall (fun df => is_valid df = true) frames)
  /\ (builds w + length batches <= builds r.2 <= builds w + 6 * length batches)%nat
  /\ (fetches w <= fetches r.2 <= fetches w + 6 * length batches)%nat
  /\ ((consecutive_429_count w < 3)%nat -> (consecutive_429_count r.2 < 3)%nat)
  /\ candidate_pauses r.2 = candidate_pauses w.
Proof.
  revert w. induction batches as [|b batches IH]; intros w; cbv zeta.
  - cbn [fetch_batches]. unfold ret. cbn [fst snd length].
    split; [exists []; split; [reflexivity | split; [cbn; lia | constructor]]|].
    repeat split; try lia.
  - cbn [fetch_batches]. unfold bind.
    destruct (fetch_batch_post sv w) as ((o & Ho & Hdf) & Hb & Hf & _ & Hk & Hp).
    destruct (fetch_batch sv w) as [o' w1]. cbn [fst snd] in *. subst o'.
    destruct (IH w1) as ((frames & Hfr & Hlen & Hval) & Hb' & Hf' & Hk' & Hp').
    destruct (fetch_batches sv batches w1) as [o' w2]. cbn [fst snd] in *. subst o'.
    unfold ret. cbn [fst snd length].
    split; [|repeat split; try lia; auto].
    eexists. split; [reflexivity|].
    destruct o as [df|]; cbn [length]; split; try lia; auto.
    constructor; [|assumption].
    destruct (Hdf df eq_refl) as (raw & -> & V).
    exact (proj1 (drop_ispartial_valid raw V)).
Qed.

Lemma collect_all_post sv first cands w :
  let r := collect_all sv first cands w in
  (exists frames, r.1 = Returns frames /\ (length frames <= length cands)%nat)
  /\ (builds w + total_batches cands <= builds r.2 <= builds w + 6 * total_batches cands)%nat
  /\ (fetches w <= fetches r.2 <= fetches w + 6 * total_batches cands)%nat
  /\ ((consecutive_429_count w < 3)%nat -> (consecutive_429_count r.2 < 3)%nat)
  /\ candidate_pauses r.2
     = (candidate_pauses w + (length cands - (if first then 1 else 0)))%nat.
Proof.
  revert first w. induction cands as [|[cname aliases] cands IH]; intros first w; cbv zeta.
  - cbn [collect_all]. unfold ret. cbn [fst snd length total_batches map list_sum].
    split; [exists []; split; [reflexivity | cbn; lia]|].
    change (total_batches []) with 0%nat. destruct first; repeat split; try lia.
  - cbn [collect_all]. unfold collect, bind.
    set (w0 := ((if first then ret tt else sleep BetweenCandidates PAUSE_BETWEEN_CANDIDATES)
                  w)).
    assert (H0 : w0.1 = Returns tt /\ builds w0.2 = builds w /\ fetches w0.2 = fetches w
                 /\ consecutive_429_count w0.2 = consecutive_429_count w
                 /\ candidate_pauses w0.2
                    = (candidate_pauses w + (if first then 0 else 1))%nat).
    { unfold w0. destruct first; destruct w; unfold ret, sleep; cbn [fst snd];
        repeat split; pauses. }
    destruct H0 as (E0 & B0 & F0 & K0 & P0).
    destruct w0 as [o0 w1]. cbn [fst snd] in *. subst o0.
    destruct (fetch_batches_post sv (alias_batches aliases) w1)
      as ((series & Hs & _) & Hb & Hf & Hk & Hp).
    destruct (fetch_batches sv (alias_batches aliases) w1) as [o w2].
    cbn [fst snd] in *. subst o. unfold ret. cbn beta iota.
    destruct (IH false w2) as ((frames & Hfr & Hlen) & Hb' & Hf' & Hk' & Hp').
    destruct (collect_all sv false cands w2) as [o w3]. cbn [fst snd] in *. subst o.
    unfold ret. cbn [fst snd length].
    unfold total_batches, list_sum in *. cbn [map fold_right snd] in *.
    split.
    + eexists. split; [reflexivity|].
      destruct (combine_aliases cname series); cbn [length]; lia.
    + destruct first; repeat split; try lia.
      all: intros Hw; apply Hk'; apply Hk; lia.
Qed.

Lemma batches_from_spec fuel aliases :
  (length aliases <= fuel)%nat ->
  List.concat (batches_from fuel aliases) = aliases
  /\ Forall (fun b => (1 <= length b <= 5)%nat) (batches_from fuel aliases)
  /\ (5 * length (batches_from fuel aliases) < length aliases + 5)%nat
  /\ (length aliases <= 5 * length (batches_from fuel aliases))%nat.
Proof.
  revert aliases. induction fuel as [|fuel IH]; intros aliases Hlen.
  - destruct aliases; [|cbn in Hlen; lia]. cbn. repeat split; try lia. constructor.
  - destruct aliases as [|a l]; [cbn; repeat split; try lia; constructor|].
    change (batches_from (S fuel) (a :: l))
      with (firstn 5 (a :: l) :: batches_from fuel (skipn 5 (a :: l))).
    assert (Hsk : (length (skipn 5 (a :: l)) <= fuel)%nat).
    { rewrite length_skipn. cbn [length] in *. lia. }
    destruct (IH _ Hsk) as (Hc & Hf & Hlo & Hhi).
    cbn [List.concat length]. rewrite Hc, firstn_skipn.
    rewrite length_skipn in Hlo, Hhi.
    repeat split; try (cbn [length] in *; lia).
    constructor; [|assumption].
    rewrite length_firstn. cbn [length]. lia.
Qed.

(** X17: the batches of a candidate are its aliases cut into pieces in order:
    concatenated they give the aliases back, every batch has between one and
    five aliases, and there are as many batches as the aliases need at five
    apiece. *)
Theorem alias_batches_spec (aliases : list string) :
  List.concat (alias_batches aliases) = aliases
  /\ Forall (fun b => (1 <= length b <= 5)%nat) (alias_batches aliases)
  /\ length (alias_batches aliases) = ((length aliases + 4) / 5)%nat.
Proof.
  unfold alias_batches.
  destruct (batches_from_spec (length aliases) aliases (Nat.le_refl _))
    as (Hc & Hf & Hlo & Hhi).
  repeat split; try assumption.
  apply (Nat.div_unique _ 5 _ (length aliases + 4
                                         - 5 * length (batches_from (length aliases) aliases)));
    lia.
Qed.

(** X18: [fetch_last_90_days] pauses between candidates exactly once less
    than there are candidates; every batch costs at least one and at most six
    [build_payload] calls and at most six requests; a throttle counter below
    three stays below three; and the only way it raises is the date
    conversion of the assembled window. *)
Theorem fetch_last_90_days_budget (sv : service) (cands : list (string * list string))
        (w : world) :
  let r := fetch_last_90_days sv cands w in
  ((exists out, r.1 = Returns out) \/ r.1 = Raises OtherException)
  /\ candidate_pauses r.2 = (candidate_pauses w + (length cands - 1))%nat
  /\ (builds w + total_batches cands <= builds r.2 <= builds w + 6 * total_batches cands)%nat
  /\ (fetches w <= fetches r.2 <= fetches w + 6 * total_batches cands)%nat
  /\ ((consecutive_429_count w < 3)%nat -> (consecutive_429_count r.2 < 3)%nat).
Proof.
  cbv zeta. unfold fetch_last_90_days, bind.
  destruct (collect_all_post sv true cands w) as ((frames & Hfr & _) & Hb & Hf & Hk & Hp).
  destruct (collect_all sv true cands w) as [o w1]. cbn [fst snd] in *. subst o.
  destruct (assemble (map fst cands) frames) as [out|]; unfold ret, raise; cbn [fst snd].
  - split; [left; now exists out|]. tauto.
  - split; [now right|]. tauto.
Qed.

Lemma network_down_batches sv batches w :
  (forall k, build_payload_reply sv k = Raises RequestException) ->
  (forall k, make_pytrends_reply sv k = Returns tt
             \/ make_pytrends_reply sv k = Raises RequestException) ->
  (fetch_batches sv batches w).1 = Returns []
  /\ fetches (fetch_batches sv batches w).2 = fetches w.
Proof.
  intros Hb Hm. revert w. induction batches as [|b batches IH]; intros w.
  - split; reflexivity.
  - cbn [fetch_batches]. unfold bind.
    destruct (network_down_batch sv w Hb Hm) as [H1 _].
    assert (Hf : fetches (fetch_batch sv w).2 = fetches w).
    { unfold fetch_batch, try_except, bind.
      destruct (network_down_build sv w Hb Hm) as [E _].
      pose proof (build_loop_post sv (MAX_RETRIES cfg) 0 w eq_refl ltac:(cbn; lia))
        as (_ & Hfe & _).
      fold (safe_build_payload sv w) in Hfe.
      destruct (safe_build_payload sv w) as [[a|e] w1]; cbn [fst snd] in *;
        [discriminate | exact Hfe]. }
    destruct (fetch_batch sv w) as [o w1]. cbn [fst snd] in *. subst o.
    destruct (IH w1) as [H2 H3].
    destruct (fetch_batches sv batches w1) as [o w2]. cbn [fst snd] in *. subst o.
    unfold ret. cbn [fst snd]. split; [reflexivity | congruence].
Qed.

Lemma network_down_collect_all sv first cands w :
  (forall k, build_payload_reply sv k = Raises RequestException) ->
  (forall k, make_pytrends_reply sv k = Returns tt
             \/ make_pytrends_reply sv k = Raises RequestException) ->
  (collect_all sv first cands w).1 = Returns []
  /\ fetches (collect_all sv first cands w).2 = fetches w.
Proof.
  intros Hb Hm. revert first w.
  induction cands as [|[cname aliases] cands IH]; intros first w.
  - split; reflexivity.
  - cbn [collect_all]. unfold collect, bind.
    set (w0 := ((if first then ret tt else sleep BetweenCandidates PAUSE_BETWEEN_CANDIDATES)
                  w)).
    assert (H0 : w0.1 = Returns tt /\ fetches w0.2 = fetches w).
    { unfold w0. destruct first; destruct w; split; reflexivity. }
    destruct H0 as [E0 F0]. destruct w0 as [o0 w1]. cbn [fst snd] in *. subst o0.
    destruct (network_down_batches sv (alias_batches aliases) w1 Hb Hm) as [H1 H2].
    destruct (fetch_batches sv (alias_batches aliases) w1) as [o w2].
    cbn [fst snd] in *. subst o. unfold ret. cbn beta iota.
    destruct (IH false w2) as [H3 H4].
    destruct (collect_all sv false cands w2) as [o w3]. cbn [fst snd] in *. subst o.
    cbn [combine_aliases fst snd]. split; [reflexivity | congruence].
Qed.

(** X19: with the network down for the whole run, whoever the candidates are,
    [fetch_last_90_days] returns the empty frame without having made a single
    request for data; and on the frame it returns [main] ends at once,
    whatever the history and the disk: the run completes, no file is backed
    up or written, and the files are as they were. *)
Theorem outage_empties_window (sv : service) (cands : list (string * list string))
        (w : world) :
  (forall k, build_payload_reply sv k = Raises RequestException) ->
  (forall k, make_pytrends_reply sv k = Returns tt
             \/ make_pytrends_reply sv k = Raises RequestException) ->
  let r := fetch_last_90_days sv cands w in
  r.1 = Returns empty_frame
  /\ fetches r.2 = fetches w
  /\ forall df90, r.1 = Returns df90 ->
       forall names stored o o1 o2 fs,
         Run.after_fetch names stored o o1 o2 df90 fs = (true, fs, []).
Proof.
  intros Hb Hm. cbv zeta. unfold fetch_last_90_days, bind.
  destruct (network_down_collect_all sv true cands w Hb Hm) as [H1 H2].
  destruct (collect_all sv true cands w) as [o w1]. cbn [fst snd] in *. subst o.
  cbn [assemble]. unfold ret. cbn [fst snd]. split; [reflexivity|].
  split; [exact H2|]. intros df90 [= <-]. reflexivity.
Qed.

Lemma outage_empties_window_witness :
  (fetch_last_90_days service_down CANDIDATES_simple world_at_start).1
  = Returns empty_frame
  /\ Run.after_fetch ["A"] (Some history_A) io_fine io_fine io_fine empty_frame
       disk_with_history
     = (true, disk_with_history, []).
Proof.
  destruct (outage_empties_window service_down CANDIDATES_simple world_at_start)
    as (Hr & _ & Hmain).
  - intros k. reflexivity.
  - intros k. right. reflexivity.
  - split; [exact Hr|]. exact (Hmain empty_frame Hr _ _ _ _ _ _).
Defined.

(** ** The series of a candidate *)

Lemma distinct_incl l x : In x (distinct l) -> In x l.
Proof.
  induction l as [|y l IH]; cbn [distinct]; [easy|].
  intros [->|H]; [now left|]. right. apply filter_In in H. tauto.
Qed.

Lemma left_only_date a k :
  In "date" (columns a) -> get_cell (columns a) (left_only a k) "date" = k.
Proof.
  intros Hd. unfold get_cell, left_only.
  destruct (col_index_In _ _ Hd) as [i Hi]. rewrite Hi.
  destruct (col_index_Some _ _ _ Hi) as [Hlt Hn].
  set (f := fun c => if String.string_dec c "date" then k else NaN).
  rewrite (nth_indep _ NaN (f "")) by now rewrite length_map.
  rewrite map_nth, Hn. unfold f. now destruct (String.string_dec "date" "date").
Qed.

Lemma left_only_length a k : length (left_only a k) = length (columns a).
Proof. apply length_map. Qed.

(** Every row of a block carries the block's key as its date. *)
Lemma merge_block_date a b k r :
  rows_ok a -> In "date" (columns a) ->
  In r (merge_block a b k) ->
  date_of (merge_columns a b) r = k.
Proof.
  intros Hok Hd Hr. unfold rows_ok in Hok. rewrite List.Forall_forall in Hok.
  unfold merge_block in Hr.
  assert (Hl : forall l, In l (rows_with (columns a) k (rows a)) ->
                         length l = length (columns a) /\ date_of (columns a) l = k).
  { intros l Hin. apply filter_In in Hin. destruct Hin as [Hin E].
    split; [now apply Hok | now apply cell_eqb_eq]. }
  unfold date_of, merge_columns.
  destruct (rows_with (columns a) k (rows a)) as [|l0 ls] eqn:El.
  - apply in_map_iff in Hr. destruct Hr as (r0 & <- & _).
    rewrite get_cell_padded by (auto using left_only_length).
    now apply left_only_date.
  - destruct (rows_with (columns b) k (rows b)) as [|r0 rs] eqn:Er.
    + apply in_map_iff in Hr. destruct Hr as (l & <- & Hin).
      destruct (Hl l Hin) as [Hlen Hk].
      now rewrite get_cell_padded.
    + apply in_flat_map in Hr. destruct Hr as (l & Hin & Hr).
      apply in_map_iff in Hr. destruct Hr as (r1 & <- & _).
      destruct (Hl l Hin) as [Hlen Hk].
      now rewrite get_cell_padded.
Qed.

Lemma merge_outer_dates a b r :
  rows_ok a -> In "date" (columns a) ->
  In r (rows (merge_outer a b)) ->
  In (date_of (columns (merge_outer a b)) r) (column a "date" ++ column b "date").
Proof.
  intros Hok Hd Hr. unfold merge_outer in *. cbn [rows columns] in *.
  apply in_flat_map in Hr. destruct Hr as (k & Hk & Hr).
  rewrite (merge_block_date a b k r Hok Hd Hr).
  apply distinct_incl.
  eapply Permutation_in; [symmetry; apply sort_by_perm | exact Hk].
Qed.

Lemma merge_outer_has_date a b : In "date" (columns a) -> In "date" (columns (merge_outer a b)).
Proof. intros H. unfold merge_outer, merge_columns. cbn [columns]. apply in_or_app. now left. Qed.

Lemma join_all_dates more first r :
  rows_ok first -> In "date" (columns first) ->
  Forall (fun c => readable c) (column first "date") ->
  Forall (fun df => Forall (fun c => readable c) (column df "date")) more ->
  In r (rows (fold_left merge_outer more first)) ->
  In "date" (columns (fold_left merge_outer more first))
  /\ readable (date_of (columns (fold_left merge_outer more first)) r).
Proof.
  revert first r. induction more as [|b more IH]; intros first r Hok Hd Hf Hm Hr.
  - cbn [fold_left] in *. split; [assumption|].
    rewrite List.Forall_forall in Hf. apply Hf. unfold column.
    apply in_map_iff. exists r. split; [reflexivity | assumption].
  - cbn [fold_left] in *. inversion Hm as [|? ? Hb Hm']; subst.
    apply IH; auto.
    + now apply merge_outer_ok.
    + now apply merge_outer_has_date.
    + apply List.Forall_forall. intros c Hc. unfold column in Hc.
      apply in_map_iff in Hc. destruct Hc as (r0 & <- & Hr0).
      pose proof (merge_outer_dates first b r0 Hok Hd Hr0) as Hin.
      apply in_app_or in Hin. rewrite List.Forall_forall in Hf, Hb.
      destruct Hin as [Hin|Hin]; [now apply Hf | now apply Hb].
Qed.

Lemma readable_to_date c : readable c -> exists z, to_date c = Some (Day z).
Proof.
  unfold readable. destruct c; cbn; intros H; try congruence; eexists; reflexivity.
Qed.

Lemma valid_dates_readable df :
  is_valid df = true ->
  In "date" (columns df) /\ Forall (fun c => readable c) (column df "date").
Proof.
  intros V. apply is_valid_iff in V. destruct V as (_ & Hd & Hdates).
  split; [now apply has_col_In | exact Hdates].
Qed.

Lemma Forall2_In_r {A B} (R : A -> B -> Prop) l l' y :
  Forall2 R l l' -> In y l' -> exists x, In x l /\ R x y.
Proof.
  induction 1 as [|x y0 l l' HR HF IH]; cbn; [easy|].
  intros [<-|Hy]; [exists x; tauto|].
  destruct (IH Hy) as (x0 & Hx & HR0). exists x0. tauto.
Qed.

(** X20: what [fetch_last_90_days] keeps for a candidate is a series in the
    shape the assembly of the window relies on: from batches that passed
    validation it has the labels [date] and the candidate's name, a day in
    every date cell and a number or a hole in every value cell. *)
Theorem candidate_series (cname : string) (alias_series : list DataFrame) (res : DataFrame) :
  cname <> "date" ->
  Forall rows_ok alias_series ->
  Forall (fun df => is_valid df = true) alias_series ->
  combine_aliases cname alias_series = Some res ->
  is_series cname res.
Proof.
  intros Hne Hok Hval. unfold combine_aliases.
  destruct alias_series as [|first more]; [discriminate|].
  destruct (negb _); [discriminate|].
  destruct (dates_to_date (fold_left merge_outer more first)) as [merged|] eqn:Ed;
    [|discriminate].
  destruct (alias_cols merged) as [|c0 cs] eqn:Ea; [discriminate|].
  intros [= <-].
  inversion Hok as [|? ? Hok1 Hok']; subst.
  inversion Hval as [|? ? Hv1 Hv']; subst.
  destruct (valid_dates_readable first Hv1) as [Hd1 Hr1].
  assert (Hrm : Forall (fun df => Forall (fun c => readable c) (column df "date")) more).
  { apply List.Forall_forall. intros df Hdf. rewrite List.Forall_forall in Hv'.
    exact (proj2 (valid_dates_readable df (Hv' df Hdf))). }
  set (J := fold_left merge_outer more first) in *.
  assert (Jok : rows_ok J) by now apply join_all_ok.
  assert (Mok : rows_ok merged) by exact (dates_to_date_ok _ _ Ed Jok).
  destruct (dates_to_date_shape _ _ Ed) as (Hc & i & Hi & Hrows).
  assert (Md : In "date" (columns merged)).
  { rewrite Hc. destruct (col_index_Some _ _ _ Hi) as [Hlt <-]. now apply nth_In. }
  split; [reflexivity|].
  rewrite assign_then_select by assumption.
  apply List.Forall_forall. intros r Hr. apply in_map_iff in Hr.
  destruct Hr as (r' & <- & Hr').
  destruct (Forall2_In_r _ _ _ _ Hrows Hr') as (r0 & Hr0 & c & Hto & ->).
  unfold rows_ok in Jok. rewrite List.Forall_forall in Jok.
  destruct (join_all_dates more first r0 Hok1 Hd1 Hr1 Hrm Hr0) as [_ Hread].
  fold J in Hread. unfold date_of, get_cell in Hread. rewrite Hi in Hread.
  destruct (readable_to_date _ Hread) as [z Hz]. rewrite Hz in Hto. injection Hto as <-.
  exists z. eexists. split.
  - f_equal. unfold date_of, get_cell. rewrite Hc, Hi.
    apply nth_set_nth. rewrite (Jok r0 Hr0). exact (proj1 (col_index_Some _ _ _ Hi)).
  - unfold row_max. now destruct (series_max _).
Qed.

Lemma candidate_series_witness :
  is_series "Evelyn Matthei"
            (mkDF ["date"; "Evelyn Matthei"] [[Day 20089; Num 30]; [Day 20090; Num 25]]).
Proof.
  apply (candidate_series "Evelyn Matthei" [batch_matthei]).
  - discriminate.
  - exact batch_matthei_ok.
  - repeat constructor.
  - vm_compute. reflexivity.
Defined.

(** ** The simple collector *)

Ltac run_simple :=
  unfold Simple.safe_build_payload, Simple.safe_interest_over_time,
    Simple.build_loop, Simple.fetch_loop, Simple.build_turn, Simple.fetch_turn,
    Simple.handler, Simple.backoff_sleep, try_except, bind, random_uniform, sleep,
    build_payload, interest_over_time, ret, raise;
  simpl.

Ltac simple_fin :=
  repeat split; try lia; try tally; try (intros; assumption); try discriminate;
  try (intros [= <-]; reflexivity);
  try (eexists; eexists; split; reflexivity);
  try (intros ([= <-] & _); reflexivity);
  try (intros (? & _); discriminate);
  try (intros (_ & ? & ? & ? & ?); discriminate).

(** X21: the simple [safe_build_payload] calls [build_payload] at most three
    times, stops at the first call that succeeds, and when all three fail
    raises what the third raised.  It creates no client, fetches nothing and
    knows no throttle counter or cooldown. *)
Theorem simple_build_payload_spec (sv : service) (w : world) :
  let r := Simple.safe_build_payload sv w in
  let reply k := build_payload_reply sv (builds w + k) in
  (builds w < builds r.2 <= builds w + 3)%nat
  /\ creates r.2 = creates w /\ fetches r.2 = fetches w
  /\ consecutive_429_count r.2 = consecutive_429_count w
  /\ cooldowns r.2 = cooldowns w
  /\ (forall e, r.1 = Raises e <->
                reply 2%nat = Raises e
                /\ (exists e0 e1, reply 0%nat = Raises e0 /\ reply 1%nat = Raises e1))
  /\ (r.1 = Returns tt -> reply (builds r.2 - builds w - 1)%nat = Returns tt).
Proof.
  cbv zeta. destruct w as [c cr b f d sl]. cbn [builds creates fetches consecutive_429_count].
  rewrite Nat.add_0_r.
  replace (b + 1)%nat with (S b) by lia. replace (b + 2)%nat with (S (S b)) by lia.
  run_simple.
  destruct (build_payload_reply sv b) as [[]|[| |]] eqn:E0; simpl;
    try (destruct (build_payload_reply sv (S b)) as [[]|[| |]] eqn:E1; simpl);
    try (destruct (build_payload_reply sv (S (S b))) as [[]|[| |]] eqn:E2; simpl);
    try replace (S b - b - 1)%nat with 0%nat by lia;
    try replace (S (S b) - b - 1)%nat with 1%nat by lia;
    try replace (S (S (S b)) - b - 1)%nat with 2%nat by lia;
    rewrite ?Nat.add_0_r;
    try replace (b + 1)%nat with (S b) by lia;
    try replace (b + 2)%nat with (S (S b)) by lia;
    simple_fin.
Qed.

(** X22: the simple [safe_interest_over_time] makes at most three requests
    and hands on what the first successful one returns as it is, [None]
    included; when all three fail it raises what the third raised, where the
    hardened wrapper returns an empty frame. *)
Theorem simple_interest_over_time_spec (sv : service) (w : world) :
  let r := Simple.safe_interest_over_time sv w in
  let reply k := interest_over_time_reply sv (fetches w + k) in
  (fetches w < fetches r.2 <= fetches w + 3)%nat
  /\ creates r.2 = creates w /\ builds r.2 = builds w
  /\ consecutive_429_count r.2 = consecutive_429_count w
  /\ cooldowns r.2 = cooldowns w
  /\ (forall e, r.1 = Raises e <->
                reply 2%nat = Raises e
                /\ (exists e0 e1, reply 0%nat = Raises e0 /\ reply 1%nat = Raises e1))
  /\ (forall o, r.1 = Returns o -> reply (fetches r.2 - fetches w - 1)%nat = Returns o).
Proof.
  cbv zeta. destruct w as [c cr b f d sl]. cbn [builds creates fetches consecutive_429_count].
  rewrite Nat.add_0_r.
  replace (f + 1)%nat with (S f) by lia. replace (f + 2)%nat with (S (S f)) by lia.
  run_simple.
  destruct (interest_over_time_reply sv f) as [o0|[| |]] eqn:E0; simpl;
    try (destruct (interest_over_time_reply sv (S f)) as [o1|[| |]] eqn:E1; simpl);
    try (destruct (interest_over_time_reply sv (S (S f))) as [o2|[| |]] eqn:E2; simpl);
    try replace (S f - f - 1)%nat with 0%nat by lia;
    try replace (S (S f) - f - 1)%nat with 1%nat by lia;
    try replace (S (S (S f)) - f - 1)%nat with 2%nat by lia;
    rewrite ?Nat.add_0_r;
    try replace (f + 1)%nat with (S f) by lia;
    try replace (f + 2)%nat with (S (S f)) by lia;
    simple_fin;
    try (intros o [= <-]; assumption).
Qed.

Lemma dates_ok_rows df :
  dates_ok df -> forall r, In r (rows df) -> exists z, date_of (columns df) r = Day z.
Proof.
  intros Hall r Hr. unfold dates_ok, column in Hall. rewrite List.Forall_forall in Hall.
  apply Hall. apply in_map_iff. exists r. split; [reflexivity | assumption].
Qed.

Lemma dates_ok_datetime df :
  df_empty df = false -> dates_ok df -> is_datetime (column df "date") = true.
Proof.
  intros Hne Hall. unfold is_datetime. apply andb_true_iff. split.
  - apply forallb_forall. intros c Hc. unfold dates_ok in Hall.
    rewrite List.Forall_forall in Hall. destruct (Hall c Hc) as [z ->]. reflexivity.
  - unfold df_empty in Hne. destruct (columns df) eqn:Ec; [discriminate|].
    unfold dates_ok, column in *. rewrite Ec in *.
    destruct (rows df) as [|r rs]; [discriminate|].
    inversion Hall as [|? ? [z Hz] _]; subst. cbn [map existsb]. now rewrite Hz.
Qed.

(** X23: on a history that is not empty and whose dates are all days, the
    simple collector merges exactly as the hardened one does. *)
Theorem simple_merge_agrees (names : list string) (hist W : DataFrame) :
  df_empty hist = false ->
  has_col "date" (columns hist) = true ->
  dates_ok hist ->
  Simple.merge names (Some hist) W = Some (merge names hist W).
Proof.
  intros Hne Hd Hall. unfold Simple.merge, Simple.dt_date.
  rewrite Hd, (dates_ok_datetime hist Hne Hall). cbn [andb].
  unfold merge, step2. rewrite Hne, Hd. cbn [negb orb].
  rewrite (clean_history_same hist Hd (dates_ok_rows hist Hall)). reflexivity.
Qed.

Lemma simple_merge_agrees_witness :
  Simple.merge ["A"] (Some history_A) window_A = Some (merge ["A"] history_A window_A).
Proof.
  apply (simple_merge_agrees ["A"] history_A window_A).
  - reflexivity.
  - reflexivity.
  - repeat constructor; eexists; reflexivity.
Defined.

(** X24: the simple collector saves without validating and without a
    backup: a history whose dates it cannot read ends the run before anything
    is written; otherwise, when the CSV write succeeds, the daily CSV holds
    the merged frame whatever it contains; and no file other than the two
    daily files is created or changed. *)
Theorem simple_save_spec (names : list string) (stored : option DataFrame) (o : io)
        (df90 : DataFrame) (fs : gmap path file) :
  let r := Simple.merge_and_save names stored o df90 fs in
  (forall p, p <> OUT_CSV_DAILY -> p <> OUT_PARQUET_DAILY -> r.1.2 !! p = fs !! p)
  /\ forallb is_write r.2 = true
  /\ (forall combo, Simple.merge names stored df90 = Some combo ->
        to_csv o = Succeeds -> r.1.2 !! OUT_CSV_DAILY = Some (Csv combo))
  /\ (Simple.merge names stored df90 = None -> r = (false, fs, [])).
Proof.
  cbv zeta. unfold Simple.merge_and_save, Simple.save.
  destruct (Simple.merge names stored df90) as [combo|]; cbn [fst snd].
  - destruct (to_csv o) as [|res]; [destruct (to_parquet o) as [|res]|]; cbn [fst snd];
      repeat split; try discriminate; try reflexivity.
    + intros p H1 H2. now rewrite !lookup_insert_ne by congruence.
    + intros c [= <-] _. rewrite lookup_insert_ne by discriminate. apply lookup_insert_eq.
    + intros p H1 H2. rewrite lookup_put_ne by congruence.
      now rewrite lookup_insert_ne by congruence.
    + intros c [= <-] _. rewrite lookup_put_ne by discriminate. apply lookup_insert_eq.
    + intros p H1 H2. now rewrite lookup_put_ne by congruence.
  - repeat split; try reflexivity. intros combo H. discriminate.
Qed.

(** ** Backoff inside the retry loops *)

(** X25: in both collectors a backoff inside the retry loop never reaches the
    cap: for an attempt that is not the last and a jitter in its range, the
    sleep is exactly [BASE_SLEEP_SECONDS * 2 ** attempt + jitter], and below
    the cap. *)
Theorem backoff_never_capped (c : config) (attempt : nat) (j : Q) :
  c = hardened \/ c = simple ->
  (S attempt < MAX_RETRIES c)%nat ->
  (0 <= j)%Q -> (j <= JITTER c)%Q ->
  (Backoff.delay c attempt None j == BASE_SLEEP_SECONDS c * Backoff.pow2 attempt + j)%Q
  /\ (Backoff.delay c attempt None j < MAX_BACKOFF_CAP c)%Q.
Proof.
  intros Hc Hlt H0 Hj.
  assert (Hbelow : (BASE_SLEEP_SECONDS c * Backoff.pow2 attempt + j < MAX_BACKOFF_CAP c)%Q).
  { destruct Hc as [-> | ->]; cbn [MAX_RETRIES hardened simple] in Hlt;
      cbn [BASE_SLEEP_SECONDS MAX_BACKOFF_CAP JITTER hardened simple] in *.
    - assert (Hp : (Backoff.pow2 attempt <= 8)%Q).
      { change 8%Q with (Backoff.pow2 3). apply pow2_mono. lia. }
      lra.
    - assert (Hp : (Backoff.pow2 attempt <= 2)%Q).
      { change 2%Q with (Backoff.pow2 1). apply pow2_mono. lia. }
      lra. }
  assert (E : (Backoff.delay c attempt None j
               == BASE_SLEEP_SECONDS c * Backoff.pow2 attempt + j)%Q).
  { unfold Backoff.delay. apply Q.min_l. now apply Qlt_le_weak. }
  split; [exact E|]. now rewrite E.
Qed.

Lemma backoff_never_capped_witness :
  (Backoff.delay hardened 3 None 10 < MAX_BACKOFF_CAP hardened)%Q.
Proof.
  refine (proj2 (backoff_never_capped hardened 3 10 _ _ _ _)).
  - now left.
  - simpl. lia.
  - discriminate.
  - discriminate.
Defined.

(** ** Which columns the validator warns about *)

Lemma fold_min_le (l : list Z) (v : Z) : fold_left Z.min l v <= v.
Proof.
  revert v. induction l as [|x l IH]; simpl; intros v; [lia|].
  specialize (IH (Z.min v x)). lia.
Qed.

Lemma fold_min_bound (l : list Z) (v x : Z) : In x l -> fold_left Z.min l v <= x.
Proof.
  revert v. induction l as [|y l IH]; simpl; intros v; [easy|].
  intros [->|H]; [|now apply IH].
  pose proof (fold_min_le l (Z.min v x)). lia.
Qed.

Lemma fold_min_In (l : list Z) (v : Z) : In (fold_left Z.min l v) (v :: l).
Proof.
  revert v. induction l as [|y l IH]; simpl; intros v; [now left|].
  destruct (IH (Z.min v y)) as [E|H]; [|now right; right].
  rewrite <- E. destruct (Z.min_spec v y) as [[_ ->]|[_ ->]]; [now left | right; now left].
Qed.

(** [series_min] is the smallest number of the series. *)
Lemma series_min_spec (l : list cell) (v : Z) :
  series_min l = Some v -> In (Num v) l /\ forall w, In (Num w) l -> v <= w.
Proof.
  unfold series_min. destruct (numbers_of l) as [|x xs] eqn:E; [discriminate|].
  intros [= <-]. split.
  - apply numbers_of_In. rewrite E. apply fold_min_In.
  - intros w Hw. apply numbers_of_In in Hw. rewrite E in Hw.
    destruct Hw as [<-|Hw]; [apply fold_min_le | now apply fold_min_bound].
Qed.

Lemma series_extremes_exist (l : list cell) (v : Z) :
  In (Num v) l -> exists lo hi, series_min l = Some lo /\ series_max l = Some hi.
Proof.
  intros H. apply numbers_of_In in H. unfold series_min, series_max.
  destruct (numbers_of l); [contradiction|]. eauto.
Qed.

Lemma out_of_range_iff (l : list cell) :
  (lt0 (series_min l) || gt1000 (series_max l)) = true
  <-> exists v, In (Num v) l /\ (v < 0 \/ 1000 < v).
Proof.
  split.
  - intros H. apply orb_true_iff in H. destruct H as [H|H].
    + destruct (series_min l) as [m|] eqn:E; [|discriminate]. cbn in H.
      apply Z.ltb_lt in H. destruct (series_min_spec l m E) as [Hin _]. eauto.
    + destruct (series_max l) as [m|] eqn:E; [|discriminate]. cbn in H.
      apply Z.ltb_lt in H. destruct (series_max_spec l m E) as [Hin _]. eauto.
  - intros (v & Hin & Hv). destruct (series_extremes_exist l v Hin) as (lo & hi & El & Eh).
    rewrite El, Eh. cbn. apply orb_true_iff.
    destruct (series_min_spec l lo El) as [_ Hlo]. destruct (series_max_spec l hi Eh) as [_ Hhi].
    specialize (Hlo v Hin). specialize (Hhi v Hin).
    destruct Hv; [left; apply Z.ltb_lt | right; apply Z.ltb_lt]; lia.
Qed.

(** X26: a valid frame is accepted with one warning for every numeric
    column other than [date] that holds a number below 0 or above 1000, and
    with no other: a column is warned about exactly when it is such a column;
    a frame whose numbers all lie in that range is accepted silently. *)
Theorem warned_columns (df : DataFrame) (c : string) :
  is_valid df = true ->
  fst (validate_dataframe (Some df)) = (true, OK)
  /\ ((exists lo hi, In (OutOfRange c lo hi) (snd (validate_dataframe (Some df))))
      <-> In c (columns df) /\ numeric_col df c = true /\ c <> "date"
          /\ exists v, In (Num v) (column df c) /\ (v < 0 \/ 1000 < v))
  /\ ((forall c' v, In (Num v) (column df c') -> 0 <= v <= 1000) ->
      snd (validate_dataframe (Some df)) = []).
Proof.
  intros V. unfold is_valid in V. unfold validate_dataframe in *.
  destruct (df_empty df); [discriminate|].
  destruct (negb (has_col "date" (columns df))); [discriminate|].
  cbv zeta in *.
  destruct (0 <? count_nat (map to_datetime_coerce (column df "date")))%nat; [discriminate|].
  cbn [fst snd]. split; [reflexivity|]. split; [split|].
  - intros (lo & hi & Hin). unfold range_warnings in Hin.
    apply in_flat_map in Hin. destruct Hin as (col & Hcol & Hin).
    unfold select_numeric in Hcol. apply filter_In in Hcol. destruct Hcol as [Hc Hn].
    destruct (String.string_dec col "date") as [|Hne]; [contradiction|].
    cbv zeta in Hin.
    destruct (lt0 (series_min (column df col)) || gt1000 (series_max (column df col)))
      eqn:E; [|contradiction].
    destruct Hin as [[= -> <- <-]|[]].
    repeat split; try assumption. now apply out_of_range_iff.
  - intros (Hc & Hn & Hne & Hv). apply out_of_range_iff in Hv.
    exists (series_min (column df c)), (series_max (column df c)).
    unfold range_warnings. apply in_flat_map. exists c. split.
    + unfold select_numeric. apply filter_In. now split.
    + destruct (String.string_dec c "date"); [contradiction|]. cbv zeta.
      rewrite Hv. now left.
  - intros Hall. unfold range_warnings.
    induction (select_numeric df) as [|col cols IH]; [reflexivity|].
    cbn [flat_map]. rewrite IH, app_nil_r.
    destruct (String.string_dec col "date"); [reflexivity|]. cbv zeta.
    destruct (lt0 (series_min (column df col)) || gt1000 (series_max (column df col)))
      eqn:E; [|reflexivity].
    apply out_of_range_iff in E. destruct E as (v & Hin & Hv).
    specialize (Hall col v Hin). lia.
Qed.

Lemma warned_columns_witness :
  exists lo hi, In (OutOfRange "Matthei" lo hi)
                   (snd (validate_dataframe (Some frame_with_negative))).
Proof.
  refine (proj2 (proj1 (proj2 (warned_columns frame_with_negative "Matthei" _))) _).
  - reflexivity.
  - split; [simpl; tauto|]. split; [reflexivity|]. split; [discriminate|].
    exists (-3). split; [simpl; tauto | lia].
Defined.

(** ** The dates of the assembled window *)

Lemma distinct_complete l x : In x l -> In x (distinct l).
Proof.
  induction l as [|y l IH]; cbn [distinct]; [easy|].
  intros [->|H]; [now left|].
  destruct (cell_eq_dec x y) as [->|Hne]; [now left|].
  right. apply filter_In. split; [now apply IH|].
  apply negb_true_iff. destruct (cell_eqb x y) eqn:E; [|reflexivity].
  apply cell_eqb_eq in E. contradiction.
Qed.

Lemma merge_block_nonempty a b k :
  In k (column a "date" ++ column b "date") -> merge_block a b k <> [].
Proof.
  intros Hk. unfold merge_block.
  destruct (rows_with (columns a) k (rows a)) as [|l ls] eqn:El.
  - apply in_app_or in Hk. destruct Hk as [Hk|Hk].
    + exfalso. now apply (rows_at_present a k Hk).
    + pose proof (rows_at_present b k Hk) as Hb. unfold rows_at in Hb.
      destruct (rows_with (columns b) k (rows b)); [contradiction | discriminate].
  - destruct (rows_with (columns b) k (rows b)); discriminate.
Qed.

(** The outer join has a row for every date of either side. *)
Lemma merge_outer_covers a b k :
  rows_ok a -> In "date" (columns a) ->
  In k (column a "date" ++ column b "date") ->
  In k (column (merge_outer a b) "date").
Proof.
  intros Hok Hd Hk.
  pose proof (merge_block_nonempty a b k Hk) as Hne.
  destruct (merge_block a b k) as [|r rs] eqn:E; [contradiction|].
  assert (Hr : In r (merge_block a b k)) by (rewrite E; now left).
  unfold column. apply in_map_iff. exists r. split.
  - exact (merge_block_date a b k r Hok Hd Hr).
  - unfold merge_outer. cbn [rows]. apply in_flat_map. exists k. split; [|exact Hr].
    eapply Permutation_in; [apply sort_by_perm|]. now apply distinct_complete.
Qed.

Lemma merge_outer_column a b k :
  rows_ok a -> In "date" (columns a) ->
  In k (column (merge_outer a b) "date")
  <-> In k (column a "date") \/ In k (column b "date").
Proof.
  intros Hok Hd. split.
  - intros Hk. unfold column in Hk. apply in_map_iff in Hk.
    destruct Hk as (r & <- & Hr). apply in_app_or.
    exact (merge_outer_dates a b r Hok Hd Hr).
  - intros Hk. apply merge_outer_covers; auto. apply in_or_app. exact Hk.
Qed.

Lemma join_all_column more first k :
  rows_ok first -> In "date" (columns first) ->
  In k (column (fold_left merge_outer more first) "date")
  <-> In k (column first "date") \/ exists f, In f more /\ In k (column f "date").
Proof.
  revert first. induction more as [|b more IH]; intros first Hok Hd; cbn [fold_left].
  - split; [tauto|]. intros [H|(f & [] & _)]. exact H.
  - rewrite IH by (auto using merge_outer_ok, merge_outer_has_date).
    rewrite merge_outer_column by assumption. split.
    + intros [[H|H]|(f & Hf & H)]; [now left | right; exists b; split; [now left | exact H]|].
      right. exists f. split; [now right | exact H].
    + intros [H|(f & [<-|Hf] & H)]; [tauto | tauto |]. right. exists f. tauto.
Qed.

Lemma sorted_map_key_in {A B} (ka : A -> cell) (kb : B -> cell) (f : A -> B) (l : list A) :
  (forall x, In x l -> kb (f x) = ka x) ->
  StronglySorted (le_key ka) l -> StronglySorted (le_key kb) (map f l).
Proof.
  intros Hk Hs. induction Hs as [|x l Hs IH Hx]; cbn [map]; constructor.
  - apply IH. intros y Hy. apply Hk. now right.
  - rewrite List.Forall_forall in *. intros y Hy. apply in_map_iff in Hy.
    destruct Hy as (y0 & <- & Hy0). unfold le_key in *.
    rewrite (Hk x) by now left. rewrite (Hk y0) by now right. now apply Hx.
Qed.

(** X27: the window assembled from the candidates' series is in ascending
    order of date; it has a row for every date some candidate's series has,
    and no other date. *)
Theorem window_dates (names : list string) (srcs : list (string * DataFrame)) :
  srcs <> [] ->
  Forall (fun cf : string * DataFrame => is_series (fst cf) (snd cf)) srcs ->
  List.NoDup (map fst srcs) ->
  ~ In "date" (map fst srcs) ->
  exists out,
    assemble names (map snd srcs) = Some out
    /\ StronglySorted (le_key (date_of (columns out))) (rows out)
    /\ forall d, In d (column out "date")
                 <-> exists c f, In (c, f) srcs /\ In d (column f "date").
Proof.
  intros Hne Hs Hnd Hd.
  destruct srcs as [|[c1 f1] more]; [contradiction|].
  inversion Hs as [|? ? Hs1 Hs']; subst. simpl in Hs1.
  assert (Hc1 : c1 <> "date") by (intros ->; apply Hd; now left).
  pose proof (joined_ok_fold more f1 [(c1, f1)] (joined_ok_first c1 f1 Hs1 Hc1) Hs' Hnd Hd)
    as HJ.
  simpl app in HJ.
  set (J := fold_left merge_outer (map snd more) f1) in *.
  destruct HJ as (Jcols & Jok & Jrows).
  assert (Jdate : In "date" (columns J)) by (rewrite Jcols; now left).
  assert (Jconv : dates_to_date J = Some J).
  { apply dates_to_date_days; [assumption|]. intros r Hr. now destruct (Jrows r Hr). }
  assert (Hguard : forallb (fun df => has_col "date" (columns df))
                           (map snd ((c1, f1) :: more)) = true).
  { apply forallb_forall. intros df Hdf. apply in_map_iff in Hdf.
    destruct Hdf as ([c f] & <- & Hin). rewrite List.Forall_forall in Hs.
    destruct (Hs (c, f) Hin) as [Hc _]. cbn [fst snd] in *. rewrite Hc. reflexivity. }
  assert (Hout : exists out, assemble names (map snd ((c1, f1) :: more)) = Some out).
  { unfold assemble. cbn [map snd]. cbn [map snd] in Hguard. rewrite Hguard.
    cbn [negb]. fold J. rewrite Jconv. eexists. reflexivity. }
  destruct Hout as [out Hout]. exists out. split; [exact Hout|].
  assert (Hoks : Forall rows_ok (map snd ((c1, f1) :: more))).
  { apply List.Forall_forall. intros df Hdf. apply in_map_iff in Hdf.
    destruct Hdf as ([c f] & <- & Hin). rewrite List.Forall_forall in Hs.
    pose proof (Hs (c, f) Hin) as Hcf. cbn [fst snd] in Hcf |- *.
    assert (Hcd : c <> "date").
    { intros ->. apply Hd. apply in_map_iff. exists ("date", f). now split. }
    now destruct (joined_ok_first c f Hcf Hcd) as (_ & Hfok & _). }
  destruct (fillna_zero_cells names (map snd ((c1, f1) :: more)) out Hoks
              ltac:(discriminate) Hout) as (merged & g & Hj & Hrows & Hcells).
  assert (merged = J).
  { unfold joined in Hj. cbn [map snd] in Hj. fold J in Hj. rewrite Jconv in Hj. congruence. }
  subst merged.
  assert (HinJ : forall r, In r (rows (sort_values_date J)) -> In r (rows J)).
  { intros r Hr. unfold sort_values_date in Hr. cbn [rows] in Hr.
    eapply Permutation_in; [symmetry; apply sort_by_perm | exact Hr]. }
  assert (Hkey : forall r, In r (rows (sort_values_date J)) ->
                           date_of (columns out) (g r) = date_of (columns J) r).
  { intros r Hr. destruct (Jrows r (HinJ r Hr)) as [[z Hz] _].
    destruct (Hcells r "date" Hr Jdate) as (_ & Hdcell & _).
    unfold date_of in *. rewrite Hdcell, Hz. cbn [isna]. now rewrite andb_false_r. }
  assert (F1ok : rows_ok f1) by now inversion Hoks.
  assert (F1d : In "date" (columns f1)) by (destruct Hs1 as [-> _]; now left).
  split.
  - rewrite Hrows. apply (sorted_map_key_in (date_of (columns J))); [exact Hkey|].
    unfold sort_values_date. cbn [rows columns]. apply sort_by_sorted.
  - intros d.
    assert (Hcol : In d (column out "date") <-> In d (column J "date")).
    { unfold column. rewrite Hrows, !in_map_iff. split.
      - intros (r' & <- & Hr'). apply in_map_iff in Hr'. destruct Hr' as (r & <- & Hr).
        exists r. split; [symmetry; apply (Hkey r Hr) | now apply HinJ].
      - intros (r & <- & Hr).
        assert (Hr' : In r (rows (sort_values_date J))).
        { unfold sort_values_date. cbn [rows].
          eapply Permutation_in; [apply sort_by_perm | exact Hr]. }
        exists (g r). split; [apply (Hkey r Hr') | apply in_map_iff; eauto]. }
    rewrite Hcol. unfold J. rewrite join_all_column by assumption. split.
    + intros [H|(f & Hf & H)].
      * exists c1, f1. split; [now left | exact H].
      * apply in_map_iff in Hf. destruct Hf as ([c f'] & <- & Hin).
        exists c, f'. split; [now right | exact H].
    + intros (c & f & [E|Hin] & Hk).
      * injection E as <- <-. now left.
      * right. exists f. split; [|exact Hk]. apply in_map_iff. exists (c, f). now split.
Qed.

Lemma window_dates_witness :
  exists out,
    assemble ["A"; "B"] (map snd [("A", series_A); ("B", series_B)]) = Some out
    /\ StronglySorted (le_key (date_of (columns out))) (rows out)
    /\ forall d, In d (column out "date")
                 <-> exists c f, In (c, f) [("A", series_A); ("B", series_B)]
                                 /\ In d (column f "date").
Proof.
  apply (window_dates ["A"; "B"] [("A", series_A); ("B", series_B)]).
  - discriminate.
  - exact series_AB_are_series.
  - repeat constructor; simpl; intuition discriminate.
  - simpl. intuition discriminate.
Defined.

(** ** Cleaning of a reply *)






(** * The order of tied rows *)

(** ** Sorts *)

Section Sorts.

Context {A : Type} (key : A -> cell).







(** The reversing sort is a sort all the same. *)
Lemma insert_after_perm x l : Permutation (x :: l) (Ties.insert_after key x l).
Proof.
  induction l as [|y l IH]; cbn [Ties.insert_after]; [reflexivity|].
  destruct (date_leb (key y) (key x)); [|reflexivity].
  rewrite perm_swap. now constructor.
Qed.

Lemma sort_ties_reversed_perm l : Permutation l (Ties.sort_ties_reversed key l).
Proof.
  induction l as [|x l IH]; cbn [Ties.sort_ties_reversed]; [constructor|].
  rewrite <- insert_after_perm. now constructor.
Qed.

Lemma insert_after_sorted x l :
  StronglySorted (le_key key) l -> StronglySorted (le_key key) (Ties.insert_after key x l).
Proof.
  induction 1 as [|y l Hs IH Hy]; cbn [Ties.insert_after]; [repeat constructor|].
  destruct (date_leb (key y) (key x)) eqn:E.
  - constructor; [exact IH|].
    rewrite List.Forall_forall in *. intros z Hz.
    apply (Permutation_in _ (Permutation_sym (insert_after_perm x l))) in Hz.
    destruct Hz as [<-|Hz]; [exact E | now apply Hy].
  - constructor; [now constructor|].
    assert (Hxy : date_leb (key x) (key y) = true) by now apply date_leb_total.
    constructor; [exact Hxy|].
    rewrite List.Forall_forall in *. intros z Hz. unfold le_key in *.
    exact (date_leb_trans _ _ _ Hxy (Hy z Hz)).
Qed.

Lemma sort_ties_reversed_sorted l : StronglySorted (le_key key) (Ties.sort_ties_reversed key l).
Proof.
  induction l; cbn [Ties.sort_ties_reversed]; [constructor | now apply insert_after_sorted].
Qed.

(** Picking the rows of a date commutes with rearranging. *)
Lemma pick_perm k (l l' : list A) : Permutation l l' -> Permutation (pick key k l) (pick key k l').
Proof.
  unfold pick. induction 1 as [|x l l' HP IH|x y l|l l' l'' H1 IH1 H2 IH2]; cbn [List.filter].
  - constructor.
  - destruct (cell_eqb (key x) k); [now constructor | exact IH].
  - destruct (cell_eqb (key x) k), (cell_eqb (key y) k); try reflexivity. apply perm_swap.
  - now transitivity (List.filter (fun x => cell_eqb (key x) k) l').
Qed.


End Sorts.



Lemma reversing_legal : legal_sort Ties.reversing.
Proof.
  intros key l. split; [apply sort_ties_reversed_perm | apply sort_ties_reversed_sorted].
Qed.



(** ** The merge, whatever the order of tied rows *)

Section AnySort.

Variable srt : Ties.sort_fn.
Hypothesis srt_legal : legal_sort srt.

Variables (names : list string) (H W : DataFrame).
Hypothesis H_nonempty : df_empty H = false.
Hypothesis H_date : has_col "date" (columns H) = true.
Hypothesis W_date : has_col "date" (columns W) = true.
Hypothesis H_ok : rows_ok H.
Hypothesis W_ok : rows_ok W.

Let H0 := clean_history H.
Let M := Ties.merge srt names H W.

(** The rows the merged frame has for a date: the last, in the order the sort
    returned them, of the history's and the window's rows of that date,
    widened to the merged labels. *)
Lemma rows_at_merged_any (d : cell) :
  exists hH hW sel,
    rows_at M d = final sel
    /\ Permutation sel (map hH (rows_at H0 d) ++ map hW (rows_at W d))
    /\ (forall r c, In r (rows H0) -> In c (columns H) ->
          get_cell (columns M) (hH r) c = get_cell (columns H) r c)
    /\ (forall r c, In r (rows W) -> In c (columns W) ->
          get_cell (columns M) (hW r) c = get_cell (columns W) r c).
Proof.
  unfold M, Ties.merge, Ties.step2. rewrite H_nonempty, H_date. simpl orb. cbv iota.
  fold H0.
  destruct (ensure_shape names W) as (ew & Wc & Wr & _).
  destruct (ensure_shape names H0) as (eh & Hc & Hr & _).
  unfold Ties.combine.
  set (H1 := ensure_all_candidate_cols names H0) in *.
  set (W1 := ensure_all_candidate_cols names W) in *.
  set (U := columns (concat H1 W1)).
  set (combo := drop_duplicates_date_last (Ties.sort_values_date srt (concat H1 W1))).
  set (F := columns (step3 names combo)).
  assert (H0cols : columns H0 = columns H) by apply clean_history_columns.
  assert (HdH1 : In "date" (columns H1)).
  { rewrite Hc, H0cols. apply in_or_app. left. now apply has_col_In. }
  assert (HdU : In "date" U) by (apply concat_columns_In; now left).
  assert (HdF : In "date" F) by (apply step3_columns_In; now left).
  assert (HlenW : forall r, In r (rows W) -> length r = length (columns W)).
  { pose proof W_ok as Hk. unfold rows_ok in Hk. rewrite List.Forall_forall in Hk. exact Hk. }
  assert (HlenH : forall r, In r (rows H0) -> length r = length (columns H0)).
  { pose proof (clean_ok H H_date H_ok) as Hk. unfold rows_ok in Hk.
    rewrite List.Forall_forall in Hk. exact Hk. }
  assert (HpadW : pick (date_of (columns W1)) d (rows W1)
                  = map (fun r => r ++ repeat NA (length ew)) (rows_at W d)).
  { rewrite Wr. rewrite (pick_map_in (date_of (columns W)) (date_of (columns W1))).
    - reflexivity.
    - intros x Hx. unfold date_of. rewrite Wc. apply get_cell_padded.
      + now apply has_col_In.
      + now apply HlenW. }
  assert (HpadH : pick (date_of (columns H1)) d (rows H1)
                  = map (fun r => r ++ repeat NA (length eh)) (rows_at H0 d)).
  { rewrite Hr. rewrite (pick_map_in (date_of (columns H0)) (date_of (columns H1))).
    - reflexivity.
    - intros x Hx. unfold date_of. rewrite Hc. apply get_cell_padded.
      + rewrite H0cols. now apply has_col_In.
      + now apply HlenH. }
  set (all := map (fun r => map (get_cell (columns H1) r) U) (rows H1)
              ++ map (fun r => map (get_cell (columns W1) r) U) (rows W1)).
  exists (fun r => map (get_cell U (map (get_cell (columns H1) (r ++ repeat NA (length eh))) U)) F).
  exists (fun r => map (get_cell U (map (get_cell (columns W1) (r ++ repeat NA (length ew))) U)) F).
  exists (map (fun r => map (get_cell U r) F) (pick (date_of U) d (srt (date_of U) all))).
  split; [|split; [|split]].
  - change (rows_at (step3 names combo) d)
      with (pick (date_of F) d (map (fun r => map (get_cell U r) F) (rows combo))).
    rewrite (pick_map (date_of U) (date_of F))
      by (intros x; unfold date_of; now apply get_cell_align).
    change (rows combo) with (drop_dups_last (date_of U) (srt (date_of U) all)).
    rewrite pick_drop_dups. now rewrite final_map.
  - rewrite <- (map_map (fun r => r ++ repeat NA (length eh))
                        (fun r => map (get_cell U (map (get_cell (columns H1) r) U)) F)).
    rewrite <- (map_map (fun r => r ++ repeat NA (length ew))
                        (fun r => map (get_cell U (map (get_cell (columns W1) r) U)) F)).
    rewrite <- HpadH, <- HpadW.
    rewrite <- (map_map (fun r => map (get_cell (columns H1) r) U)
                        (fun r => map (get_cell U r) F)).
    rewrite <- (map_map (fun r => map (get_cell (columns W1) r) U)
                        (fun r => map (get_cell U r) F)).
    rewrite <- map_app. apply Permutation_map.
    rewrite <- (pick_map (date_of (columns H1)) (date_of U)
                  (fun r => map (get_cell (columns H1) r) U))
      by (intros x; unfold date_of; now apply get_cell_align).
    rewrite <- (pick_map (date_of (columns W1)) (date_of U)
                  (fun r => map (get_cell (columns W1) r) U))
      by (intros x; unfold date_of; now apply get_cell_align).
    rewrite <- pick_app. apply pick_perm. apply Permutation_sym.
    exact (proj1 (srt_legal (date_of U) all)).
  - intros r c Hin Hcol. fold F.
    assert (Hc1 : In c (columns H1)).
    { rewrite Hc, H0cols. apply in_or_app. now left. }
    assert (HcU : In c U) by (apply concat_columns_In; now left).
    assert (HcF : In c F) by (apply step3_columns_In; right; right; exact HcU).
    rewrite !get_cell_align by assumption.
    rewrite Hc, H0cols. apply get_cell_padded; [assumption|].
    rewrite <- H0cols. now apply HlenH.
  - intros r c Hin Hcol. fold F.
    assert (Hc1 : In c (columns W1)) by (rewrite Wc; apply in_or_app; now left).
    assert (HcU : In c U) by (apply concat_columns_In; now right).
    assert (HcF : In c F) by (apply step3_columns_In; right; right; exact HcU).
    rewrite !get_cell_align by assumption.
    rewrite Wc. apply get_cell_padded; [assumption | now apply HlenW].
Qed.

(** One row for a date that the history or the window has: a row of that
    date of one of the two. *)
Lemma one_of_the_tied (d : cell) :
  In d (column H0 "date") \/ In d (column W "date") ->
  exists row,
    rows_at M d = [row]
    /\ ((exists r, In r (rows_at H0 d)
                   /\ forall c, In c (columns H) ->
                                get_cell (columns M) row c = get_cell (columns H) r c)
        \/ (exists r, In r (rows_at W d)
                      /\ forall c, In c (columns W) ->
                                   get_cell (columns M) row c = get_cell (columns W) r c)).
Proof.
  intros Hd. destruct (rows_at_merged_any d) as (hH & hW & sel & Hrows & Hperm & HcH & HcW).
  assert (Hne : sel <> []).
  { intros ->. apply Permutation_nil in Hperm. apply app_eq_nil in Hperm.
    destruct Hperm as [E1 E2]. apply map_eq_nil in E1. apply map_eq_nil in E2.
    destruct Hd as [Hd|Hd]; apply in_dates_iff in Hd; contradiction. }
  assert (Hlast : exists row rest, rev sel = row :: rest).
  { destruct (rev sel) as [|row rest] eqn:E; [|eauto].
    exfalso. apply Hne. apply (f_equal (@rev _)) in E. now rewrite rev_involutive in E. }
  destruct Hlast as (row & rest & E). exists row. split.
  - rewrite Hrows. unfold final. now rewrite E.
  - assert (Hin : In row sel) by (apply in_rev; rewrite E; now left).
    apply (Permutation_in _ Hperm) in Hin. apply in_app_or in Hin.
    destruct Hin as [Hin|Hin]; apply in_map_iff in Hin; destruct Hin as (r & <- & Hr).
    + left. exists r. split; [exact Hr|]. intros c Hc. apply HcH; [|exact Hc].
      now apply rows_at_In in Hr.
    + right. exists r. split; [exact Hr|]. intros c Hc. apply HcW; [|exact Hc].
      now apply rows_at_In in Hr.
Qed.

End AnySort.






(** X1: whatever the order of tied rows, a date that the cleaned history has
    and the window does not has exactly one row in the merged frame, and under
    every label of the history that row shows the cells of one of the
    history's rows of that date -- of its only row of that date when there is
    one. *)
Theorem history_kept_outside_window (srt : Ties.sort_fn) (names : list string)
        (H W : DataFrame) (d : cell) :
  legal_sort srt ->
  df_empty H = false ->
  has_col "date" (columns H) = true ->
  has_col "date" (columns W) = true ->
  rows_ok H -> rows_ok W ->
  ~ In d (column W "date") ->
  In d (column (clean_history H) "date") ->
  exists row r,
    rows_at (Ties.merge srt names H W) d = [row]
    /\ In r (rows_at (clean_history H) d)
    /\ (forall c, In c (columns H) ->
          value_at (Ties.merge srt names H W) d c = Some (get_cell (columns H) r c))
    /\ (forall r0, rows_at (clean_history H) d = [r0] -> r = r0).
Proof.
  intros HL Hne Hd Wd Hok Wok Hout Hin.
  destruct (one_of_the_tied srt HL names H W Hne Hd Wd Hok Wok d (or_introl Hin))
    as (row & Hrow & [(r & Hr & Hc)|(r & Hr & _)]).
  - exists row, r. split; [exact Hrow|]. split; [exact Hr|]. split.
    + intros c Hcol. unfold value_at. rewrite Hrow. cbn [rev app]. f_equal. now apply Hc.
    + intros r0 E. rewrite E in Hr. destruct Hr as [<-|[]]. reflexivity.
  - exfalso. rewrite (rows_at_absent W d Hout) in Hr. contradiction.
Qed.

Lemma history_kept_outside_window_witness :
  exists row r,
    rows_at (Ties.merge Ties.reversing ["A"] history_A window_A) (Day 20089) = [row]
    /\ In r (rows_at (clean_history history_A) (Day 20089))
    /\ (forall c, In c (columns history_A) ->
          value_at (Ties.merge Ties.reversing ["A"] history_A window_A) (Day 20089) c
          = Some (get_cell (columns history_A) r c))
    /\ (forall r0, rows_at (clean_history history_A) (Day 20089) = [r0] -> r = r0).
Proof.
  apply (history_kept_outside_window Ties.reversing ["A"] history_A window_A (Day 20089)).
  - exact reversing_legal.
  - reflexivity.
  - reflexivity.
  - reflexivity.
  - exact history_A_ok.
  - exact window_A_ok.
  - simpl. intuition discriminate.
  - simpl. tauto.
Defined.

(** * The candidate's series, from the frames of its batches *)

(** ** The join, cell by cell *)

Lemma others_In c cols : In c (others cols) <-> In c cols /\ c <> "date".
Proof.
  unfold others. rewrite filter_In. destruct (String.string_dec c "date"); intuition congruence.
Qed.

Lemma others_nodup cols : List.NoDup cols -> List.NoDup (others cols).
Proof. apply List.NoDup_filter. Qed.

Lemma col_index_app_r c cols more :
  ~ In c cols ->
  col_index c (cols ++ more) = option_map (Nat.add (length cols)) (col_index c more).
Proof.
  induction cols as [|x cols IH]; intros Hn; cbn [app col_index length].
  - now destruct (col_index c more).
  - destruct (String.string_dec x c) as [->|Hne]; [exfalso; apply Hn; now left|].
    rewrite IH by (intros H; apply Hn; now right).
    now destruct (col_index c more).
Qed.

Lemma get_cell_right cols more l rp c :
  ~ In c cols -> length l = length cols ->
  get_cell (cols ++ more) (l ++ rp) c = get_cell more rp c.
Proof.
  intros Hn Hlen. unfold get_cell. rewrite col_index_app_r by assumption.
  destruct (col_index c more) as [j|]; cbn [option_map]; [|reflexivity].
  rewrite app_nth2 by lia. f_equal. lia.
Qed.

Lemma get_cell_holes cols n c : get_cell cols (holes n) c = NaN.
Proof.
  unfold get_cell, holes. destruct (col_index c cols) as [j|]; [|reflexivity].
  destruct (Nat.lt_ge_cases j n) as [H|H].
  - now apply nth_repeat_lt.
  - apply nth_overflow. now rewrite repeat_length.
Qed.

Lemma right_part_cell b r c :
  In c (others (columns b)) -> List.NoDup (columns b) ->
  get_cell (others (columns b)) (right_part b r) c = get_cell (columns b) r c.
Proof. intros Hc _. unfold right_part. now apply get_cell_map. Qed.

Lemma merge_columns_apart a b :
  (forall c, In c (others (columns b)) -> ~ In c (columns a)) ->
  merge_columns a b = columns a ++ others (columns b).
Proof.
  intros Hd. unfold merge_columns. f_equal.
  rewrite <- (map_id (others (columns b))) at 2. apply map_ext_in.
  intros c Hc. unfold suffixed.
  destruct (has_col c (others (columns a))) eqn:E; [|reflexivity].
  exfalso. apply has_col_In in E. apply others_In in E. now apply (Hd c Hc).
Qed.

Lemma left_only_cell a k c :
  In c (columns a) -> c <> "date" -> get_cell (columns a) (left_only a k) c = NaN.
Proof.
  intros Hc Hne. unfold left_only. rewrite get_cell_map by assumption.
  now destruct (String.string_dec c "date").
Qed.

Lemma rows_with_date cols k l r : In r (rows_with cols k l) -> date_of cols r = k.
Proof. unfold rows_with. rewrite filter_In. intros [_ E]. now apply cell_eqb_eq. Qed.

Lemma rows_with_intro cols l r : In r l -> In r (rows_with cols (date_of cols r) l).
Proof. intros H. unfold rows_with. apply filter_In. split; [exact H | apply cell_eqb_refl]. Qed.

Lemma in_keys a b k :
  In k (column a "date" ++ column b "date") ->
  In k (sort_by (fun k => k) (distinct (column a "date" ++ column b "date"))).
Proof.
  intros H. eapply Permutation_in; [apply sort_by_perm|]. now apply distinct_complete.
Qed.

Lemma date_in_column f r : In r (rows f) -> In (date_of (columns f) r) (column f "date").
Proof. intros H. unfold column. apply in_map_iff. exists r. split; [reflexivity | exact H]. Qed.

Lemma merge_block_shape a b k r' :
  In r' (merge_block a b k) ->
  (exists l, In l (rows_with (columns a) k (rows a))
             /\ ((exists r, In r (rows_with (columns b) k (rows b))
                            /\ r' = l ++ right_part b r)
                 \/ (rows_with (columns b) k (rows b) = []
                     /\ r' = l ++ holes (length (others (columns b))))))
  \/ (rows_with (columns a) k (rows a) = []
      /\ exists r, In r (rows_with (columns b) k (rows b))
                   /\ r' = left_only a k ++ right_part b r).
Proof.
  unfold merge_block.
  destruct (rows_with (columns a) k (rows a)) as [|l0 ls] eqn:El.
  - intros H. apply in_map_iff in H. destruct H as (r & <- & Hr). right. eauto.
  - destruct (rows_with (columns b) k (rows b)) as [|r0 rs] eqn:Er.
    + intros H. apply in_map_iff in H. destruct H as (l & <- & Hl). left. eauto.
    + intros H. apply in_flat_map in H. destruct H as (l & Hl & H).
      apply in_map_iff in H. destruct H as (r & <- & Hr). left. exists l. eauto.
Qed.

Lemma merge_block_has_left a b k l :
  In l (rows_with (columns a) k (rows a)) ->
  exists rest, In (l ++ rest) (merge_block a b k).
Proof.
  intros Hl. unfold merge_block.
  destruct (rows_with (columns a) k (rows a)) as [|l0 ls] eqn:El; [contradiction|].
  destruct (rows_with (columns b) k (rows b)) as [|r0 rs] eqn:Er.
  - eexists. apply in_map_iff. exists l. split; [reflexivity | exact Hl].
  - exists (right_part b r0). apply in_flat_map. exists l. split; [exact Hl|].
    apply in_map_iff. exists r0. split; [reflexivity | now left].
Qed.

Lemma merge_block_has_right a b k r :
  rows_ok a ->
  In r (rows_with (columns b) k (rows b)) ->
  exists l, length l = length (columns a) /\ In (l ++ right_part b r) (merge_block a b k).
Proof.
  intros Hok Hr. unfold merge_block.
  unfold rows_ok in Hok. rewrite List.Forall_forall in Hok.
  destruct (rows_with (columns a) k (rows a)) as [|l0 ls] eqn:El.
  - exists (left_only a k). split; [apply left_only_length|].
    apply in_map_iff. exists r. split; [reflexivity | exact Hr].
  - destruct (rows_with (columns b) k (rows b)) as [|r0 rs] eqn:Er; [contradiction|].
    exists l0. split.
    + apply Hok. apply (rows_with_In (columns a) k). rewrite El. now left.
    + apply in_flat_map. exists l0. split; [now left|].
      apply in_map_iff. exists r. split; [reflexivity | exact Hr].
Qed.

Lemma joined_inv_step acc done b :
  joined_inv acc done ->
  List.NoDup (columns b) -> In "date" (columns b) -> rows_ok b ->
  (forall c, In c (others (columns b)) -> ~ In c (columns acc)) ->
  joined_inv (merge_outer acc b) (done ++ [b]).
Proof.
  intros (Hnd & Hd & Hok & Hlab & Hcov & Hsnd) Bnd Bd Bok Hapart.
  set (A := columns acc) in *. set (B := others (columns b)) in *.
  assert (Ecols : columns (merge_outer acc b) = A ++ B).
  { unfold merge_outer. cbn [columns]. now apply merge_columns_apart. }
  assert (Hlen : forall l, In l (rows acc) -> length l = length A).
  { unfold rows_ok in Hok. rewrite List.Forall_forall in Hok. exact Hok. }
  assert (Hrows : forall r', In r' (rows (merge_outer acc b)) <->
                    exists k, In k (column acc "date" ++ column b "date")
                              /\ In r' (merge_block acc b k)).
  { intros r'. unfold merge_outer. cbn [rows]. rewrite in_flat_map. split.
    - intros (k & Hk & Hr). exists k. split; [|exact Hr].
      apply distinct_incl. eapply Permutation_in; [symmetry; apply sort_by_perm | exact Hk].
    - intros (k & Hk & Hr). exists k. split; [now apply in_keys | exact Hr]. }
  assert (Hdate : forall k r', In r' (merge_block acc b k) -> date_of (A ++ B) r' = k).
  { intros k r' Hr. rewrite <- Ecols. unfold merge_outer. cbn [columns].
    now apply (merge_block_date acc b k r' Hok Hd). }
  assert (HinA : forall f c, In f done -> In c (others (columns f)) -> In c A /\ c <> "date").
  { intros f c Hf Hc. apply others_In. apply Hlab. eauto. }
  assert (HB : forall c, In c B -> ~ In c A /\ c <> "date").
  { intros c Hc. split; [now apply Hapart|]. now apply (others_In c (columns b)). }
  unfold joined_inv. rewrite Ecols.
  split; [|split; [|split; [|split; [|split]]]].
  - apply nodup_app; [exact Hnd | now apply others_nodup|].
    intros x Hx Hx'. now apply (Hapart x Hx').
  - apply in_or_app. now left.
  - now apply merge_outer_ok.
  - intros c. rewrite others_In, in_app_iff. split.
    + intros [[Hc|Hc] Hne].
      * destruct (proj1 (Hlab c) (proj2 (others_In c A) (conj Hc Hne))) as (f & Hf & Hcf).
        exists f. split; [apply in_or_app; now left | exact Hcf].
      * exists b. split; [apply in_or_app; right; now left | exact Hc].
    + intros (f & Hf & Hc). apply in_app_or in Hf. destruct Hf as [Hf|[<-|[]]].
      * destruct (HinA f c Hf Hc). tauto.
      * destruct (HB c Hc). tauto.
  - intros f r Hf Hr. apply in_app_or in Hf. destruct Hf as [Hf|[<-|[]]].
    + destruct (Hcov f r Hf Hr) as (l & Hl & Hdl & Hcl).
      set (k := date_of (columns f) r) in *.
      assert (Hlk : In l (rows_with A k (rows acc))).
      { rewrite <- Hdl. now apply rows_with_intro. }
      destruct (merge_block_has_left acc b k l Hlk) as (rest & Hin).
      exists (l ++ rest). split; [|split].
      * apply Hrows. exists k. split; [|exact Hin].
        apply in_or_app. left. rewrite <- Hdl. now apply date_in_column.
      * now apply Hdate.
      * intros c Hc. destruct (HinA f c Hf Hc) as [HcA _].
        rewrite get_cell_padded by (auto; now apply Hlen). now apply Hcl.
    + set (k := date_of (columns b) r).
      assert (Hrk : In r (rows_with (columns b) k (rows b))) by now apply rows_with_intro.
      destruct (merge_block_has_right acc b k r Hok Hrk) as (l & Hll & Hin).
      exists (l ++ right_part b r). split; [|split].
      * apply Hrows. exists k. split; [|exact Hin].
        apply in_or_app. right. now apply date_in_column.
      * now apply Hdate.
      * intros c Hc. destruct (HB c Hc) as [HnA _].
        rewrite get_cell_right by assumption. now apply right_part_cell.
  - intros r' f Hr' Hf. apply Hrows in Hr'. destruct Hr' as (k & Hk & Hr').
    rewrite (Hdate k r' Hr').
    destruct (merge_block_shape acc b k r' Hr')
      as [(l & Hl & Hshape)|(Hnone & r & Hr & ->)].
    + assert (Hl' : In l (rows acc)) by exact (rows_with_In _ _ _ _ Hl).
      assert (Hlk : date_of A l = k) by exact (rows_with_date _ _ _ _ Hl).
      assert (Hleft : forall c rest, In c A -> get_cell (A ++ B) (l ++ rest) c = get_cell A l c).
      { intros c rest Hc. apply get_cell_padded; [exact Hc | now apply Hlen]. }
      apply in_app_or in Hf. destruct Hf as [Hf|[<-|[]]].
      * assert (Hcells : forall c, In c (others (columns f)) ->
                                   get_cell (A ++ B) r' c = get_cell A l c).
        { intros c Hc. destruct (HinA f c Hf Hc) as [HcA _].
          destruct Hshape as [(r & _ & ->)|(_ & ->)]; now apply Hleft. }
        destruct (Hsnd l f Hl' Hf) as [(r0 & Hr0 & Hd0 & Hc0)|(Hno & Hc0)].
        -- left. exists r0. split; [exact Hr0|]. split; [congruence|].
           intros c Hc. rewrite Hcells by assumption. now apply Hc0.
        -- right. split; [congruence|].
           intros c Hc. rewrite Hcells by assumption. now apply Hc0.
      * destruct Hshape as [(r & Hr & ->)|(Hnone & ->)].
        -- left. exists r. split; [exact (rows_with_In _ _ _ _ Hr)|].
           split; [exact (rows_with_date _ _ _ _ Hr)|].
           intros c Hc. destruct (HB c Hc) as [HnA _].
           rewrite get_cell_right by (auto; now apply Hlen). now apply right_part_cell.
        -- right. split.
           ++ intros Hin. apply (rows_at_present b k Hin). exact Hnone.
           ++ intros c Hc. destruct (HB c Hc) as [HnA _].
              rewrite get_cell_right by (auto; now apply Hlen). apply get_cell_holes.
    + apply in_app_or in Hf. destruct Hf as [Hf|[<-|[]]].
      * right. split.
        -- intros Hin. unfold column in Hin. apply in_map_iff in Hin.
           destruct Hin as (r0 & Hd0 & Hr0).
           destruct (Hcov f r0 Hf Hr0) as (l & Hl & Hdl & _).
           assert (Hlk : In l (rows_with A k (rows acc))).
           { assert (E : date_of A l = k) by (rewrite Hdl; exact Hd0).
             rewrite <- E. now apply rows_with_intro. }
           fold A in Hnone. rewrite Hnone in Hlk. contradiction.
        -- intros c Hc. destruct (HinA f c Hf Hc) as [HcA Hne].
           rewrite get_cell_padded by (auto; apply left_only_length).
           now apply left_only_cell.
      * left. exists r. split; [exact (rows_with_In _ _ _ _ Hr)|].
        split; [exact (rows_with_date _ _ _ _ Hr)|].
        intros c Hc. destruct (HB c Hc) as [HnA _].
        rewrite get_cell_right by (auto; apply left_only_length).
        now apply right_part_cell.
Qed.

Lemma nodup_app_apart {X} (l1 l2 : list X) (x : X) :
  List.NoDup (l1 ++ l2) -> In x l1 -> In x l2 -> False.
Proof.
  induction l1 as [|y l1 IH]; cbn [app]; [easy|].
  intros Hnd [->|Hx] Hx2; inversion Hnd as [|? ? Hn Hnd']; subst.
  - apply Hn. apply in_or_app. now right.
  - now apply IH.
Qed.

Lemma nodup_app_l {X} (l1 l2 : list X) : List.NoDup (l1 ++ l2) -> List.NoDup l1.
Proof.
  induction l1 as [|y l1 IH]; cbn [app]; [constructor|].
  intros Hnd. inversion Hnd as [|? ? Hn Hnd']; subst. constructor.
  - intros H. apply Hn. apply in_or_app. now left.
  - now apply IH.
Qed.

Lemma nodup_app_r {X} (l1 l2 : list X) : List.NoDup (l1 ++ l2) -> List.NoDup l2.
Proof.
  induction l1 as [|y l1 IH]; cbn [app]; [easy|].
  intros Hnd. inversion Hnd; subst. now apply IH.
Qed.

Lemma nodup_map_inj {X Y} (g : X -> Y) (l : list X) (x y : X) :
  List.NoDup (map g l) -> In x l -> In y l -> g x = g y -> x = y.
Proof.
  induction l as [|z l IH]; cbn [map]; [easy|].
  intros Hnd Hx Hy E. inversion Hnd as [|? ? Hn Hnd']; subst.
  destruct Hx as [->|Hx], Hy as [->|Hy]; auto.
  - exfalso. apply Hn. rewrite E. now apply in_map.
  - exfalso. apply Hn. rewrite <- E. now apply in_map.
Qed.

(** A label other than [date] belongs to one frame. *)
Lemma label_owner series f g c :
  labels_apart series -> In f series -> In g series ->
  In c (others (columns f)) -> In c (others (columns g)) -> f = g.
Proof.
  unfold labels_apart. induction series as [|x s IH]; [easy|].
  cbn [flat_map]. intros Hnd Hf Hg Hcf Hcg.
  assert (Hin : forall h, In h s -> In c (others (columns h)) ->
                          In c (flat_map (fun f => others (columns f)) s)).
  { intros h Hh Hc. apply in_flat_map. eauto. }
  destruct Hf as [->|Hf], Hg as [->|Hg]; auto.
  - exfalso. exact (nodup_app_apart _ _ c Hnd Hcf (Hin g Hg Hcg)).
  - exfalso. exact (nodup_app_apart _ _ c Hnd Hcg (Hin f Hf Hcf)).
  - apply IH; auto. now apply nodup_app_r in Hnd.
Qed.

Lemma joined_inv_first first :
  wf first -> In "date" (columns first) -> joined_inv first [first].
Proof.
  intros [Hnd Hok] Hd. unfold joined_inv.
  split; [exact Hnd|]. split; [exact Hd|]. split; [exact Hok|].
  split; [|split].
  - intros c. split; [intros Hc; exists first; split; [now left | exact Hc]|].
    intros (f & [<-|[]] & Hc). exact Hc.
  - intros f r [<-|[]] Hr. exists r. auto.
  - intros r' f Hr' [<-|[]]. left. exists r'. auto.
Qed.

Lemma joined_inv_fold more acc done :
  joined_inv acc done ->
  Forall wf more ->
  Forall (fun f => In "date" (columns f)) more ->
  labels_apart (done ++ more) ->
  joined_inv (fold_left merge_outer more acc) (done ++ more).
Proof.
  revert acc done. induction more as [|b more IH]; intros acc done Hinv Hwf Hd Hap.
  - cbn [fold_left]. now rewrite app_nil_r.
  - cbn [fold_left]. inversion Hwf as [|? ? [Bnd Bok] Hwf']; subst.
    inversion Hd as [|? ? Bd Hd']; subst.
    replace (done ++ b :: more) with ((done ++ [b]) ++ more) in *
      by (rewrite <- app_assoc; reflexivity).
    apply IH; auto.
    apply joined_inv_step; auto.
    intros c Hc HcA.
    destruct Hinv as (_ & _ & _ & Hlab & _).
    assert (Hne : c <> "date") by (apply (others_In c (columns b)); exact Hc).
    destruct (proj1 (Hlab c) (proj2 (others_In c (columns acc)) (conj HcA Hne)))
      as (f & Hf & Hcf).
    unfold labels_apart in Hap. rewrite !flat_map_app in Hap.
    apply nodup_app_l in Hap. cbn [flat_map] in Hap. rewrite app_nil_r in Hap.
    apply (nodup_app_apart _ _ c Hap); [|exact Hc].
    apply in_flat_map. eauto.
Qed.

Lemma row_max_reaches all cols r c w :
  In c cols -> get_cell all r c = Num w ->
  exists m, row_max all cols r = Num m /\ w <= m.
Proof.
  intros Hc Hw. unfold row_max.
  assert (Hin : In (Num w) (map (get_cell all r) cols)).
  { apply in_map_iff. exists c. split; assumption. }
  destruct (series_extremes_exist _ w Hin) as (lo & hi & _ & Eh).
  rewrite Eh. exists hi. split; [reflexivity|].
  now apply (series_max_spec _ hi Eh).
Qed.

Section AliasJoin.

Variables (cname : string) (first : DataFrame) (more : list DataFrame).
Let series := first :: more.
Let J := fold_left merge_outer more first.

Hypothesis cname_ok : cname <> "date".
Hypothesis series_wf : Forall wf series.
Hypothesis series_dates :
  Forall (fun f => has_col "date" (columns f) = true /\ dates_ok f) series.
Hypothesis series_apart : labels_apart series.
Hypothesis aliases_numeric :
  forall f c, In f series -> In c (others (columns f)) ->
              is_ispartial c = false /\ numeric_col f c = true.

Lemma J_inv : joined_inv J series.
Proof.
  inversion series_wf as [|? ? Hw Hws]; subst.
  inversion series_dates as [|? ? [Hd _] Hds]; subst.
  apply (joined_inv_fold more first [first]).
  - apply joined_inv_first; [exact Hw | now apply has_col_In].
  - exact Hws.
  - apply List.Forall_forall. intros f Hf. rewrite List.Forall_forall in Hds.
    apply has_col_In. exact (proj1 (Hds f Hf)).
  - exact series_apart.
Qed.

Lemma J_days r : In r (rows J) -> exists z, date_of (columns J) r = Day z.
Proof.
  intros Hr. inversion series_wf as [|? ? [_ Hok] _]; subst.
  inversion series_dates as [|? ? [Hd Hdays] Hds]; subst.
  pose proof (date_in_column J r Hr) as Hin.
  apply (join_all_column more first) in Hin; [|exact Hok | now apply has_col_In].
  destruct Hin as [Hin|(f & Hf & Hin)].
  - unfold dates_ok in Hdays. rewrite List.Forall_forall in Hdays. now apply Hdays.
  - rewrite List.Forall_forall in Hds. destruct (Hds f Hf) as [_ Hfd].
    unfold dates_ok in Hfd. rewrite List.Forall_forall in Hfd. now apply Hfd.
Qed.

Lemma J_alias_cols : alias_cols J = others (columns J).
Proof.
  destruct J_inv as (_ & _ & _ & Hlab & _ & Hsnd).
  unfold alias_cols, others. apply filter_ext_in. intros c Hc.
  destruct (String.string_dec c "date") as [|Hne]; [reflexivity|]. cbn [negb andb].
  assert (Hco : In c (others (columns J))) by (apply others_In; now split).
  destruct (proj1 (Hlab c) Hco) as (f & Hf & Hcf).
  destruct (aliases_numeric f c Hf Hcf) as [Hp Hn]. rewrite Hp. cbn [negb andb].
  unfold numeric_col in *. apply forallb_forall. intros x Hx.
  unfold column in Hx. apply in_map_iff in Hx. destruct Hx as (r' & <- & Hr').
  destruct (Hsnd r' f Hr' Hf) as [(r & Hr & _ & Hcells)|(_ & Hcells)].
  - rewrite (Hcells c Hcf). rewrite forallb_forall in Hn. apply Hn.
    unfold column. apply in_map_iff. exists r. split; [reflexivity | exact Hr].
  - now rewrite (Hcells c Hcf).
Qed.

Lemma J_result :
  (exists f c, In f series /\ In c (others (columns f))) ->
  exists res,
    combine_aliases cname series = Some res
    /\ columns res = ["date"; cname]
    /\ rows res = map (fun r => [date_of (columns J) r;
                                 row_max (columns J) (others (columns J)) r]) (rows J).
Proof.
  intros (f0 & c0 & Hf0 & Hc0).
  destruct J_inv as (_ & Jd & Jok & Hlab & _).
  unfold combine_aliases. fold series.
  assert (Hguard : forallb (fun df => has_col "date" (columns df)) series = true).
  { apply forallb_forall. intros f Hf. pose proof series_dates as Hs.
    rewrite List.Forall_forall in Hs. exact (proj1 (Hs f Hf)). }
  unfold series in Hguard |- *. rewrite Hguard. cbn [negb]. fold J.
  rewrite (dates_to_date_days J Jd J_days).
  rewrite J_alias_cols.
  assert (Hne : others (columns J) <> []).
  { intros E. assert (In c0 (others (columns J))) by (apply Hlab; eauto).
    rewrite E in H. contradiction. }
  destruct (others (columns J)) as [|a l] eqn:Eo; [contradiction|].
  eexists. split; [reflexivity|]. split; [reflexivity|].
  now apply assign_then_select.
Qed.

End AliasJoin.

(** C4: the series of a candidate, computed from the frames of its batches
    (each with a [date] column of days and alias columns of numbers, no label
    shared), has the labels [date] and the candidate's name, and its values
    are maxima of what the aliases report: every value is a number some alias
    reports for that date; for every number an alias reports there is a row
    of that date whose value is at least as large; when no frame has a date
    twice, no alias reports more for a date than the value of that date; and
    with two aliases [A] and [B] in all, a date for which [A] reports [a] and
    [B] reports [b] has the value [max a b] -- not their sum. *)
Theorem alias_maximum (cname : string) (series : list DataFrame) :
  cname <> "date" ->
  Forall wf series ->
  Forall (fun f => has_col "date" (columns f) = true /\ dates_ok f) series ->
  labels_apart series ->
  (forall f c, In f series -> In c (others (columns f)) ->
               is_ispartial c = false /\ numeric_col f c = true) ->
  (exists f c, In f series /\ In c (others (columns f))) ->
  exists res,
    combine_aliases cname series = Some res
    /\ columns res = ["date"; cname]
    /\ (forall d m, In [d; Num m] (rows res) ->
          exists f c, In f series /\ reports f d c m)
    /\ (forall f c d w, In f series -> reports f d c w ->
          exists m, In [d; Num m] (rows res) /\ w <= m)
    /\ (Forall (fun f => List.NoDup (column f "date")) series ->
        (forall d m, In [d; Num m] (rows res) ->
           forall f c w, In f series -> reports f d c w -> w <= m)
        /\ (forall fA fB A B d a b,
              flat_map (fun f => others (columns f)) series = [A; B] ->
              In fA series -> In fB series ->
              reports fA d A a -> reports fB d B b ->
              In [d; Num (Z.max a b)] (rows res))).
Proof.
  intros Hne Hwf Hdates Hap Hnum Hsome.
  destruct series as [|first more]; [destruct Hsome as (f & _ & [] & _)|].
  destruct (J_result cname first more Hne Hwf Hdates Hap Hnum Hsome)
    as (res & Hres & Hcols & Hrows).
  pose proof (J_inv first more Hwf Hdates Hap) as (_ & Jd & Jok & Hlab & Hcov & Hsnd).
  set (J := fold_left merge_outer more first) in *.
  set (series := first :: more) in *.
  assert (Hrow : forall d v, In [d; v] (rows res) <->
                   exists r', In r' (rows J) /\ date_of (columns J) r' = d
                              /\ row_max (columns J) (others (columns J)) r' = v).
  { intros d v. rewrite Hrows, in_map_iff. split.
    - intros (r' & [= <- <-] & Hr'). eauto.
    - intros (r' & Hr' & <- & <-). eauto. }
  assert (Hsound : forall d m, In [d; Num m] (rows res) ->
                     exists f c, In f series /\ reports f d c m).
  { intros d m Hin. apply Hrow in Hin. destruct Hin as (r' & Hr' & Hd & Hmax).
    destruct (row_max_spec _ _ _ _ Hmax) as [(c & Hc & Hcell) _].
    destruct (proj1 (Hlab c) Hc) as (f & Hf & Hcf).
    exists f, c. split; [exact Hf|].
    destruct (Hsnd r' f Hr' Hf) as [(r & Hr & Hdr & Hcells)|(_ & Hcells)].
    - exists r. split; [exact Hr|]. split; [congruence|]. split; [exact Hcf|].
      rewrite <- (Hcells c Hcf). exact Hcell.
    - rewrite (Hcells c Hcf) in Hcell. discriminate. }
  assert (Hcover : forall f c d w, In f series -> reports f d c w ->
                     exists m, In [d; Num m] (rows res) /\ w <= m).
  { intros f c d w Hf (r & Hr & Hd & Hc & Hcell).
    destruct (Hcov f r Hf Hr) as (r' & Hr' & Hd' & Hcells).
    assert (HcJ : In c (others (columns J))) by (apply Hlab; eauto).
    destruct (row_max_reaches (columns J) (others (columns J)) r' c w HcJ) as (m & Hm & Hle).
    { rewrite (Hcells c Hc). exact Hcell. }
    exists m. split; [|exact Hle]. apply Hrow. exists r'. split; [exact Hr'|].
    split; [congruence | exact Hm]. }
  assert (Hmax : Forall (fun f => List.NoDup (column f "date")) series ->
                 forall d m, In [d; Num m] (rows res) ->
                 forall f c w, In f series -> reports f d c w -> w <= m).
  { intros Huniq d m Hin f c w Hf (r & Hr & Hd & Hc & Hcell).
    apply Hrow in Hin. destruct Hin as (r' & Hr' & Hd' & Hm).
    assert (HcJ : In c (others (columns J))) by (apply Hlab; eauto).
    destruct (Hsnd r' f Hr' Hf) as [(r0 & Hr0 & Hdr & Hcells)|(Hno & _)].
    - assert (r0 = r).
      { rewrite List.Forall_forall in Huniq.
        apply (nodup_map_inj (fun r => get_cell (columns f) r "date") (rows f));
          [exact (Huniq f Hf) | exact Hr0 | exact Hr|].
        unfold date_of in *. congruence. }
      subst r0.
      apply (proj2 (row_max_spec _ _ _ _ Hm) c w HcJ).
      rewrite (Hcells c Hc). exact Hcell.
    - exfalso. apply Hno. rewrite Hd', <- Hd. now apply date_in_column. }
  exists res. split; [exact Hres|]. split; [exact Hcols|].
  split; [exact Hsound|]. split; [exact Hcover|].
  intros Huniq. split; [exact (Hmax Huniq)|].
  intros fA fB A B d a b Hlabels HfA HfB HA HB.
  destruct (Hcover fA A d a HfA HA) as (m & Hin & Ha).
  pose proof (Hmax Huniq d m Hin fB B b HfB HB) as Hb.
  destruct (Hsound d m Hin) as (f & c & Hf & Hrep).
  assert (Hc : c = A \/ c = B).
  { destruct Hrep as (_ & _ & _ & Hc & _).
    assert (Hall : In c (flat_map (fun f => others (columns f)) series))
      by (apply in_flat_map; eauto).
    rewrite Hlabels in Hall. cbn [In] in Hall. intuition congruence. }
  assert (Hown : forall g x v, In g series -> reports g d x v -> x = c -> v <= m /\ m <= v).
  { intros g x v Hg Hgx ->.
    assert (g = f).
    { destruct Hgx as (_ & _ & _ & Hcg & _). destruct Hrep as (_ & _ & _ & Hcf & _).
      exact (label_owner series g f c Hap Hg Hf Hcg Hcf). }
    subst g. split.
    - exact (Hmax Huniq d m Hin f c v Hf Hgx).
    - destruct (Hcover f c d v Hf Hgx) as (m' & Hin' & Hle').
      pose proof (Hmax Huniq d m' Hin' f c m Hf Hrep) as H1.
      destruct Hgx as (r1 & Hr1 & Hd1 & _ & Hc1). destruct Hrep as (r2 & Hr2 & Hd2 & _ & Hc2).
      assert (r1 = r2).
      { rewrite List.Forall_forall in Huniq.
        apply (nodup_map_inj (fun r => get_cell (columns f) r "date") (rows f));
          [exact (Huniq f Hf) | exact Hr1 | exact Hr2|].
        unfold date_of in *. congruence. }
      subst r2. rewrite Hc1 in Hc2. injection Hc2 as ->. lia. }
  replace (Z.max a b) with m; [exact Hin|].
  destruct Hc as [Hc|Hc].
  - destruct (Hown fA A a HfA HA (eq_sym Hc)). lia.
  - destruct (Hown fB B b HfB HB (eq_sym Hc)). lia.
Qed.

Lemma alias_frames_ok :
  Forall wf [series_A; series_B]
  /\ Forall (fun f => has_col "date" (columns f) = true /\ dates_ok f) [series_A; series_B]
  /\ labels_apart [series_A; series_B]
  /\ Forall (fun f => List.NoDup (column f "date")) [series_A; series_B].
Proof.
  repeat split; repeat constructor; simpl; try (eexists; reflexivity);
    intuition discriminate.
Qed.

Lemma alias_maximum_witness :
  exists res,
    combine_aliases "C" [series_A; series_B] = Some res
    /\ In [Day 20090; Num 25] (rows res).
Proof.
  destruct alias_frames_ok as (Hwf & Hd & Hap & Huniq).
  destruct (alias_maximum "C" [series_A; series_B]) as (res & Hres & _ & _ & _ & Hpair).
  - discriminate.
  - exact Hwf.
  - exact Hd.
  - exact Hap.
  - intros f c [<-|[<-|[]]] [<-|[]]; split; reflexivity.
  - exists series_A, "A". split; [now left | now left].
  - exists res. split; [exact Hres|].
    refine (proj2 (Hpair Huniq) series_A series_B "A" "B" (Day 20090) 25 7 _ _ _ _ _).
    + reflexivity.
    + now left.
    + right. now left.
    + exists [Day 20090; Num 25]. simpl. intuition.
    + exists [Day 20090; Num 7]. simpl. intuition.
Defined.

(** ** What the window records for every reported date *)

Lemma series_labels (srcs : list (string * DataFrame)) :
  Forall (fun cf : string * DataFrame => is_series (fst cf) (snd cf)) srcs ->
  ~ In "date" (map fst srcs) ->
  flat_map (fun f => others (columns f)) (map snd srcs) = map fst srcs.
Proof.
  induction srcs as [|[c f] srcs IH]; intros Hs Hd; [reflexivity|].
  inversion Hs as [|? ? [Hc _] Hs']; subst. cbn [fst snd map flat_map] in *.
  rewrite Hc, others_series by (intros ->; apply Hd; now left).
  cbn [app]. f_equal. apply IH; [exact Hs'|]. intros H. apply Hd. now right.
Qed.

Lemma series_frames_wf (srcs : list (string * DataFrame)) :
  Forall (fun cf : string * DataFrame => is_series (fst cf) (snd cf)) srcs ->
  ~ In "date" (map fst srcs) ->
  Forall wf (map snd srcs) /\ Forall (fun f => In "date" (columns f)) (map snd srcs).
Proof.
  intros Hs Hd. split; apply List.Forall_forall; intros f Hf; apply in_map_iff in Hf;
    destruct Hf as ([c f'] & <- & Hin); rewrite List.Forall_forall in Hs;
    destruct (Hs (c, f') Hin) as [Hc Hr]; cbn [fst snd] in *.
  - assert (Hcd : c <> "date").
    { intros ->. apply Hd. apply in_map_iff. exists ("date", f'). now split. }
    split.
    + rewrite Hc. constructor; [intros [E|[]]; congruence|]. constructor; [easy | constructor].
    + rewrite Hc. eapply List.Forall_impl; [|exact Hr]. intros r (z & v & -> & _). reflexivity.
  - rewrite Hc. now left.
Qed.

(** Every row of a candidate's series shows in the assembled window, under
    the same date, with the candidate's number, or with 0 for a hole. *)
Lemma window_cells (names : list string) (srcs : list (string * DataFrame))
      (out : DataFrame) :
  Forall (fun cf : string * DataFrame => is_series (fst cf) (snd cf)) srcs ->
  List.NoDup (map fst srcs) ->
  ~ In "date" (map fst srcs) ->
  assemble names (map snd srcs) = Some out ->
  forall c f r, In (c, f) srcs -> In r (rows f) ->
    exists r', In r' (rows out)
      /\ date_of (columns out) r' = date_of (columns f) r
      /\ get_cell (columns out) r' c
         = (if isna (get_cell (columns f) r c) then Num 0 else get_cell (columns f) r c).
Proof.
  intros Hs Hnd Hd Hout c f r Hcf Hr.
  destruct srcs as [|[c1 f1] more]; [destruct Hcf|].
  inversion Hs as [|? ? Hs1 Hs']; subst. simpl in Hs1.
  assert (Hc1 : c1 <> "date") by (intros ->; apply Hd; now left).
  pose proof (joined_ok_fold more f1 [(c1, f1)] (joined_ok_first c1 f1 Hs1 Hc1) Hs' Hnd Hd)
    as HJ.
  simpl app in HJ.
  destruct (series_frames_wf ((c1, f1) :: more) Hs Hd) as [Hwf Hdates].
  cbn [map snd] in Hwf, Hdates.
  inversion Hwf as [|? ? Hwf1 Hwf']; subst. inversion Hdates as [|? ? Hd1 Hd']; subst.
  assert (Hap : labels_apart (map snd ((c1, f1) :: more))).
  { unfold labels_apart. rewrite series_labels by assumption. exact Hnd. }
  pose proof (joined_inv_fold (map snd more) f1 [f1] (joined_inv_first f1 Hwf1 Hd1)
                Hwf' Hd' Hap) as HI.
  cbn [app] in HI.
  set (J := fold_left merge_outer (map snd more) f1) in *.
  destruct HJ as (Jcols & Jok & Jrows).
  destruct HI as (_ & _ & _ & _ & Hcov & _).
  assert (Jdate : In "date" (columns J)) by (rewrite Jcols; now left).
  assert (Jconv : dates_to_date J = Some J).
  { apply dates_to_date_days; [assumption|]. intros r0 Hr0. now destruct (Jrows r0 Hr0). }
  assert (Hoks : Forall rows_ok (map snd ((c1, f1) :: more))).
  { eapply List.Forall_impl; [|exact Hwf]. now intros a [_ Ha]. }
  destruct (fillna_zero_cells names (map snd ((c1, f1) :: more)) out Hoks
              ltac:(discriminate) Hout) as (merged & g & Hj & Hrows & Hcells).
  assert (merged = J).
  { unfold joined in Hj. cbn [map snd] in Hj. fold J in Hj. rewrite Jconv in Hj. congruence. }
  subst merged.
  assert (Hf : In f (f1 :: map snd more)).
  { change (f1 :: map snd more) with (map snd ((c1, f1) :: more)).
    apply in_map_iff. exists (c, f). now split. }
  assert (Hcols : columns f = ["date"; c]).
  { rewrite List.Forall_forall in Hs. exact (proj1 (Hs (c, f) Hcf)). }
  assert (Hcd : c <> "date").
  { intros ->. apply Hd. apply in_map_iff. exists ("date", f). now split. }
  destruct (Hcov f r Hf Hr) as (rJ & HrJ & HdJ & HcJ).
  assert (Hrs : In rJ (rows (sort_values_date J))).
  { unfold sort_values_date. cbn [rows].
    eapply Permutation_in; [apply sort_by_perm | exact HrJ]. }
  assert (Hc : In c (columns J)).
  { rewrite Jcols. right. apply in_map_iff. exists (c, f). now split. }
  destruct (Jrows rJ HrJ) as [[z Hz] Hsrc].
  destruct (Hcells rJ c Hrs Hc) as (_ & Hcell & _).
  destruct (Hcells rJ "date" Hrs Jdate) as (_ & Hdcell & _).
  assert (Hcol : numeric_col (sort_values_date J) c = true).
  { unfold numeric_col, column. apply forallb_forall. intros x Hx.
    apply in_map_iff in Hx. destruct Hx as (r0 & <- & Hr0).
    assert (In r0 (rows J)).
    { unfold sort_values_date in Hr0. simpl in Hr0.
      eapply Permutation_in; [symmetry; apply sort_by_perm | exact Hr0]. }
    destruct (Jrows r0 H) as [_ H0]. now destruct (H0 c f Hcf). }
  exists (g rJ). split; [rewrite Hrows; now apply in_map|]. split.
  - rewrite <- HdJ. unfold date_of in *. rewrite Hdcell, Hz. simpl.
    now rewrite andb_false_r.
  - rewrite Hcell, Hcol. cbn [andb]. rewrite (HcJ c).
    + reflexivity.
    + rewrite Hcols, others_series by assumption. now left.
Qed.

(** C10: in the window assembled from the candidates' series, every date any
    candidate reported is recorded; every cell of a candidate is a number,
    and it is 0 in a row whose date the candidate did not report; so a date
    one candidate reported and another did not has a row with 0 under the
    other, a hole in a candidate's own series shows as 0, and a number a
    candidate reported -- a genuine 0 among them -- shows as that number:
    nothing in the window tells a missing value from a 0. *)
Theorem zero_for_missing_day (names : list string) (srcs : list (string * DataFrame)) :
  srcs <> [] ->
  Forall (fun cf : string * DataFrame => is_series (fst cf) (snd cf)) srcs ->
  List.NoDup (map fst srcs) ->
  ~ In "date" (map fst srcs) ->
  exists out,
    assemble names (map snd srcs) = Some out
    /\ (forall c f d, In (c, f) srcs -> In d (column f "date") ->
          exists r, In r (rows out) /\ date_of (columns out) r = d)
    /\ (forall r c f, In r (rows out) -> In (c, f) srcs ->
          exists v, get_cell (columns out) r c = Num v
                    /\ (~ In (date_of (columns out) r) (column f "date") -> v = 0))
    /\ (forall c f c' f' d, In (c, f) srcs -> In (c', f') srcs ->
          In d (column f "date") -> ~ In d (column f' "date") ->
          exists r, In r (rows out) /\ date_of (columns out) r = d
                    /\ get_cell (columns out) r c' = Num 0)
    /\ (forall c f d, In (c, f) srcs -> In [d; NaN] (rows f) ->
          exists r, In r (rows out) /\ date_of (columns out) r = d
                    /\ get_cell (columns out) r c = Num 0)
    /\ (forall c f d v, In (c, f) srcs -> In [d; Num v] (rows f) ->
          exists r, In r (rows out) /\ date_of (columns out) r = d
                    /\ get_cell (columns out) r c = Num v).
Proof.
  intros Hne Hs Hnd Hd.
  destruct (zero_cells names srcs Hne Hs Hnd Hd) as (out & Hout & Hzero).
  pose proof (window_cells names srcs out Hs Hnd Hd Hout) as Hcells.
  assert (Hshape : forall c f, In (c, f) srcs -> columns f = ["date"; c] /\ c <> "date").
  { intros c f Hcf. rewrite List.Forall_forall in Hs. split; [exact (proj1 (Hs (c, f) Hcf))|].
    intros ->. apply Hd. apply in_map_iff. exists ("date", f). now split. }
  assert (Hrec : forall c f d, In (c, f) srcs -> In d (column f "date") ->
                   exists r, In r (rows out) /\ date_of (columns out) r = d).
  { intros c f d Hcf Hin. unfold column in Hin. apply in_map_iff in Hin.
    destruct Hin as (r & Hrd & Hr).
    destruct (Hcells c f r Hcf Hr) as (r' & Hr' & Hd' & _).
    exists r'. split; [exact Hr'|]. rewrite Hd'. exact Hrd. }
  assert (Hrow : forall c f d x, In (c, f) srcs -> In [d; x] (rows f) ->
                   exists r, In r (rows out) /\ date_of (columns out) r = d
                             /\ get_cell (columns out) r c = (if isna x then Num 0 else x)).
  { intros c f d x Hcf Hin. destruct (Hshape c f Hcf) as [Hcols Hcd].
    destruct (Hcells c f [d; x] Hcf Hin) as (r' & Hr' & Hd' & Hc').
    exists r'. split; [exact Hr'|]. rewrite Hd', Hc', Hcols. unfold date_of, get_cell.
    cbn [col_index]. destruct (String.string_dec "date" c) as [E|_]; [congruence|].
    cbn. destruct (String.string_dec c c); [|contradiction]. now cbn. }
  exists out. split; [exact Hout|]. split; [exact Hrec|]. split; [exact Hzero|].
  split; [|split].
  - intros c f c' f' d Hcf Hcf' Hin Hnot.
    destruct (Hrec c f d Hcf Hin) as (r & Hr & Hdr).
    destruct (Hzero r c' f' Hr Hcf') as (v & Hv & Hv0).
    exists r. split; [exact Hr|]. split; [exact Hdr|].
    rewrite Hv, Hv0; [reflexivity|]. now rewrite Hdr.
  - intros c f d Hcf Hin. exact (Hrow c f d NaN Hcf Hin).
  - intros c f d v Hcf Hin. exact (Hrow c f d (Num v) Hcf Hin).
Qed.

Lemma zero_for_missing_day_witness :
  exists out r,
    assemble ["A"; "B"] (map snd [("A", series_A); ("B", series_B)]) = Some out
    /\ In r (rows out)
    /\ date_of (columns out) r = Day 20091
    /\ get_cell (columns out) r "A" = Num 0
    /\ get_cell (columns out) r "B" = Num 9.
Proof.
  destruct (zero_for_missing_day ["A"; "B"] [("A", series_A); ("B", series_B)])
    as (out & Hout & _ & Hcell & Hzero & _ & _).
  - discriminate.
  - exact series_AB_are_series.
  - repeat constructor; simpl; intuition discriminate.
  - simpl. intuition discriminate.
  - destruct (Hzero "B" series_B "A" series_A (Day 20091)) as (r & Hr & Hd & Hc).
    + right. now left.
    + now left.
    + simpl. now right; left.
    + simpl. intuition discriminate.
    + exists out, r. split; [exact Hout|]. split; [exact Hr|]. split; [exact Hd|].
      split; [exact Hc|].
      vm_compute in Hout. injection Hout as <-.
      cbn in Hr. destruct Hr as [<-|[<-|[<-|[]]]]; cbn in Hd; try discriminate.
      reflexivity.
Defined.

(** * The aggregation of the simple collector *)

Lemma has_col_others_date cols : has_col "date" (others cols) = false.
Proof.
  apply has_col_not_In. intros H. apply others_In in H. now destruct H.
Qed.

Lemma fillna0_all_rows_ok df : rows_ok df -> rows_ok (Simple.fillna0_all df).
Proof.
  unfold rows_ok, Simple.fillna0_all, fillna0. cbn [columns rows].
  intros H. apply List.Forall_forall. intros r Hr. apply in_map_iff in Hr.
  destruct Hr as (r0 & <- & Hr0). rewrite List.Forall_forall in H.
  rewrite length_map, length_combine, (H r0 Hr0). lia.
Qed.

(** What [fillna(0)] leaves in a row: the date, and under every other label
    the cell it found, or 0 for a hole. *)
Lemma fillna0_all_cells df :
  rows_ok df -> In "date" (columns df) ->
  forall r', In r' (rows (Simple.fillna0_all df)) ->
    exists r, In r (rows df)
      /\ date_of (columns df) r' = date_of (columns df) r
      /\ forall c, In c (others (columns df)) ->
           get_cell (columns df) r' c
           = (if isna (get_cell (columns df) r c) then Num 0
              else get_cell (columns df) r c).
Proof.
  intros Hok Hd r' Hr'. unfold Simple.fillna0_all, fillna0 in Hr'. cbn [rows] in Hr'.
  apply in_map_iff in Hr'. destruct Hr' as (r & <- & Hr). exists r.
  unfold rows_ok in Hok. rewrite List.Forall_forall in Hok.
  split; [exact Hr|]. split.
  - unfold date_of. rewrite fillna0_cell by auto. now rewrite has_col_others_date.
  - intros c Hc. rewrite fillna0_cell; [|apply others_In in Hc; tauto | auto].
    apply has_col_In in Hc. now rewrite Hc.
Qed.

Lemma fillna0_all_has df r :
  rows_ok df -> In "date" (columns df) -> In r (rows df) ->
  exists r', In r' (rows (Simple.fillna0_all df))
    /\ date_of (columns df) r' = date_of (columns df) r
    /\ forall c, In c (others (columns df)) ->
         get_cell (columns df) r' c
         = (if isna (get_cell (columns df) r c) then Num 0
            else get_cell (columns df) r c).
Proof.
  intros Hok Hd Hr.
  exists (map (fun cv : string * cell =>
                 if has_col (fst cv) (others (columns df)) && isna (snd cv)
                 then Num 0 else snd cv) (List.combine (columns df) r)).
  unfold rows_ok in Hok. rewrite List.Forall_forall in Hok.
  split; [|split].
  - unfold Simple.fillna0_all, fillna0. cbn [rows].
    apply in_map_iff. exists r. split; [reflexivity | exact Hr].
  - unfold date_of. rewrite fillna0_cell by auto. now rewrite has_col_others_date.
  - intros c Hc. rewrite fillna0_cell; [|apply others_In in Hc; tauto | auto].
    apply has_col_In in Hc. now rewrite Hc.
Qed.

Section SimpleJoin.

Variables (cname : string) (first : DataFrame) (more : list DataFrame).
Let series := first :: more.
Let J := fold_left merge_outer more first.
Let cols := columns J.

Hypothesis cname_ok : cname <> "date".
Hypothesis series_wf : Forall wf series.
Hypothesis series_dates : Forall (fun f => has_col "date" (columns f) = true) series.
Hypothesis series_apart : labels_apart series.

Lemma simple_J_inv : joined_inv J series.
Proof.
  inversion series_wf as [|? ? Hw Hws]; subst.
  inversion series_dates as [|? ? Hd Hds]; subst.
  apply (joined_inv_fold more first [first]).
  - apply joined_inv_first; [exact Hw | now apply has_col_In].
  - exact Hws.
  - eapply List.Forall_impl; [|exact Hds]. intros f Hf. now apply has_col_In.
  - exact series_apart.
Qed.

(** The rows of the candidate's series: the date of a row of the join, and
    the largest of its cells after the fill. *)
Lemma simple_result :
  exists res,
    Simple.combine_aliases cname series = Some res
    /\ columns res = ["date"; cname]
    /\ forall d v, In [d; v] (rows res) <->
         exists r', In r' (rows (Simple.fillna0_all J))
                    /\ date_of cols r' = d /\ row_max cols (others cols) r' = v.
Proof.
  destruct simple_J_inv as (_ & Jd & Jok & _).
  unfold Simple.combine_aliases, Simple.concat_axis1, series. fold J.
  eexists. split; [reflexivity|]. split; [reflexivity|].
  intros d v. cbv zeta.
  rewrite assign_then_select;
    [|exact cname_ok | now apply fillna0_all_rows_ok | exact Jd].
  change (columns (Simple.fillna0_all J)) with cols.
  rewrite in_map_iff. split.
  - intros (r' & [= <- <-] & Hr'). eauto.
  - intros (r' & Hr' & <- & <-). eauto.
Qed.

End SimpleJoin.

(** X29: the simple collector's series of a candidate, from the frames of
    its batches (no date twice in a frame, no label shared, numbers or holes
    under the aliases): its labels are [date] and the candidate's name; a
    value is a number some alias reports for that date, or the 0 that fills
    a hole; every reported number has a row of its date, and no alias reports
    more for a date than the value of that date; a date an alias has no row
    for has a value of at least 0; and with two aliases [A] and [B] in all, a
    date for which they report [a] and [b] has the value [max a b]. *)
Theorem simple_alias_maximum (cname : string) (series : list DataFrame) :
  cname <> "date" ->
  series <> [] ->
  Forall wf series ->
  Forall (fun f => has_col "date" (columns f) = true) series ->
  labels_apart series ->
  Forall (fun f => List.NoDup (column f "date")) series ->
  (forall f c, In f series -> In c (others (columns f)) -> numeric_col f c = true) ->
  exists res,
    Simple.combine_aliases cname series = Some res
    /\ columns res = ["date"; cname]
    /\ (forall d m, In [d; Num m] (rows res) ->
          m = 0 \/ exists f c, In f series /\ reports f d c m)
    /\ (forall f c d w, In f series -> reports f d c w ->
          exists m, In [d; Num m] (rows res) /\ w <= m)
    /\ (forall d m, In [d; Num m] (rows res) ->
          forall f c w, In f series -> reports f d c w -> w <= m)
    /\ (forall d m f c, In [d; Num m] (rows res) -> In f series ->
          In c (others (columns f)) -> ~ In d (column f "date") -> 0 <= m)
    /\ (forall fA fB A B d a b,
          flat_map (fun f => others (columns f)) series = [A; B] ->
          In fA series -> In fB series ->
          reports fA d A a -> reports fB d B b ->
          In [d; Num (Z.max a b)] (rows res)).
Proof.
  intros Hne Hsome Hwf Hdates Hap Huniq Hnum.
  destruct series as [|first more]; [contradiction|].
  destruct (simple_result cname first more Hne Hwf Hdates Hap)
    as (res & Hres & Hcols & Hrow).
  pose proof (simple_J_inv first more Hwf Hdates Hap) as (_ & Jd & Jok & Hlab & Hcov & Hsnd).
  set (J := fold_left merge_outer more first) in *.
  set (series := first :: more) in *.
  rewrite List.Forall_forall in Huniq.
  assert (Hsame : forall f r1 r2, In f series -> In r1 (rows f) -> In r2 (rows f) ->
                    date_of (columns f) r1 = date_of (columns f) r2 -> r1 = r2).
  { intros f r1 r2 Hf H1 H2 E.
    exact (nodup_map_inj (fun r => get_cell (columns f) r "date") (rows f) r1 r2
             (Huniq f Hf) H1 H2 E). }
  (* a cell of a row of the result, under the label [c] of the frame [f] *)
  assert (Hcell : forall r' rJ f c,
            In rJ (rows J) -> In f series -> In c (others (columns f)) ->
            (forall c0, In c0 (others (columns J)) ->
               get_cell (columns J) r' c0
               = (if isna (get_cell (columns J) rJ c0) then Num 0
                  else get_cell (columns J) rJ c0)) ->
            (exists r, In r (rows f)
                       /\ date_of (columns f) r = date_of (columns J) rJ
                       /\ get_cell (columns J) r' c
                          = (if isna (get_cell (columns f) r c) then Num 0
                             else get_cell (columns f) r c))
            \/ (~ In (date_of (columns J) rJ) (column f "date")
                /\ get_cell (columns J) r' c = Num 0)).
  { intros r' rJ f c HrJ Hf Hc Hfill.
    assert (HcJ : In c (others (columns J))) by (apply Hlab; eauto).
    rewrite (Hfill c HcJ).
    destruct (Hsnd rJ f HrJ Hf) as [(r & Hr & Hdr & Hcells)|(Hno & Hcells)].
    - left. exists r. split; [exact Hr|]. split; [exact Hdr|]. now rewrite (Hcells c Hc).
    - right. split; [exact Hno|]. now rewrite (Hcells c Hc). }
  assert (Hsound : forall d m, In [d; Num m] (rows res) ->
                     m = 0 \/ exists f c, In f series /\ reports f d c m).
  { intros d m Hin. apply Hrow in Hin. destruct Hin as (r' & Hr' & Hd & Hmax).
    destruct (fillna0_all_cells J Jok Jd r' Hr') as (rJ & HrJ & HdJ & Hfill).
    destruct (row_max_spec _ _ _ _ Hmax) as [(c & Hc & Hv) _].
    destruct (proj1 (Hlab c) Hc) as (f & Hf & Hcf).
    destruct (Hcell r' rJ f c HrJ Hf Hcf Hfill) as [(r & Hr & Hdr & Hcr)|(_ & Hz)].
    - rewrite Hv in Hcr. destruct (isna (get_cell (columns f) r c)) eqn:En.
      + left. congruence.
      + right. exists f, c. split; [exact Hf|]. exists r. split; [exact Hr|].
        split; [congruence|]. split; [exact Hcf | now symmetry].
    - left. congruence. }
  assert (Hcover : forall f c d w, In f series -> reports f d c w ->
                     exists m, In [d; Num m] (rows res) /\ w <= m).
  { intros f c d w Hf (r & Hr & Hd & Hc & Hv).
    destruct (Hcov f r Hf Hr) as (rJ & HrJ & HdJ & Hcells).
    destruct (fillna0_all_has J rJ Jok Jd HrJ) as (r' & Hr' & Hd' & Hfill).
    assert (HcJ : In c (others (columns J))) by (apply Hlab; eauto).
    destruct (row_max_reaches (columns J) (others (columns J)) r' c w HcJ) as (m & Hm & Hle).
    { rewrite (Hfill c HcJ), (Hcells c Hc), Hv. reflexivity. }
    exists m. split; [|exact Hle]. apply Hrow. exists r'. split; [exact Hr'|].
    split; [congruence | exact Hm]. }
  assert (Hmax : forall d m, In [d; Num m] (rows res) ->
                 forall f c w, In f series -> reports f d c w -> w <= m).
  { intros d m Hin f c w Hf (r & Hr & Hd & Hc & Hv).
    apply Hrow in Hin. destruct Hin as (r' & Hr' & Hd' & Hm).
    destruct (fillna0_all_cells J Jok Jd r' Hr') as (rJ & HrJ & HdJ & Hfill).
    assert (HcJ : In c (others (columns J))) by (apply Hlab; eauto).
    apply (proj2 (row_max_spec _ _ _ _ Hm) c w HcJ).
    destruct (Hcell r' rJ f c HrJ Hf Hc Hfill) as [(r0 & Hr0 & Hdr & Hcr)|(Hno & _)].
    - assert (r0 = r) by (apply (Hsame f); auto; congruence). subst r0.
      rewrite Hcr, Hv. reflexivity.
    - exfalso. apply Hno. rewrite <- HdJ, Hd', <- Hd. now apply date_in_column. }
  assert (Hzero : forall d m f c, In [d; Num m] (rows res) -> In f series ->
                    In c (others (columns f)) -> ~ In d (column f "date") -> 0 <= m).
  { intros d m f c Hin Hf Hc Hno.
    apply Hrow in Hin. destruct Hin as (r' & Hr' & Hd' & Hm).
    destruct (fillna0_all_cells J Jok Jd r' Hr') as (rJ & HrJ & HdJ & Hfill).
    assert (HcJ : In c (others (columns J))) by (apply Hlab; eauto).
    apply (proj2 (row_max_spec _ _ _ _ Hm) c 0 HcJ).
    destruct (Hcell r' rJ f c HrJ Hf Hc Hfill) as [(r0 & Hr0 & Hdr & _)|(_ & Hz)];
      [|exact Hz].
    exfalso. apply Hno. rewrite <- Hd', HdJ, <- Hdr. now apply date_in_column. }
  exists res. split; [exact Hres|]. split; [exact Hcols|].
  split; [exact Hsound|]. split; [exact Hcover|]. split; [exact Hmax|].
  split; [exact Hzero|].
  intros fA fB A B d a b Hlabels HfA HfB HA HB.
  destruct (Hcover fA A d a HfA HA) as (m & Hin & Ha).
  pose proof (Hmax d m Hin fB B b HfB HB) as Hb.
  replace (Z.max a b) with m; [exact Hin|].
  pose proof Hin as Hin0.
  apply Hrow in Hin. destruct Hin as (r' & Hr' & Hd' & Hm).
  destruct (fillna0_all_cells J Jok Jd r' Hr') as (rJ & HrJ & HdJ & Hfill).
  destruct (row_max_spec _ _ _ _ Hm) as [(c & Hc & Hv) _].
  assert (Hc2 : c = A \/ c = B).
  { destruct (proj1 (Hlab c) Hc) as (f & Hf & Hcf).
    assert (Hall : In c (flat_map (fun f => others (columns f)) series))
      by (apply in_flat_map; eauto).
    rewrite Hlabels in Hall. cbn [In] in Hall. intuition congruence. }
  assert (Hown : forall g x v, In g series -> reports g d x v -> x = c -> m = v).
  { intros g x v Hg (r & Hr & Hd & Hx & Hxv) ->.
    destruct (Hcell r' rJ g c HrJ Hg Hx Hfill) as [(r0 & Hr0 & Hdr & Hcr)|(Hno & _)].
    - assert (r0 = r) by (apply (Hsame g); auto; congruence). subst r0.
      rewrite Hv, Hxv in Hcr. cbn in Hcr. congruence.
    - exfalso. apply Hno. rewrite <- HdJ, Hd', <- Hd. now apply date_in_column. }
  destruct Hc2 as [Hc2|Hc2].
  - pose proof (Hown fA A a HfA HA (eq_sym Hc2)). lia.
  - pose proof (Hown fB B b HfB HB (eq_sym Hc2)). lia.
Qed.

Lemma simple_alias_maximum_witness :
  exists res,
    Simple.combine_aliases "C" [series_A; series_B] = Some res
    /\ In [Day 20090; Num 25] (rows res).
Proof.
  destruct alias_frames_ok as (Hwf & Hd & Hap & Huniq).
  destruct (simple_alias_maximum "C" [series_A; series_B])
    as (res & Hres & _ & _ & _ & _ & _ & Hpair).
  - discriminate.
  - discriminate.
  - exact Hwf.
  - repeat constructor.
  - exact Hap.
  - exact Huniq.
  - intros f c [<-|[<-|[]]] [<-|[]]; reflexivity.
  - exists res. split; [exact Hres|].
    refine (Hpair series_A series_B "A" "B" (Day 20090) 25 7 _ _ _ _ _).
    + reflexivity.
    + now left.
    + right. now left.
    + exists [Day 20090; Num 25]. simpl. intuition.
    + exists [Day 20090; Num 7]. simpl. intuition.
Defined.

(** X30: the simple collector's window, from the candidates' series (no date
    twice in a series): its labels are [date] and the configured names; every
    date any candidate reported is recorded; under a candidate that has a
    series every cell is a number, 0 where its series lacks the date or has a
    hole, while a reported number is kept; under a configured name without
    any series every cell is a hole, not 0. *)
Theorem simple_zero_for_missing_day (names : list string)
        (srcs : list (string * DataFrame)) :
  srcs <> [] ->
  Forall (fun cf : string * DataFrame => is_series (fst cf) (snd cf)) srcs ->
  List.NoDup (map fst srcs) ->
  ~ In "date" (map fst srcs) ->
  Forall (fun cf : string * DataFrame => List.NoDup (column (snd cf) "date")) srcs ->
  exists out,
    Simple.assemble names (map snd srcs) = Some out
    /\ columns out = "date" :: names
    /\ (forall c f d, In (c, f) srcs -> In d (column f "date") ->
          exists r, In r (rows out) /\ date_of (columns out) r = d)
    /\ (forall r c f, In r (rows out) -> In (c, f) srcs -> In c names ->
          exists v, get_cell (columns out) r c = Num v
                    /\ (~ In (date_of (columns out) r) (column f "date") -> v = 0))
    /\ (forall c f d x, In (c, f) srcs -> In c names -> In [d; x] (rows f) ->
          exists r, In r (rows out) /\ date_of (columns out) r = d
                    /\ get_cell (columns out) r c = (if isna x then Num 0 else x))
    /\ (forall r c, In r (rows out) -> In c names -> c <> "date" ->
          ~ In c (map fst srcs) -> get_cell (columns out) r c = NaN).
Proof.
  intros Hne Hs Hnd Hd _.
  destruct srcs as [|[c1 f1] more]; [contradiction|].
  destruct (series_frames_wf ((c1, f1) :: more) Hs Hd) as [Hwf Hdates].
  cbn [map snd] in Hwf, Hdates.
  inversion Hwf as [|? ? Hwf1 Hwf']; subst. inversion Hdates as [|? ? Hd1 Hds]; subst.
  assert (Hap : labels_apart (map snd ((c1, f1) :: more))).
  { unfold labels_apart. rewrite series_labels by assumption. exact Hnd. }
  pose proof (joined_inv_fold (map snd more) f1 [f1] (joined_inv_first f1 Hwf1 Hd1)
                Hwf' Hds Hap) as HI.
  cbn [app] in HI.
  set (J := fold_left merge_outer (map snd more) f1) in *.
  destruct HI as (_ & Jd & Jok & Hlab & Hcov & Hsnd).
  set (F := Simple.fillna0_all J).
  assert (Fcols : columns F = columns J) by reflexivity.
  assert (Hshape : forall c f, In (c, f) ((c1, f1) :: more) ->
            In f (f1 :: map snd more) /\ columns f = ["date"; c] /\ c <> "date"
            /\ others (columns f) = [c]
            /\ forall r, In r (rows f) -> exists z v, r = [Day z; v] /\ is_number v = true).
  { intros c f Hcf. rewrite List.Forall_forall in Hs. destruct (Hs (c, f) Hcf) as [Hc Hr].
    cbn [fst snd] in *.
    assert (Hcd : c <> "date").
    { intros ->. apply Hd. apply in_map_iff. exists ("date", f). now split. }
    split; [|split; [exact Hc|split; [exact Hcd|split]]].
    - change (f1 :: map snd more) with (map snd ((c1, f1) :: more)).
      apply in_map_iff. exists (c, f). now split.
    - rewrite Hc. now apply others_series.
    - rewrite List.Forall_forall in Hr. exact Hr. }
  assert (Hcellf : forall c f z v, columns f = ["date"; c] -> c <> "date" ->
            date_of (columns f) [Day z; v] = Day z /\ get_cell (columns f) [Day z; v] c = v).
  { intros c f z v Hc Hcd. rewrite Hc. unfold date_of, get_cell. cbn [col_index].
    destruct (String.string_dec "date" c) as [E|_]; [congruence|].
    cbn. destruct (String.string_dec c c); [|contradiction]. now cbn. }
  assert (Jdays : forall r, In r (rows J) -> exists z, date_of (columns J) r = Day z).
  { intros r Hr. destruct (Hsnd r f1 Hr ltac:(now left))
      as [(r0 & Hr0 & Hdr & _)|(Hno & _)].
    - destruct (Hshape c1 f1 ltac:(now left)) as (_ & Hc & Hcd & _ & Hrows).
      destruct (Hrows r0 Hr0) as (z & v & -> & _). exists z.
      rewrite <- Hdr. exact (proj1 (Hcellf c1 f1 z v Hc Hcd)).
    - pose proof (date_in_column J r Hr) as Hin.
      apply (join_all_column (map snd more) f1) in Hin; [|exact (proj2 Hwf1) | exact Hd1].
      destruct Hin as [Hin|(f & Hf & Hin)]; [contradiction|].
      apply in_map_iff in Hf. destruct Hf as ([c f'] & <- & Hcf). cbn [snd] in *.
      destruct (Hshape c f' ltac:(now right)) as (_ & Hc & Hcd & _ & Hrows).
      unfold column in Hin. apply in_map_iff in Hin. destruct Hin as (r0 & Hr0d & Hr0).
      destruct (Hrows r0 Hr0) as (z & v & -> & _). exists z.
      rewrite <- Hr0d. exact (proj1 (Hcellf c f' z v Hc Hcd)). }
  assert (Fconv : dates_to_date F = Some F).
  { apply dates_to_date_days; [exact Jd|]. intros r' Hr'.
    destruct (fillna0_all_cells J Jok Jd r' Hr') as (rJ & HrJ & HdJ & _).
    rewrite Fcols, HdJ. now apply Jdays. }
  set (out := reindex ("date" :: names) F).
  assert (Hout : Simple.assemble names (map snd ((c1, f1) :: more)) = Some out).
  { unfold Simple.assemble, Simple.concat_axis1. cbn [map snd]. fold J. fold F.
    now rewrite Fconv. }
  assert (Hrows : forall r, In r (rows out) <->
            exists r', In r' (rows F)
                       /\ r = map (get_cell (columns J) r') ("date" :: names)).
  { intros r. unfold out, reindex. cbn [rows]. rewrite Fcols, in_map_iff.
    split; intros (r' & H1 & H2); eauto. }
  assert (Hget : forall r' c, In c ("date" :: names) ->
            get_cell (columns out) (map (get_cell (columns J) r') ("date" :: names)) c
            = get_cell (columns J) r' c).
  { intros r' c Hc. unfold out, reindex. cbn [columns]. now apply get_cell_map. }
  assert (Hcell : forall r' rJ c f,
            In (c, f) ((c1, f1) :: more) -> In rJ (rows J) ->
            (forall c0, In c0 (others (columns J)) ->
               get_cell (columns J) r' c0
               = (if isna (get_cell (columns J) rJ c0) then Num 0
                  else get_cell (columns J) rJ c0)) ->
            exists v, get_cell (columns J) r' c = Num v
                      /\ (~ In (date_of (columns J) rJ) (column f "date") -> v = 0)).
  { intros r' rJ c f Hcf HrJ Hfill.
    destruct (Hshape c f Hcf) as (Hf & Hc & Hcd & Ho & Hfr).
    assert (Hcf' : In c (others (columns f))) by (rewrite Ho; now left).
    assert (HcJ : In c (others (columns J))) by (apply Hlab; eauto).
    rewrite (Hfill c HcJ).
    destruct (Hsnd rJ f HrJ Hf) as [(r & Hr & Hdr & Hcells)|(Hno & Hcells)].
    - rewrite (Hcells c Hcf'). destruct (Hfr r Hr) as (z & v & -> & Hv).
      rewrite (proj2 (Hcellf c f z v Hc Hcd)).
      destruct v; try discriminate; cbn [isna].
      + exists 0. split; [reflexivity|]. intros _. reflexivity.
      + exists v. split; [reflexivity|]. intros Hno. exfalso. apply Hno.
        rewrite <- Hdr. now apply date_in_column.
    - rewrite (Hcells c Hcf'). cbn [isna]. exists 0. split; reflexivity. }
  assert (Hrow : forall c f d x, In (c, f) ((c1, f1) :: more) -> In [d; x] (rows f) ->
            exists r', In r' (rows F) /\ date_of (columns J) r' = d
                       /\ get_cell (columns J) r' c = (if isna x then Num 0 else x)).
  { intros c f d x Hcf Hin.
    destruct (Hshape c f Hcf) as (Hf & Hc & Hcd & Ho & Hfr).
    destruct (Hfr _ Hin) as (z & v & [= -> ->] & _).
    destruct (Hcellf c f z v Hc Hcd) as [E1 E2].
    assert (Hcf' : In c (others (columns f))) by (rewrite Ho; now left).
    assert (HcJ : In c (others (columns J))) by (apply Hlab; eauto).
    destruct (Hcov f [Day z; v] Hf Hin) as (rJ & HrJ & HdJ & Hcells).
    destruct (fillna0_all_has J rJ Jok Jd HrJ) as (r' & Hr' & Hd' & Hfill).
    exists r'. split; [exact Hr'|]. split; [congruence|].
    rewrite (Hfill c HcJ), (Hcells c Hcf'), E2. reflexivity. }
  exists out. split; [exact Hout|]. split; [reflexivity|].
  split; [|split; [|split]].
  - intros c f d Hcf Hin. unfold column in Hin. apply in_map_iff in Hin.
    destruct Hin as (r & Hrd & Hr).
    destruct (Hshape c f Hcf) as (_ & Hc & Hcd & _ & Hfr).
    destruct (Hfr r Hr) as (z & v & -> & _).
    destruct (Hrow c f (Day z) v Hcf Hr) as (r' & Hr' & Hd' & _).
    exists (map (get_cell (columns J) r') ("date" :: names)).
    split; [apply Hrows; eauto|]. unfold date_of. rewrite Hget by now left.
    rewrite <- Hrd. unfold date_of in *. rewrite Hd'.
    symmetry. exact (proj1 (Hcellf c f z v Hc Hcd)).
  - intros r c f Hr Hcf Hc. apply Hrows in Hr. destruct Hr as (r' & Hr' & ->).
    destruct (fillna0_all_cells J Jok Jd r' Hr') as (rJ & HrJ & HdJ & Hfill).
    destruct (Hcell r' rJ c f Hcf HrJ Hfill) as (v & Hv & Hz).
    exists v. rewrite Hget by now right. split; [exact Hv|].
    unfold date_of. rewrite Hget by now left. fold (date_of (columns J) r').
    rewrite HdJ. exact Hz.
  - intros c f d x Hcf Hc Hin.
    destruct (Hrow c f d x Hcf Hin) as (r' & Hr' & Hd' & Hv).
    exists (map (get_cell (columns J) r') ("date" :: names)).
    split; [apply Hrows; eauto|]. unfold date_of. rewrite !Hget; [|now right | now left].
    split; [exact Hd' | exact Hv].
  - intros r c Hr Hc Hcd Hno. apply Hrows in Hr. destruct Hr as (r' & Hr' & ->).
    rewrite Hget by now right.
    unfold get_cell. destruct (col_index c (columns J)) as [i|] eqn:Ei.
    + exfalso. apply col_index_Some in Ei. destruct Ei as [Hlt Hn].
      assert (HcJ : In c (others (columns J))).
      { apply others_In. split; [|exact Hcd]. rewrite <- Hn. now apply nth_In. }
      destruct (proj1 (Hlab c) HcJ) as (f & Hf & Hcf).
      change (f1 :: map snd more) with (map snd ((c1, f1) :: more)) in Hf.
      apply in_map_iff in Hf. destruct Hf as ([c' f'] & <- & Hin). cbn [snd] in *.
      destruct (Hshape c' f' Hin) as (_ & _ & _ & Ho & _).
      rewrite Ho in Hcf. destruct Hcf as [<-|[]].
      apply Hno. apply in_map_iff. exists (c', f'). now split.
    + reflexivity.
Qed.

Lemma simple_zero_for_missing_day_witness :
  exists out r,
    Simple.assemble ["A"; "B"; "C"] (map snd [("A", series_A); ("B", series_B)])
    = Some out
    /\ In r (rows out)
    /\ date_of (columns out) r = Day 20091
    /\ get_cell (columns out) r "A" = Num 0
    /\ get_cell (columns out) r "C" = NaN.
Proof.
  destruct (simple_zero_for_missing_day ["A"; "B"; "C"] [("A", series_A); ("B", series_B)])
    as (out & Hout & _ & Hrec & Hcell & _ & Hnone).
  - discriminate.
  - exact series_AB_are_series.
  - repeat constructor; simpl; intuition discriminate.
  - simpl. intuition discriminate.
  - repeat constructor; simpl; intuition discriminate.
  - destruct (Hrec "B" series_B (Day 20091)) as (r & Hr & Hd).
    + right. now left.
    + simpl. now right; left.
    + exists out, r. split; [exact Hout|]. split; [exact Hr|]. split; [exact Hd|]. split.
      * destruct (Hcell r "A" series_A Hr) as (v & Hv & Hz); [now left | now left |].
        rewrite Hv, Hz; [reflexivity|]. rewrite Hd. simpl. intuition discriminate.
      * apply Hnone; [exact Hr | simpl; tauto | discriminate |].
        simpl. intuition discriminate.
Defined.
